(** * schedule: a shallow embedding of [schedule/__init__.py]

    The module keeps a registry of periodic jobs ([Scheduler]) whose entries
    ([Job]) are configured through chained calls and recompute their next due
    instant in [Job._schedule_next_run].

    Conventions of the embedding.
    - Python objects live in a store: a [Job] is addressed by a location and
      [Scheduler.jobs] is a list of locations, so that the list built by
      [sorted] in [run_pending] aliases the registered jobs.
    - Everything the code reads from its environment is an oracle of the
      world: the successive readings of [datetime.datetime.now()], the
      successive draws of the [random] module, and the outcome of the
      successive work-unit invocations (normal return or a raised error).
      Work units do not touch the scheduler's own objects.
    - A computation returns a value or raises; the store keeps the
      assignments made before the raise, as in Python.
    - Truth values follow Python 3: [datetime] and [time] objects are always
      true, [None], [()], [[]] and the empty set are false.
    - A [str] is the sequence of its code points. The embedding covers the
      strings whose code points are all below 256, one [ascii] per code
      point; among these code points the decimal digits are [0] to [9], the
      upper-case letters are 65 to 90, 192 to 214 and 216 to 222, and the
      white space above 127 is 133 and 160.
    - A [float] is a binary64 number, as in the Standard Library's
      [SpecFloat].
    - Where the versions of CPython differ the embedding follows 3.6 to 3.10
      on Linux: [int()] accepts single underscores between digits,
      [random.sample] accepts a set, [time.sleep] keeps its delay in 64-bit
      nanoseconds.
    - Logging is not modelled. *)

From Stdlib Require Floats.SpecFloat.
From Stdlib Require Import ZArith Lia Ascii String.
From stdpp Require Import base option list sorting gmap strings.

Local Open Scope Z_scope.

(** ** Exceptions and results *)

Inductive exn : Type :=
  | AssertionError
  | TypeError
  | ValueError
  | OverflowError
  | Raised (what : string)   (* an error raised by a work unit *)
  | DanglingRef.             (* model only: an address outside the store *)

Inductive result (A : Type) : Type :=
  | Ok (a : A)
  | Err (e : exn).
Arguments Ok {A} a.
Arguments Err {A} e.

Definition is_Err {A} (r : result A) : Prop :=
  match r with Ok _ => False | Err _ => True end.

Definition rbind {A B} (r : result A) (k : A -> result B) : result B :=
  match r with Ok a => k a | Err e => Err e end.

(** ** [datetime.time], [datetime.datetime], [datetime.timedelta]

    A [datetime] keeps its date as the proleptic Gregorian ordinal
    ([toordinal()], day 1 is 0001-01-01); year, month and day are only needed
    to read dates, through [ymd2ord]. *)

Record time : Type := Time {
  hour : Z; minute : Z; second : Z; microsecond : Z }.

Record datetime : Type := Datetime {
  toordinal : Z;      (* .date(), as an ordinal *)
  timeof : time }.    (* .time() *)

Record timedelta : Type := Timedelta {
  td_days : Z; td_seconds : Z; td_microseconds : Z }.

Definition MAXORDINAL : Z := 3652059.   (* date.max.toordinal() *)
Definition US_PER_SECOND : Z := 1000000.
Definition US_PER_DAY : Z := 86400 * US_PER_SECOND.

Definition time_wf (t : time) : Prop :=
  0 <= hour t < 24 /\ 0 <= minute t < 60 /\ 0 <= second t < 60
  /\ 0 <= microsecond t < US_PER_SECOND.

Definition datetime_wf (d : datetime) : Prop :=
  1 <= toordinal d <= MAXORDINAL /\ time_wf (timeof d).

Definition time_us (t : time) : Z :=
  ((hour t * 60 + minute t) * 60 + second t) * US_PER_SECOND + microsecond t.

Definition time_of_us (us : Z) : time :=
  let s := us / US_PER_SECOND in
  Time (s / 3600) ((s mod 3600) / 60) ((s mod 3600) mod 60) (us mod US_PER_SECOND).

(** Comparison of [time] and [datetime] objects is the comparison of their
    field tuples. *)
Definition lex (c1 c2 : comparison) : comparison :=
  match c1 with Eq => c2 | _ => c1 end.

Definition time_cmp (a b : time) : comparison :=
  lex (hour a ?= hour b) (lex (minute a ?= minute b)
    (lex (second a ?= second b) (microsecond a ?= microsecond b))).

Definition dt_cmp (a b : datetime) : comparison :=
  lex (toordinal a ?= toordinal b) (time_cmp (timeof a) (timeof b)).

Definition time_gt (a b : time) : bool :=
  match time_cmp a b with Gt => true | _ => false end.

Definition dt_lt (a b : datetime) : bool :=
  match dt_cmp a b with Lt => true | _ => false end.

Definition dt_ge (a b : datetime) : bool := negb (dt_lt a b).

(** [timedelta(...)] normalises its arguments and refuses more than
    999999999 days in either direction. *)
Definition timedelta_of_us (us : Z) : result timedelta :=
  let d := us / US_PER_DAY in
  if Z.abs d >? 999999999 then Err OverflowError
  else Ok (Timedelta d ((us mod US_PER_DAY) / US_PER_SECOND) (us mod US_PER_SECOND)).

Definition td_us (t : timedelta) : Z :=
  (td_days t * 86400 + td_seconds t) * US_PER_SECOND + td_microseconds t.

Definition timedelta_days (n : Z) : result timedelta :=
  timedelta_of_us (n * US_PER_DAY).

Definition timedelta_seconds (n : Z) : result timedelta :=
  timedelta_of_us (n * US_PER_SECOND).

(** A [float]: [S754_finite s m e] is [m * 2^e], negated when [s] is set. *)
Definition float : Type := SpecFloat.spec_float.

(** [td.total_seconds()] is the integer division
    [(days * 86400 + seconds) * 10**6 + microseconds) / 10**6], whose result
    is the binary64 number nearest to the quotient (ties to even). The
    quotient is within the normal range for every [timedelta]. *)
Definition total_seconds (t : timedelta) : float :=
  let per_second := SpecFloat.S754_finite false 1000000 0 in
  match td_us t with
  | Z0 => SpecFloat.S754_zero false
  | Zpos p => SpecFloat.SFdiv 53 1024 (SpecFloat.S754_finite false p 0) per_second
  | Zneg p => SpecFloat.SFdiv 53 1024 (SpecFloat.S754_finite true p 0) per_second
  end.

(** [int(td.total_seconds())] for the difference of two times that
    [between()] stores: a whole number of minutes within a day, for which the
    float is exact; [int] truncates towards zero. *)
Definition int_total_seconds (t : timedelta) : Z :=
  Z.quot (td_us t) US_PER_SECOND.

Definition dt_us (d : datetime) : Z :=
  toordinal d * US_PER_DAY + time_us (timeof d).

(** [datetime + timedelta] *)
Definition dt_add (d : datetime) (t : timedelta) : result datetime :=
  let us := dt_us d + td_us t in
  let days := us / US_PER_DAY in
  if (0 <? days) && (days <=? MAXORDINAL)
  then Ok (Datetime days (time_of_us (us mod US_PER_DAY)))
  else Err OverflowError.

(** [datetime - timedelta] is [datetime + (-timedelta)] *)
Definition dt_sub (d : datetime) (t : timedelta) : result datetime :=
  rbind (timedelta_of_us (- td_us t)) (dt_add d).

(** [datetime - datetime] *)
Definition dt_diff (a b : datetime) : result timedelta :=
  timedelta_of_us (dt_us a - dt_us b).

(** [d.replace(hour=.., minute=.., second=.., microsecond=0)] *)
Definition dt_replace (d : datetime) (h m s : Z) : datetime :=
  Datetime (toordinal d) (Time h m s 0).

(** [d.isoweekday()]: Monday is 1 and Sunday is 7. *)
Definition isoweekday (d : datetime) : Z :=
  let r := toordinal d mod 7 in if r =? 0 then 7 else r.

(** Calendar dates, as in [datetime.py]. *)
Definition is_leap (y : Z) : bool :=
  (y mod 4 =? 0) && (negb (y mod 100 =? 0) || (y mod 400 =? 0)).

Definition days_before_year (y : Z) : Z :=
  let y1 := y - 1 in y1 * 365 + y1 / 4 - y1 / 100 + y1 / 400.

Definition days_in_month (y m : Z) : Z :=
  if m =? 2 then (if is_leap y then 29 else 28)
  else if (m =? 4) || (m =? 6) || (m =? 9) || (m =? 11) then 30 else 31.

Fixpoint days_before_month_from (y : Z) (k : nat) (m : Z) : Z :=
  match k with
  | O => 0
  | S k' => days_in_month y (m - 1) + days_before_month_from y k' (m - 1)
  end.

Definition days_before_month (y m : Z) : Z :=
  days_before_month_from y (Z.to_nat (m - 1)) m.

Definition ymd2ord (y m d : Z) : Z :=
  days_before_year y + days_before_month y m + d.

(** [datetime.datetime(y, m, d, hh, mm, ss)] for a valid date *)
Definition mkdt (y m d hh mm ss : Z) : datetime :=
  Datetime (ymd2ord y m d) (Time hh mm ss 0).

(** ** Strings: [split], [lower], [startswith], [int], [strptime]

    A character is a code point below 256. *)

Fixpoint split (sep : ascii) (s : string) : list string :=
  match s with
  | EmptyString => [EmptyString]
  | String c s' =>
      if Ascii.eqb c sep then EmptyString :: split sep s'
      else match split sep s' with
           | p :: ps => String c p :: ps
           | [] => [String c EmptyString]
           end
  end.

(** [c.lower()]: the upper-case letters are 65 to 90 and, among the accented
    letters, 192 to 222 without the multiplication sign 215; the lower-case
    letter is 32 further. *)
Definition lower_ascii (c : ascii) : ascii :=
  let n := nat_of_ascii c in
  if ((Nat.leb 65 n && Nat.leb n 90)
      || (Nat.leb 192 n && Nat.leb n 222 && negb (Nat.eqb n 215)))%bool
  then ascii_of_nat (n + 32) else c.

Fixpoint lower (s : string) : string :=
  match s with
  | EmptyString => EmptyString
  | String c s' => String (lower_ascii c) (lower s')
  end.

(** [s.startswith(p)] *)
Fixpoint startswith (s p : string) : bool :=
  match p, s with
  | EmptyString, _ => true
  | String a p', String b s' => Ascii.eqb a b && startswith s' p'
  | String _ _, EmptyString => false
  end.

(** The decimal digits: [\d] of a [str] pattern and the digits of [int()]
    are the characters with a decimal value, which below 256 are [0] to
    [9]. *)
Definition is_digit (c : ascii) : bool :=
  let n := nat_of_ascii c in (Nat.leb 48 n && Nat.leb n 57)%bool.

Definition digit (c : ascii) : Z := Z.of_nat (nat_of_ascii c) - 48.

(** The white space that [int()] strips: 9 to 13 and 32 and, above 127, the
    Unicode white space, 133 and 160; the separators 28 to 31 are not
    stripped. *)
Definition is_space (c : ascii) : bool :=
  let n := nat_of_ascii c in
  (Nat.eqb n 32 || (Nat.leb 9 n && Nat.leb n 13) || Nat.eqb n 133 || Nat.eqb n 160)%bool.

Fixpoint lstrip (s : string) : string :=
  match s with
  | String c s' => if is_space c then lstrip s' else s
  | EmptyString => EmptyString
  end.

Definition strip (s : string) : string :=
  String.rev (lstrip (String.rev (lstrip s))).

(** Decimal digits, with single underscores allowed between digits. *)
Fixpoint digits_val (acc : Z) (after_digit : bool) (s : string) : option Z :=
  match s with
  | EmptyString => if after_digit then Some acc else None
  | String c r =>
      if is_digit c then digits_val (10 * acc + digit c) true r
      else if (Ascii.eqb c "_"%char && after_digit)%bool then digits_val acc false r
      else None
  end.

(** [int(s)] for a string [s] *)
Definition py_int (s : string) : result Z :=
  let body :=
    match strip s with
    | String "+"%char r => digits_val 0 false r
    | String "-"%char r => Z.opp <$> digits_val 0 false r
    | r => digits_val 0 false r
    end in
  match body with Some n => Ok n | None => Err ValueError end.

(** The directives of [strptime] are regular expressions whose alternatives
    are tried in order; each matcher lists the possible (value, rest) pairs in
    that order. *)
Definition re_digit (s : string) : list (Z * string) :=
  match s with
  | String a r => if is_digit a then [(digit a, r)] else []
  | _ => []
  end.

(** two characters, the first a digit between [lo] and [hi], the second a
    digit at most [hi2] *)
Definition re_two (lo hi hi2 : Z) (s : string) : list (Z * string) :=
  match s with
  | String a (String b r) =>
      if (is_digit a && (lo <=? digit a) && (digit a <=? hi)
          && is_digit b && (digit b <=? hi2))%bool
      then [(10 * digit a + digit b, r)] else []
  | _ => []
  end.

Definition re_nonzero (s : string) : list (Z * string) :=
  match s with
  | String a r => if (is_digit a && (1 <=? digit a))%bool then [(digit a, r)] else []
  | _ => []
  end.

Definition re_lit (c : ascii) (s : string) : list string :=
  match s with
  | String a r => if Ascii.eqb a c then [r] else []
  | _ => []
  end.

(** [%H] is [2[0-3]|[0-1]\d|\d] and [%M] is [[0-5]\d|\d]. *)
Definition re_H (s : string) : list (Z * string) :=
  re_two 2 2 3 s ++ re_two 0 1 9 s ++ re_digit s.

Definition re_M (s : string) : list (Z * string) :=
  re_two 0 5 9 s ++ re_digit s.

(** [%Y] is [\d\d\d\d], [%m] is [1[0-2]|0[1-9]|[1-9]] and [%d] is
    [3[01]|[12]\d|0[1-9]|[1-9]| [1-9]]. *)
Definition re_Y (s : string) : list (Z * string) :=
  '(a, r1) ← re_two 0 9 9 s; '(b, r2) ← re_two 0 9 9 r1; [(100 * a + b, r2)].

Definition re_zero_nonzero (s : string) : list (Z * string) :=
  match s with
  | String a (String b r) =>
      if (Ascii.eqb a "0"%char && is_digit b && (1 <=? digit b))%bool
      then [(digit b, r)] else []
  | _ => []
  end.

Definition re_m (s : string) : list (Z * string) :=
  re_two 1 1 2 s ++ re_zero_nonzero s ++ re_nonzero s.

Definition re_d (s : string) : list (Z * string) :=
  re_two 3 3 1 s ++ re_two 1 2 9 s ++ re_zero_nonzero s ++ re_nonzero s
  ++ (r ← re_lit " "%char s; re_nonzero r).

(** [datetime.datetime.strptime(s, '%H:%M')]: the first match in
    backtracking order must cover the whole string; the date defaults to
    1900-01-01. *)
Definition strptime_HM (s : string) : result datetime :=
  let ms := '(h, r1) ← re_H s; r2 ← re_lit ":"%char r1; '(m, r3) ← re_M r2;
            [(h, m, r3)] in
  match ms with
  | (h, m, EmptyString) :: _ => Ok (Datetime (ymd2ord 1900 1 1) (Time h m 0 0))
  | _ => Err ValueError
  end.

(** [datetime.datetime.strptime(s, '%Y-%m-%d')] *)
Definition strptime_Ymd (s : string) : result datetime :=
  let ms := '(y, r1) ← re_Y s; r2 ← re_lit "-"%char r1; '(m, r3) ← re_m r2;
            r4 ← re_lit "-"%char r3; '(d, r5) ← re_d r4; [(y, m, d, r5)] in
  match ms with
  | (y, m, d, EmptyString) :: _ =>
      if ((1 <=? y) && (d <=? days_in_month y m))%bool
      then Ok (Datetime (ymd2ord y m d) (Time 0 0 0 0))
      else Err ValueError
  | _ => Err ValueError
  end.

(** ** Jobs and the world *)

Inductive Unit : Type := Seconds | Minutes | Hours | Days | Weeks.

#[export] Instance Unit_eq_dec : EqDecision Unit.
Proof. solve_decision. Defined.

(** The fields of [Job.__init__]. [None], [()] and [[]] are the empty
    values; [unit_] is the attribute [unit]. *)
Record Job : Type := mkJob {
  interval : Z;
  job_func : option string;                     (* the bound callable, by name *)
  unit_ : option Unit;
  at_time : option time;
  between_times : option (datetime * datetime);
  run_days : list (gset Z);
  start_run : option datetime;
  last_run : option datetime;
  next_run : option datetime;
  period : option timedelta }.

(** [Job(interval)] *)
Definition Job_init (interval : Z) : Job :=
  mkJob interval None None None None [] None None None None.

Definition set_job_func v (j : Job) : Job :=
  mkJob (interval j) v (unit_ j) (at_time j) (between_times j) (run_days j)
        (start_run j) (last_run j) (next_run j) (period j).
Definition set_unit v (j : Job) : Job :=
  mkJob (interval j) (job_func j) v (at_time j) (between_times j) (run_days j)
        (start_run j) (last_run j) (next_run j) (period j).
Definition set_at_time v (j : Job) : Job :=
  mkJob (interval j) (job_func j) (unit_ j) v (between_times j) (run_days j)
        (start_run j) (last_run j) (next_run j) (period j).
Definition set_between_times v (j : Job) : Job :=
  mkJob (interval j) (job_func j) (unit_ j) (at_time j) v (run_days j)
        (start_run j) (last_run j) (next_run j) (period j).
Definition set_run_days v (j : Job) : Job :=
  mkJob (interval j) (job_func j) (unit_ j) (at_time j) (between_times j) v
        (start_run j) (last_run j) (next_run j) (period j).
Definition set_start_run v (j : Job) : Job :=
  mkJob (interval j) (job_func j) (unit_ j) (at_time j) (between_times j)
        (run_days j) v (last_run j) (next_run j) (period j).
Definition set_last_run v (j : Job) : Job :=
  mkJob (interval j) (job_func j) (unit_ j) (at_time j) (between_times j)
        (run_days j) (start_run j) v (next_run j) (period j).
Definition set_next_run v (j : Job) : Job :=
  mkJob (interval j) (job_func j) (unit_ j) (at_time j) (between_times j)
        (run_days j) (start_run j) (last_run j) v (period j).
Definition set_period v (j : Job) : Job :=
  mkJob (interval j) (job_func j) (unit_ j) (at_time j) (between_times j)
        (run_days j) (start_run j) (last_run j) (next_run j) v.

Abbreviation loc := nat (only parsing).

(** The world: the store of jobs, the registry of the scheduler, and the
    oracles. [ticks], [draws] and [calls] count what has been consumed. *)
Record World : Type := mkWorld {
  heap : gmap nat Job;
  next_loc : nat;                  (* the next fresh address *)
  jobs : list nat;                 (* Scheduler.jobs *)
  clock : nat -> datetime;         (* the k-th reading of now() *)
  ticks : nat;
  rng : nat -> nat;                (* the k-th draw of the random module *)
  draws : nat;
  outcome : nat -> option exn;     (* the k-th work-unit invocation raises? *)
  calls : list nat }.              (* the jobs whose work unit was invoked *)

Definition with_heap h (w : World) : World :=
  mkWorld h (next_loc w) (jobs w) (clock w) (ticks w) (rng w) (draws w)
          (outcome w) (calls w).
Definition with_jobs js (w : World) : World :=
  mkWorld (heap w) (next_loc w) js (clock w) (ticks w) (rng w) (draws w)
          (outcome w) (calls w).
Definition with_ticks n (w : World) : World :=
  mkWorld (heap w) (next_loc w) (jobs w) (clock w) n (rng w) (draws w)
          (outcome w) (calls w).
Definition with_draws n (w : World) : World :=
  mkWorld (heap w) (next_loc w) (jobs w) (clock w) (ticks w) (rng w) n
          (outcome w) (calls w).
Definition with_calls cs (w : World) : World :=
  mkWorld (heap w) (next_loc w) (jobs w) (clock w) (ticks w) (rng w) (draws w)
          (outcome w) cs.

(** ** The monad of scheduler code *)

Definition M (A : Type) : Type := World -> result A * World.

#[export] Instance M_ret : MRet M := fun A a w => (Ok a, w).
#[export] Instance M_bind : MBind M := fun A B k m w =>
  match m w with
  | (Ok a, w') => k a w'
  | (Err e, w') => (Err e, w')
  end.

Definition raise {A} (e : exn) : M A := fun w => (Err e, w).

Definition lift {A} (r : result A) : M A := fun w => (r, w).

(** [assert b] *)
Definition assert (b : bool) : M unit :=
  if b then mret () else raise AssertionError.

(** [datetime.datetime.now()] *)
Definition now : M datetime := fun w =>
  (Ok (clock w (ticks w)), with_ticks (S (ticks w)) w).

Definition draw : M nat := fun w =>
  (Ok (rng w (draws w)), with_draws (S (draws w)) w).

(** [random.randint(a, b)]: an empty range is a [ValueError]. *)
Definition randint (a b : Z) : M Z :=
  if b <? a then raise ValueError
  else r ← draw; mret (a + Z.of_nat r mod (b - a + 1)).

(** [random.sample(s, 1)[0]] for a set [s] of integers, listed in
    increasing order. *)
Definition sample1 (s : gset Z) : M Z :=
  let population := merge_sort Z.le (elements s) in
  match population with
  | [] => raise ValueError
  | x :: _ => r ← draw; mret (nth (r mod length population)%nat population x)
  end.

(** Attribute access through a reference. *)
Definition getj (l : loc) : M Job := fun w =>
  match heap w !! l with
  | Some j => (Ok j, w)
  | None => (Err DanglingRef, w)
  end.

Definition setj (l : loc) (f : Job -> Job) : M unit := fun w =>
  match heap w !! l with
  | Some j => (Ok (), with_heap (<[l := f j]> (heap w)) w)
  | None => (Err DanglingRef, w)
  end.

(** [self.jobs] of the scheduler *)
Definition get_jobs : M (list loc) := fun w => (Ok (jobs w), w).

(** The invocation of a bound work unit is recorded and its outcome is the
    environment's. *)
Definition invoke (self : loc) : M unit := fun w =>
  let w' := with_calls (calls w ++ [self]) w in
  match outcome w (length (calls w)) with
  | Some e => (Err e, w')
  | None => (Ok (), w')
  end.

(** [self.job_func()]: calling [None] is a [TypeError]. *)
Definition call_job_func (self : loc) : M unit :=
  j ← getj self;
  match job_func j with
  | None => raise TypeError
  | Some _ => invoke self
  end.

(** [time.sleep(d)] for an integer [d]: the delay is first converted to
    nanoseconds in 64 bits, an [OverflowError] beyond 9223372036 seconds in
    either direction; a negative delay is then a [ValueError]. *)
Definition sleep (d : Z) : M unit :=
  if 9223372036 <? Z.abs d then raise OverflowError
  else if d <? 0 then raise ValueError
  else mret ().

(** A list comprehension over a fallible function. *)
Fixpoint result_map {A B} (f : A -> result B) (l : list A) : result (list B) :=
  match l with
  | [] => Ok []
  | x :: l' => rbind (f x) (fun y => rbind (result_map f l') (fun ys => Ok (y :: ys)))
  end.

(** [l.remove(x)]: drops the first element equal to [x]. *)
Fixpoint list_remove {A} `{EqDecision A} (x : A) (l : list A) : result (list A) :=
  match l with
  | [] => Err ValueError
  | y :: l' =>
      if decide (y = x) then Ok l'
      else rbind (list_remove x l') (fun r => Ok (y :: r))
  end.

(** ** class Job *)

Module Job.

Definition WEEKDAYS : list (string * Z) :=
  [("sunday"%string, 0); ("monday"%string, 1); ("tuesday"%string, 2);
   ("wednesday"%string, 3); ("thursday"%string, 4); ("friday"%string, 5);
   ("saturday"%string, 6)].

(** [self.next_run < other.next_run]; ordering [None] is a [TypeError]. *)
Definition lt (self other : loc) : M bool :=
  a ← getj self;
  b ← getj other;
  match next_run a, next_run b with
  | Some x, Some y => mret (dt_lt x y)
  | _, _ => raise TypeError
  end.

(** The inner loops of [on]: the weekdays whose name starts with one of the
    [|]-separated parts of [day], lower-cased. *)
Definition add_matches (d : string) (day_or : gset Z) : gset Z :=
  foldl (fun acc ni => if startswith ni.1 (lower d) then {[ni.2]} ∪ acc else acc)
        day_or WEEKDAYS.

Definition day_or_of (day : string) : gset Z :=
  foldl (fun acc d => add_matches d acc) ∅ (split "|" day).

Definition weeknums_of (days : list string) : list (gset Z) :=
  foldl (fun weeknums day =>
           let day_or := day_or_of day in
           if bool_decide (day_or ≠ ∅) then weeknums ++ [day_or] else weeknums)
        [] days.

Definition on (self : loc) (days : list string) : M loc :=
  setj self (set_run_days (weeknums_of days));; mret self.

(** [at] *)
Definition at_ (self : loc) (time_str : string) : M loc :=
  j ← getj self;
  assert (bool_decide (unit_ j = Some Days));;
  parts ← lift (result_map py_int (split ":" time_str));
  match parts with
  | [hour; minute] =>
      assert ((0 <=? hour) && (hour <=? 23));;
      assert ((0 <=? minute) && (minute <=? 59));;
      setj self (set_at_time (Some (Time hour minute 0 0)));;
      mret self
  | _ => raise ValueError
  end.

Definition between (self : loc) (time_str : string) : M loc :=
  parts ← lift (result_map strptime_HM (split "-" time_str));
  match parts with
  | [start; end_] =>
      setj self (set_between_times (Some (start, end_)));; mret self
  | _ => raise ValueError
  end.

Definition starting (self : loc) (date_str : string) : M loc :=
  d ← lift (strptime_Ymd date_str);
  setj self (set_start_run (Some d));; mret self.

(** The [timedelta] of [self.interval] units of [self.unit] (line 297). *)
Definition unit_us (u : Unit) : Z :=
  match u with
  | Seconds => US_PER_SECOND
  | Minutes => 60 * US_PER_SECOND
  | Hours => 3600 * US_PER_SECOND
  | Days => US_PER_DAY
  | Weeks => 7 * US_PER_DAY
  end.

Definition timedelta_unit (u : Unit) (n : Z) : result timedelta :=
  timedelta_of_us (n * unit_us u).

(** The loop of lines 305-307: [todo] is what is left of [self.run_days],
    [run_days] the copy the groups are removed from. *)
Fixpoint remove_ran (iso : Z) (todo run_days : list (gset Z))
  : result (list (gset Z)) :=
  match todo with
  | [] => Ok run_days
  | day :: rest =>
      if bool_decide (iso ∈ day)
      then rbind (list_remove day run_days) (remove_ran iso rest)
      else remove_ran iso rest run_days
  end.

(** The loop of lines 310-311. *)
Fixpoint pick_days (run_days : list (gset Z)) (days : gset Z) : M (gset Z) :=
  match run_days with
  | [] => mret days
  | day :: rest => i ← sample1 day; pick_days rest ({[i]} ∪ days)
  end.

(** Lines 313-319; [delta_all] is not empty when [days] is not. *)
Definition closest_delta (days : gset Z) (starting : datetime) : Z :=
  if bool_decide (days = ∅) then 0
  else
    let delta_all :=
      merge_sort Z.le ((fun i => (i - isoweekday starting) mod 7) <$> elements days) in
    hd 0 delta_all.

(** Lines 321-327. *)
Definition no_second_run_today (j : Job) (u : Unit) (starting : datetime)
    (days_delta : Z) : Z :=
  if (days_delta =? 0)
     && match last_run j with
        | Some lr => toordinal lr =? toordinal starting
        | None => false
        end
  then match u with
       | Days => 7
       | Weeks => interval j * 7
       | _ => days_delta
       end
  else days_delta.

(** Lines 300-328, for a job with run days; the result is [self.next_run]. *)
Definition next_run_day (self : loc) (j : Job) (u : Unit) (starting : datetime)
  : M datetime :=
  let starting := match last_run j with Some lr => lr | None => starting end in
  run_days ← lift (match last_run j with
                   | Some lr => remove_ran (isoweekday lr) (run_days j) (run_days j)
                   | None => Ok (run_days j)
                   end);
  days ← pick_days run_days ∅;
  let days_delta :=
    no_second_run_today j u starting (closest_delta days starting) in
  nr ← lift (rbind (timedelta_days days_delta) (dt_add starting));
  setj self (set_next_run (Some nr));;
  mret nr.

(** Lines 330-335; the result is [self.at_time]. *)
Definition draw_at_time (self : loc) (j : Job) : M (option time) :=
  match between_times j with
  | Some (start, end_) =>
      width ← lift (dt_diff end_ start);
      k ← randint 0 (int_total_seconds width);
      t ← lift (rbind (timedelta_seconds k) (dt_add start));
      setj self (set_at_time (Some (timeof t)));;
      mret (Some (timeof t))
  | None => mret (at_time j)
  end.

(** Lines 336-345. *)
Definition apply_at_time (self : loc) (j : Job) (nr : datetime) (t : time)
  : M unit :=
  let nr := dt_replace nr (hour t) (minute t) (second t) in
  setj self (set_next_run (Some nr));;
  match last_run j, run_days j with
  | None, [] =>
      n ← now;
      if time_gt t (timeof n)
      then nr' ← lift (rbind (timedelta_days 1) (dt_sub nr));
           setj self (set_next_run (Some nr'))
      else mret ()
  | _, _ => mret ()
  end.

Definition _schedule_next_run (self : loc) : M unit :=
  j ← getj self;
  u ← match unit_ j with Some u => mret u | None => raise AssertionError end;
  starting ← match start_run j with Some s => mret s | None => now end;
  period ← lift (timedelta_unit u (interval j));
  setj self (set_period (Some period));;
  nr ← lift (dt_add starting period);
  setj self (set_next_run (Some nr));;
  nr ← match run_days j with
       | [] => mret nr
       | _ :: _ => next_run_day self j u starting
       end;
  at_time ← draw_at_time self j;
  match at_time with
  | Some t => apply_at_time self j nr t
  | None => mret ()
  end.

Definition do (self : loc) (job_func : string) : M loc :=
  setj self (set_job_func (Some job_func));;
  _schedule_next_run self;;
  mret self.

Definition should_run (self : loc) : M bool :=
  n ← now;
  j ← getj self;
  match next_run j with
  | Some nr => mret (dt_ge n nr)
  | None => raise TypeError
  end.

Definition run (self : loc) : M unit :=
  call_job_func self;;
  n ← now;
  setj self (set_last_run (Some n));;
  _schedule_next_run self.

(** The unit accessors; the singular ones require an interval of 1. *)
Definition seconds (self : loc) : M loc :=
  setj self (set_unit (Some Seconds));; mret self.

Definition second (self : loc) : M loc :=
  j ← getj self; assert (interval j =? 1);; seconds self.

Definition minutes (self : loc) : M loc :=
  setj self (set_unit (Some Minutes));; mret self.

Definition minute (self : loc) : M loc :=
  j ← getj self; assert (interval j =? 1);; minutes self.

Definition hours (self : loc) : M loc :=
  setj self (set_unit (Some Hours));; mret self.

Definition hour (self : loc) : M loc :=
  j ← getj self; assert (interval j =? 1);; hours self.

Definition days (self : loc) : M loc :=
  setj self (set_unit (Some Days));; mret self.

Definition day (self : loc) : M loc :=
  j ← getj self; assert (interval j =? 1);; days self.

Definition weeks (self : loc) : M loc :=
  setj self (set_unit (Some Weeks));; mret self.

Definition week (self : loc) : M loc :=
  j ← getj self; assert (interval j =? 1);; weeks self.

End Job.

(** ** class Scheduler *)

Module Scheduler.

(** The generator of line 59, consumed by [sorted]. *)
Fixpoint runnable_jobs (js : list loc) : M (list loc) :=
  match js with
  | [] => mret []
  | job :: rest =>
      b ← Job.should_run job;
      r ← runnable_jobs rest;
      mret (if b : bool then job :: r else r)
  end.

(** [sorted] is stable and only uses [<]: an element goes behind the later
    elements that are smaller than it. *)
Fixpoint insert_sorted (x : loc) (l : list loc) : M (list loc) :=
  match l with
  | [] => mret [x]
  | y :: l' =>
      b ← Job.lt y x;
      if b : bool then r ← insert_sorted x l'; mret (y :: r) else mret (x :: y :: l')
  end.

Fixpoint sorted (l : list loc) : M (list loc) :=
  match l with
  | [] => mret []
  | x :: l' => r ← sorted l'; insert_sorted x r
  end.

Fixpoint run_each (js : list loc) : M unit :=
  match js with
  | [] => mret ()
  | job :: rest => Job.run job;; run_each rest
  end.

Definition run_pending : M unit :=
  js ← get_jobs;
  runnable ← runnable_jobs js;
  ordered ← sorted runnable;
  run_each ordered.

Fixpoint run_each_delayed (delay_seconds : Z) (js : list loc) : M unit :=
  match js with
  | [] => mret ()
  | job :: rest =>
      Job.run job;; sleep delay_seconds;; run_each_delayed delay_seconds rest
  end.

Definition run_all (delay_seconds : Z) : M unit :=
  js ← get_jobs;
  run_each_delayed delay_seconds js.

Definition clear : M unit := fun w => (Ok (), with_jobs [] w).

Definition every (interval : Z) : M loc := fun w =>
  let job := next_loc w in
  (Ok job,
   mkWorld (<[job := Job_init interval]> (heap w)) (S job) (jobs w ++ [job])
           (clock w) (ticks w) (rng w) (draws w) (outcome w) (calls w)).

Definition on (days : list string) : M loc :=
  job ← every 1;
  setj job (set_unit (Some Days));;
  Job.on job days.

(** [min(self.jobs)]: every further element is compared with the smallest
    one so far. *)
Fixpoint min_from (best : loc) (rest : list loc) : M loc :=
  match rest with
  | [] => mret best
  | x :: rest' => b ← Job.lt x best; min_from (if b : bool then x else best) rest'
  end.

Definition next_run : M (option datetime) :=
  js ← get_jobs;
  match js with
  | [] => mret None
  | x :: rest => m ← min_from x rest; j ← getj m; mret (next_run j)
  end.

Definition idle_seconds : M float :=
  nr ← next_run;
  n ← now;
  match nr with
  | Some d => td ← lift (dt_diff d n); mret (total_seconds td)
  | None => raise TypeError
  end.

End Scheduler.

(** ** Auxiliary definitions of the statements *)

(** A world with an empty store and an empty registry. *)
Definition world0 (clk : nat -> datetime) (r : nat -> nat)
    (out : nat -> option exn) : World :=
  mkWorld ∅ 0 [] clk 0 r 0 out [].

(** [only_touches ls w w']: from [w] to [w'] only the jobs at [ls] may have
    changed or been invoked; the registry and the oracles are the same. *)
Definition only_touches (ls : list loc) (w w' : World) : Prop :=
  (forall l, l ∉ ls -> heap w' !! l = heap w !! l)
  /\ (forall l, is_Some (heap w !! l) -> is_Some (heap w' !! l))
  /\ (exists cs, calls w' = calls w ++ cs /\ forall c, c ∈ cs -> c ∈ ls)
  /\ jobs w' = jobs w
  /\ clock w' = clock w /\ rng w' = rng w /\ outcome w' = outcome w.

(** [frames ls m]: the computation [m] only touches the jobs at [ls]. *)
Definition frames {A} (ls : list loc) (m : M A) : Prop :=
  forall w, only_touches ls w (m w).2.

(** The weekday of a date in the numbering of [Job.WEEKDAYS]: 0 is Sunday
    and 6 is Saturday. *)
Definition weekday_id (d : datetime) : Z := toordinal d mod 7.

(** The plural unit accessor of a unit. *)
Definition plural (u : Unit) : loc -> M loc :=
  match u with
  | Seconds => Job.seconds
  | Minutes => Job.minutes
  | Hours => Job.hours
  | Days => Job.days
  | Weeks => Job.weeks
  end.

(** The singular unit accessor of a unit. *)
Definition singular (u : Unit) : loc -> M loc :=
  match u with
  | Seconds => Job.second
  | Minutes => Job.minute
  | Hours => Job.hour
  | Days => Job.day
  | Weeks => Job.week
  end.

(** Groups as [on] builds them: not empty, of weekdays 0 to 6. *)
Definition groups_valid (gs : list (gset Z)) : Prop :=
  forall g, g ∈ gs -> g ≠ ∅ /\ forall i, i ∈ g -> 0 <= i <= 6.

(** ** Scenarios

    Monday 2024-06-03 at 08:00 on a clock that stands still, draws that are
    all 0 and work units that return, unless said otherwise. *)

Definition monday_8 : datetime := mkdt 2024 6 3 8 0 0.

Definition steady (d : datetime) : nat -> datetime := fun _ => d.

Definition zeros : nat -> nat := fun _ => 0%nat.

Definition no_raise : nat -> option exn := fun _ => None.

Definition w_monday : World := world0 (steady monday_8) zeros no_raise.

(** The world after a computation, and the job at an address. *)
Definition after {A} (m : M A) (w : World) : World := (m w).2.

Definition job_at (w : World) (l : loc) : Job :=
  default (Job_init 0) (heap w !! l).

(** [every().days.starting("2024-06-02").do(job)], then a sweep. *)
Definition daily_started : M unit :=
  j ← Scheduler.every 1; j ← Job.days j; j ← Job.starting j "2024-06-02";
  Job.do j "job";; Scheduler.run_pending.

(** [every(2).days.at("23:59").do(job)] *)
Definition every_two_days : M loc :=
  j ← Scheduler.every 2; j ← Job.days j; j ← Job.at_ j "23:59"; Job.do j "job".

(** [every().weeks.on("mon")] *)
Definition weekly_on_monday : M loc :=
  j ← Scheduler.every 1; j ← Job.weeks j; Job.on j ["mon"%string].

(** [every().seconds.do(job)] *)
Definition every_second : M loc :=
  j ← Scheduler.every 1; j ← Job.seconds j; Job.do j "job".

(** A job every second and a job every hour, both registered at 08:00; the
    clock reads 08:00:30 from its third reading on. *)
Definition two_jobs : M loc :=
  j ← Scheduler.every 1; j ← Job.seconds j; Job.do j "tick";;
  j ← Scheduler.every 1; j ← Job.hours j; Job.do j "chime".

Definition clock_8_then_830 (k : nat) : datetime :=
  if (k <? 2)%nat then monday_8 else mkdt 2024 6 3 8 0 30.

Definition w_two_jobs : World :=
  after two_jobs (world0 clock_8_then_830 zeros no_raise).

(** A scheduled job and a job left without [do]. *)
Definition one_unconfigured : M loc :=
  j ← Scheduler.every 1; j ← Job.seconds j; Job.do j "tick";;
  Scheduler.every 10.

(** ** Registry-level notions *)

(** A job that has been scheduled: it is in the store with a [next_run]. *)
Definition configured (w : World) (l : loc) : Prop :=
  exists j nr, heap w !! l = Some j /\ next_run j = Some nr.

(** [not_after w a b]: the [next_run] of [a] is not after the one of [b]. *)
Definition not_after (w : World) (a b : loc) : Prop :=
  forall x y, next_run (job_at w a) = Some x -> next_run (job_at w b) = Some y ->
    dt_lt y x = false.

(** The jobs of [js] that are due when the check of the first one takes the
    [k]-th reading of the clock, the next one the following reading, and so
    on. *)
Fixpoint due_jobs (w : World) (k : nat) (js : list loc) : list loc :=
  match js with
  | [] => []
  | l :: rest =>
      match next_run (job_at w l) with
      | Some nr =>
          if dt_ge (clock w k) nr then l :: due_jobs w (S k) rest
          else due_jobs w (S k) rest
      | None => due_jobs w (S k) rest
      end
  end.

(** [keeps_calls m]: the computation [m] invokes no work unit. *)
Definition keeps_calls {A} (m : M A) : Prop :=
  forall w, calls (m w).2 = calls w.

(** [updates self j' w w']: from [w] to [w'] the job at [self] has become
    [j'] and nothing else has changed. *)
Definition updates (self : loc) (j' : Job) (w w' : World) : Prop :=
  heap w' !! self = Some j'
  /\ (forall l, l ≠ self -> heap w' !! l = heap w !! l)
  /\ next_loc w' = next_loc w /\ jobs w' = jobs w
  /\ clock w' = clock w /\ ticks w' = ticks w
  /\ rng w' = rng w /\ draws w' = draws w
  /\ outcome w' = outcome w /\ calls w' = calls w.

(** [ran js w w']: the runs of the jobs [js], one after the other from [w],
    all return, and they leave [w']. *)
Inductive ran : list loc -> World -> World -> Prop :=
  | ran_nil (w : World) : ran [] w w
  | ran_cons (x : loc) (js : list loc) (w w1 w2 : World) :
      Job.run x w = (Ok (), w1) -> ran js w1 w2 -> ran (x :: js) w w2.

(** The invocation that a run of [x] from [w] makes before anything can
    fail: none when the job has no work unit. *)
Definition invoked (w : World) (x : loc) : list loc :=
  match job_func (job_at w x) with Some _ => [x] | None => [] end.

(** [stops_at js w e w']: from [w] some first jobs of [js] run and return,
    the run of the next one raises [e] and leaves [w']; the invocations made
    are those of the jobs that returned and, if it got that far, the one of
    the job that raised. *)
Definition stops_at (js : list loc) (w : World) (e : exn) (w' : World) : Prop :=
  exists (i : nat) (x : loc) (wi : World),
    js !! i = Some x
    /\ ran (take i js) w wi
    /\ Job.run x wi = (Err e, w')
    /\ calls wi = calls w ++ take i js
    /\ calls w' = calls wi ++ invoked wi x.

(** ** The monad: equations *)

Lemma bind_eq {A B} (m : M A) (k : A -> M B) (w : World) :
  (m ≫= k) w = match m w with
               | (Ok a, w') => k a w'
               | (Err e, w') => (Err e, w')
               end.
Proof. reflexivity. Qed.

Lemma bind_ok {A B} (m : M A) (k : A -> M B) w a w' :
  m w = (Ok a, w') -> (m ≫= k) w = k a w'.
Proof. intros H. rewrite bind_eq, H. reflexivity. Qed.

Lemma bind_err {A B} (m : M A) (k : A -> M B) w e w' :
  m w = (Err e, w') -> (m ≫= k) w = (Err e, w').
Proof. intros H. rewrite bind_eq, H. reflexivity. Qed.

Lemma getj_ok l w j : heap w !! l = Some j -> getj l w = (Ok j, w).
Proof. intros H. unfold getj. rewrite H. reflexivity. Qed.

Lemma setj_ok l f w j :
  heap w !! l = Some j ->
  setj l f w = (Ok (), with_heap (<[l := f j]> (heap w)) w).
Proof. intros H. unfold setj. rewrite H. reflexivity. Qed.

(** ** C4: a raising work unit *)

(** C4. When the work unit of a job raises during [run()], the error reaches
    the caller as it is and the store is the one before the run: [last_run],
    [next_run] and every other field of the job are unchanged; only the
    invocation is recorded. *)
Theorem run_raise_keeps_job (w : World) (self : loc) (j : Job) (f : string) (e : exn) :
  heap w !! self = Some j ->
  job_func j = Some f ->
  outcome w (length (calls w)) = Some e ->
  exists w',
    Job.run self w = (Err e, w')
    /\ heap w' = heap w
    /\ heap w' !! self = Some j
    /\ jobs w' = jobs w /\ ticks w' = ticks w /\ draws w' = draws w
    /\ calls w' = calls w ++ [self].
Proof.
  intros Hj Hf He.
  eexists. split.
  - unfold Job.run, call_job_func.
    rewrite bind_eq, bind_eq, (getj_ok _ _ _ Hj), Hf.
    unfold invoke. rewrite He. reflexivity.
  - cbn. repeat split; try reflexivity. exact Hj.
Qed.

(** ** Arithmetic of dates *)

Lemma timedelta_of_us_inv us td :
  timedelta_of_us us = Ok td -> td_us td = us.
Proof.
  unfold timedelta_of_us, td_us, US_PER_DAY, US_PER_SECOND.
  destruct (Z.abs _ >? _); [discriminate|].
  intros [= <-]. cbn [td_days td_seconds td_microseconds].
  Z.div_mod_to_equations. lia.
Qed.

Lemma timedelta_of_us_ok us :
  - 999999999 * US_PER_DAY <= us < 1000000000 * US_PER_DAY ->
  exists td, timedelta_of_us us = Ok td /\ td_us td = us.
Proof.
  intros H. destruct (timedelta_of_us us) as [td|e] eqn:E.
  - exists td. split; [reflexivity|]. by apply timedelta_of_us_inv.
  - exfalso. revert E. unfold timedelta_of_us.
    destruct (Z.abs _ >? _) eqn:C; [|discriminate].
    intros _. apply Z.gtb_lt in C. unfold US_PER_DAY, US_PER_SECOND in *.
    Z.div_mod_to_equations. lia.
Qed.

Lemma time_us_range t : time_wf t -> 0 <= time_us t < US_PER_DAY.
Proof.
  unfold time_wf, time_us, US_PER_DAY, US_PER_SECOND. lia.
Qed.

Lemma time_of_us_time_us t : time_wf t -> time_of_us (time_us t) = t.
Proof.
  destruct t as [h m s u]. unfold time_wf, time_of_us, time_us, US_PER_SECOND.
  cbn [hour minute second microsecond]. intros H.
  f_equal; Z.div_mod_to_equations; lia.
Qed.

Lemma dt_add_days d n td :
  datetime_wf d ->
  td_us td = n * US_PER_DAY ->
  1 <= toordinal d + n <= MAXORDINAL ->
  dt_add d td = Ok (Datetime (toordinal d + n) (timeof d)).
Proof.
  intros [Hd Ht] Htd Hr. unfold dt_add, dt_us. rewrite Htd.
  pose proof (time_us_range _ Ht) as Hu.
  assert (E1 : (toordinal d * US_PER_DAY + time_us (timeof d) + n * US_PER_DAY)
               / US_PER_DAY = toordinal d + n).
  { unfold US_PER_DAY, US_PER_SECOND in *. Z.div_mod_to_equations. lia. }
  assert (E2 : (toordinal d * US_PER_DAY + time_us (timeof d) + n * US_PER_DAY)
               mod US_PER_DAY = time_us (timeof d)).
  { unfold US_PER_DAY, US_PER_SECOND in *. Z.div_mod_to_equations. lia. }
  cbv zeta. rewrite E1, E2, time_of_us_time_us by done.
  destruct (0 <? _) eqn:C1; [|apply Z.ltb_ge in C1; lia].
  destruct (_ <=? MAXORDINAL) eqn:C2; [|apply Z.leb_gt in C2; lia].
  reflexivity.
Qed.

Lemma timedelta_days_ok n :
  - 999999999 <= n <= 999999999 ->
  exists td, timedelta_days n = Ok td /\ td_us td = n * US_PER_DAY.
Proof.
  intros H. apply timedelta_of_us_ok. unfold US_PER_DAY, US_PER_SECOND. lia.
Qed.

(** ** Recomputation without run days *)

(** Lines 294-298 for a job without run days: the baseline is stored and
    the rest of the recomputation starts from it. The clock is read only
    when no start date is set. *)
Lemma schedule_baseline (w : World) (self : loc) (j : Job) u per base :
  heap w !! self = Some j ->
  unit_ j = Some u ->
  run_days j = [] ->
  Job.timedelta_unit u (interval j) = Ok per ->
  dt_add (default (clock w (ticks w)) (start_run j)) per = Ok base ->
  Job._schedule_next_run self w =
    (Job.draw_at_time self j ≫= fun at_time =>
       match at_time with
       | Some t => Job.apply_at_time self j base t
       | None => mret ()
       end)
      (with_heap (<[self := set_next_run (Some base) (set_period (Some per) j)]> (heap w))
         (match start_run j with Some _ => w | None => with_ticks (S (ticks w)) w end)).
Proof.
  intros Hj Hu Hd Hp Hb. unfold Job._schedule_next_run.
  rewrite (bind_ok _ _ _ _ _ (getj_ok _ _ _ Hj)), Hu, Hd.
  rewrite (bind_ok (mret u) _ w u w eq_refl).
  destruct (start_run j) as [s|] eqn:Hs; cbv [default from_option id] in Hb.
  - rewrite (bind_ok (mret s) _ w s w eq_refl).
    rewrite Hp, (bind_ok (lift (Ok per)) _ w per w eq_refl).
    rewrite (bind_ok _ _ _ _ _ (setj_ok _ _ _ _ Hj)).
    rewrite Hb.
    rewrite (bind_ok (lift (Ok base)) _ _ base _ eq_refl).
    rewrite (bind_ok _ _ _ _ _ (setj_ok _ _ _ _ (lookup_insert_eq _ _ _))).
    rewrite (bind_ok (mret base) _ _ base _ eq_refl).
    cbn [heap with_heap]. rewrite insert_insert_eq. reflexivity.
  - rewrite (bind_ok now _ w _ _ eq_refl).
    rewrite Hp, (bind_ok (lift (Ok per)) _ _ per _ eq_refl).
    rewrite (bind_ok _ _ _ _ _ (setj_ok self _ (with_ticks (S (ticks w)) w) j Hj)).
    rewrite Hb.
    rewrite (bind_ok (lift (Ok base)) _ _ base _ eq_refl).
    rewrite (bind_ok _ _ _ _ _ (setj_ok _ _ _ _ (lookup_insert_eq _ _ _))).
    rewrite (bind_ok (mret base) _ _ base _ eq_refl).
    cbn [heap with_heap]. rewrite insert_insert_eq. reflexivity.
Qed.

Lemma randint_empty (a b : Z) (w : World) :
  b < a -> randint a b w = (Err ValueError, w).
Proof.
  intros H. unfold randint. destruct (b <? a) eqn:C; [reflexivity|].
  apply Z.ltb_ge in C. lia.
Qed.

Lemma randint_ok (a b : Z) (w : World) :
  a <= b ->
  randint a b w
  = (Ok (a + Z.of_nat (rng w (draws w)) mod (b - a + 1)), with_draws (S (draws w)) w).
Proof.
  intros H. unfold randint. destruct (b <? a) eqn:C.
  - apply Z.ltb_lt in C. lia.
  - reflexivity.
Qed.

(** A window that ends before it starts: the draw is refused. *)
Lemma draw_at_time_negative (self : loc) (j : Job) (w : World) start end_ width :
  between_times j = Some (start, end_) ->
  dt_diff end_ start = Ok width ->
  int_total_seconds width < 0 ->
  Job.draw_at_time self j w = (Err ValueError, w).
Proof.
  intros Hb Hd Hn. unfold Job.draw_at_time. rewrite Hb, Hd.
  rewrite (bind_ok (lift (Ok width)) _ w width w eq_refl).
  rewrite (bind_err _ _ _ _ _ (randint_empty 0 _ w Hn)). reflexivity.
Qed.

(** ** C1: the groups left out after a run *)

Lemma list_remove_first {A} `{EqDecision A} (x : A) (pre s : list A) :
  (forall y, y ∈ pre -> y ≠ x) ->
  list_remove x (pre ++ x :: s) = Ok (pre ++ s).
Proof.
  induction pre as [|y pre IH]; intros Hne; cbn [list_remove app].
  - by rewrite decide_True.
  - rewrite decide_False by (apply Hne; left).
    rewrite IH; [reflexivity|]. intros z Hz. apply Hne. by right.
Qed.

(** The removal loop, started on the copy [pre ++ todo] whose part [pre] has
    been gone through already. *)
Lemma remove_ran_from (iso : Z) (todo pre : list (gset Z)) :
  (forall g, g ∈ pre -> iso ∉ g) ->
  Job.remove_ran iso todo (pre ++ todo)
  = Ok (pre ++ filter (fun g => iso ∉ g) todo).
Proof.
  revert pre. induction todo as [|day rest IH]; intros pre Hpre; cbn [Job.remove_ran].
  - rewrite filter_nil. reflexivity.
  - destruct (bool_decide (iso ∈ day)) eqn:E.
    + apply bool_decide_eq_true in E.
      rewrite list_remove_first.
      * cbn [rbind]. rewrite IH by done.
        rewrite filter_cons_False; [reflexivity|]. by intros ?.
      * intros g Hg ->. by apply (Hpre day).
    + apply bool_decide_eq_false in E.
      rewrite (cons_middle day pre rest), app_assoc, IH.
      * rewrite filter_cons_True by done. by rewrite <- app_assoc.
      * intros g [Hg|Hg%list_elem_of_singleton]%elem_of_app; [by apply Hpre|by subst].
Qed.

Lemma remove_ran_filter (iso : Z) (gs : list (gset Z)) :
  Job.remove_ran iso gs gs = Ok (filter (fun g => iso ∉ g) gs).
Proof. apply (remove_ran_from iso gs []). intros g Hg. by apply elem_of_nil in Hg. Qed.

Lemma isoweekday_weekday_id (d : datetime) :
  weekday_id d ≠ 0 -> isoweekday d = weekday_id d.
Proof.
  unfold isoweekday, weekday_id. intros H. cbv zeta.
  destruct (_ =? 0) eqn:E; [apply Z.eqb_eq in E; done|reflexivity].
Qed.

(** C1 (amended). When the last run fell on a Monday to Saturday, the loop
    removes from the working copy every group that contains the weekday of
    the last run, all of them and not at most one, and keeps the other groups
    in their order; the weekdays of this recomputation are picked from these
    remaining groups. *)
Theorem ran_groups_removed (lr : datetime) (gs : list (gset Z)) :
  weekday_id lr ≠ 0 ->
  Job.remove_ran (isoweekday lr) gs gs
  = Ok (filter (fun g => weekday_id lr ∉ g) gs)
  /\ forall (self : loc) (j : Job) (u : Unit) (starting : datetime) (w : World),
       last_run j = Some lr -> run_days j = gs ->
       Job.next_run_day self j u starting w
       = (Job.pick_days (filter (fun g => weekday_id lr ∉ g) gs) ∅ ≫= fun days =>
            let days_delta :=
              Job.no_second_run_today j u lr (Job.closest_delta days lr) in
            lift (rbind (timedelta_days days_delta) (dt_add lr)) ≫= fun nr =>
            setj self (set_next_run (Some nr)) ≫= fun _ => mret nr) w.
Proof.
  intros Hwd. rewrite (isoweekday_weekday_id lr Hwd). split.
  - apply remove_ran_filter.
  - intros self j u starting w Hl Hg. unfold Job.next_run_day.
    rewrite Hl, Hg, (isoweekday_weekday_id lr Hwd), remove_ran_filter.
    reflexivity.
Qed.

(** ** C6 and C8: weekday names and units *)

Lemma elem_of_add_matches_in (d : string) (L : list (string * Z)) (acc : gset Z) (i : Z) :
  i ∈ foldl (fun acc ni => if startswith ni.1 (lower d) then {[ni.2]} ∪ acc else acc) acc L
  <-> i ∈ acc \/ exists n, (n, i) ∈ L /\ startswith n (lower d) = true.
Proof.
  revert acc. induction L as [|[n k] L IH]; intros acc; cbn [foldl].
  - split; [by left|]. intros [H|(n & H & _)]; [done|]. by apply elem_of_nil in H.
  - rewrite IH. cbn [fst snd]. destruct (startswith n (lower d)) eqn:E.
    + rewrite elem_of_union, elem_of_singleton. split.
      * intros [[->|H]|(m & H & Hm)]; [right|by left|right].
        -- exists n. split; [left|done].
        -- exists m. split; [by right|done].
      * intros [H|(m & H & Hm)]; [left; by right|].
        apply elem_of_cons in H as [[= -> ->]|H]; [left; by left|].
        right. by exists m.
    + split.
      * intros [H|(m & H & Hm)]; [by left|]. right. exists m. split; [by right|done].
      * intros [H|(m & H & Hm)]; [by left|].
        apply elem_of_cons in H as [[= -> ->]|H]; [congruence|].
        right. by exists m.
Qed.

Lemma elem_of_day_or_from (ds : list string) (acc : gset Z) (i : Z) :
  i ∈ foldl (fun acc d => Job.add_matches d acc) acc ds
  <-> i ∈ acc \/ exists d n, d ∈ ds /\ (n, i) ∈ Job.WEEKDAYS
                            /\ startswith n (lower d) = true.
Proof.
  revert acc. induction ds as [|d ds IH]; intros acc; cbn [foldl].
  - split; [by left|]. intros [H|(d & n & H & _)]; [done|]. by apply elem_of_nil in H.
  - rewrite IH. unfold Job.add_matches. rewrite elem_of_add_matches_in. split.
    + intros [[H|(n & H & Hn)]|(d' & n & Hd & H & Hn)].
      * by left.
      * right. exists d, n. split; [left|done].
      * right. exists d', n. split; [by right|done].
    + intros [H|(d' & n & Hd & H & Hn)]; [left; by left|].
      apply elem_of_cons in Hd as [->|Hd].
      * left. right. by exists n.
      * right. by exists d', n.
Qed.

(** What a name stands for: the weekdays one of whose names starts with
    one of its parts, whatever their number. *)
Lemma elem_of_day_or_of (day : string) (i : Z) :
  i ∈ Job.day_or_of day
  <-> exists d n, d ∈ split "|" day /\ (n, i) ∈ Job.WEEKDAYS
                  /\ startswith n (lower d) = true.
Proof.
  unfold Job.day_or_of. rewrite elem_of_day_or_from. split; [|by right].
  intros [H|H]; [|done]. by apply not_elem_of_empty in H.
Qed.

Lemma weeknums_from (days : list string) (acc : list (gset Z)) :
  foldl (fun weeknums day =>
           let day_or := Job.day_or_of day in
           if bool_decide (day_or ≠ ∅) then weeknums ++ [day_or] else weeknums)
        acc days
  = acc ++ filter (fun g => g ≠ ∅) (Job.day_or_of <$> days).
Proof.
  revert acc. induction days as [|day days IH]; intros acc; cbn [foldl fmap list_fmap].
  - rewrite filter_nil. by rewrite app_nil_r.
  - rewrite IH. cbv zeta. destruct (bool_decide _) eqn:E.
    + apply bool_decide_eq_true in E. rewrite filter_cons_True by done.
      by rewrite <- app_assoc.
    + apply bool_decide_eq_false in E. by rewrite filter_cons_False.
Qed.

Lemma weeknums_of_filter (days : list string) :
  Job.weeknums_of days = filter (fun g => g ≠ ∅) (Job.day_or_of <$> days).
Proof. apply (weeknums_from days []). Qed.

Lemma Job_on_eq (w : World) (self : loc) (j : Job) (days : list string) :
  heap w !! self = Some j ->
  Job.on self days w
  = (Ok self, with_heap (<[self := set_run_days (Job.weeknums_of days) j]> (heap w)) w).
Proof.
  intros Hj. unfold Job.on.
  rewrite (bind_ok _ _ _ _ _ (setj_ok _ _ _ _ Hj)). reflexivity.
Qed.

(** C6 (amended). [on()] never fails on strings. Each argument stands for the
    weekdays one of whose names starts with one of its [|]-separated parts,
    lower-cased: a part that starts several names stands for all of them, a
    part that starts none for nothing; an argument that stands for no weekday
    is left out of [run_days] without an error. *)
Theorem on_accepts_any_string (w : World) (self : loc) (j : Job) (days : list string) :
  heap w !! self = Some j ->
  Job.on self days w
  = (Ok self, with_heap (<[self := set_run_days (Job.weeknums_of days) j]> (heap w)) w)
  /\ Job.weeknums_of days = filter (fun g => g ≠ ∅) (Job.day_or_of <$> days)
  /\ forall day i,
       i ∈ Job.day_or_of day
       <-> exists d n, d ∈ split "|" day /\ (n, i) ∈ Job.WEEKDAYS
                       /\ startswith n (lower d) = true.
Proof.
  intros Hj. split; [by apply Job_on_eq|].
  split; [apply weeknums_of_filter|apply elem_of_day_or_of].
Qed.

Lemma plural_eq (u : Unit) (w : World) (self : loc) (j : Job) :
  heap w !! self = Some j ->
  plural u self w = (Ok self, with_heap (<[self := set_unit (Some u) j]> (heap w)) w).
Proof.
  intros Hj.
  destruct u; unfold plural, Job.seconds, Job.minutes, Job.hours, Job.days, Job.weeks;
    rewrite (bind_ok _ _ _ _ _ (setj_ok _ _ _ _ Hj)); reflexivity.
Qed.

(** C8 (amended). The job made by the registry's [on()] has unit days when
    the call returns. [Job.on()] leaves the unit as it is and a unit accessor
    leaves [run_days] as it is, so run days can go with any of the five
    units. *)
Theorem on_and_units (w : World) (days : list string) :
  (exists w',
     Scheduler.on days w = (Ok (next_loc w), w')
     /\ heap w' !! next_loc w
        = Some (set_run_days (Job.weeknums_of days)
                  (set_unit (Some Days) (Job_init 1))))
  /\ (forall (self : loc) (j : Job), heap w !! self = Some j ->
        exists w',
          Job.on self days w = (Ok self, w')
          /\ heap w' !! self = Some (set_run_days (Job.weeknums_of days) j)
          /\ unit_ (set_run_days (Job.weeknums_of days) j) = unit_ j)
  /\ (forall (u : Unit) (self : loc) (j : Job), heap w !! self = Some j ->
        exists w',
          plural u self w = (Ok self, w')
          /\ heap w' !! self = Some (set_unit (Some u) j)
          /\ unit_ (set_unit (Some u) j) = Some u
          /\ run_days (set_unit (Some u) j) = run_days j).
Proof.
  split; [|split].
  - unfold Scheduler.on.
    rewrite (bind_ok (Scheduler.every 1) _ w _ _ eq_refl).
    erewrite (bind_ok (setj _ _)); [|apply setj_ok; apply lookup_insert_eq].
    erewrite Job_on_eq; [|apply lookup_insert_eq].
    eexists. split; [reflexivity|]. cbn [heap with_heap].
    apply lookup_insert_eq.
  - intros self j Hj. rewrite (Job_on_eq w self j days Hj).
    eexists. split; [reflexivity|]. split; [apply lookup_insert_eq|reflexivity].
  - intros u self j Hj. rewrite (plural_eq u w self j Hj).
    eexists. split; [reflexivity|]. split; [apply lookup_insert_eq|]. by split.
Qed.

(** ** C9: a window that ends before it starts *)

Lemma is_digit_range (c : ascii) : is_digit c = true -> 0 <= digit c <= 9.
Proof.
  unfold is_digit, digit. cbv zeta.
  intros [H1%Nat.leb_le H2%Nat.leb_le]%andb_prop. lia.
Qed.

Lemma re_digit_bound (s : string) v r : (v, r) ∈ re_digit s -> 0 <= v <= 9.
Proof.
  unfold re_digit. destruct s as [|a s]; [by intros ?%elem_of_nil|].
  destruct (is_digit a) eqn:E; [|by intros ?%elem_of_nil].
  intros [= -> ->]%list_elem_of_singleton. by apply is_digit_range.
Qed.

Lemma re_two_bound lo hi hi2 (s : string) v r :
  (v, r) ∈ re_two lo hi hi2 s -> 10 * lo <= v <= 10 * hi + hi2.
Proof.
  unfold re_two. destruct s as [|a [|b s]]; try by intros ?%elem_of_nil.
  destruct (_ && _)%bool eqn:E; [|by intros ?%elem_of_nil].
  apply andb_prop in E as [[[[Ha H1%Z.leb_le]%andb_prop H2%Z.leb_le]%andb_prop
                             Hb%is_digit_range]%andb_prop H3%Z.leb_le].
  intros [= -> ->]%list_elem_of_singleton. lia.
Qed.

Lemma re_H_bound (s : string) v r : (v, r) ∈ re_H s -> 0 <= v <= 23.
Proof.
  unfold re_H. rewrite !elem_of_app.
  intros [H%re_two_bound|[H%re_two_bound|H%re_digit_bound]]; lia.
Qed.

Lemma re_M_bound (s : string) v r : (v, r) ∈ re_M s -> 0 <= v <= 59.
Proof.
  unfold re_M. rewrite !elem_of_app.
  intros [H%re_two_bound|H%re_digit_bound]; lia.
Qed.

(** What [strptime(s, '%H:%M')] returns: a whole minute of 1900-01-01. *)
Lemma strptime_HM_inv (s : string) (d : datetime) :
  strptime_HM s = Ok d ->
  exists h m, d = Datetime (ymd2ord 1900 1 1) (Time h m 0 0)
              /\ 0 <= h <= 23 /\ 0 <= m <= 59.
Proof.
  unfold strptime_HM. cbv zeta.
  match goal with |- context [match ?l with _ => _ end] => set (ms := l) end.
  assert (Hms : forall h m r, (h, m, r) ∈ ms -> 0 <= h <= 23 /\ 0 <= m <= 59).
  { intros h m r. subst ms. rewrite list_elem_of_bind.
    intros ([h' r1] & Hin & Hh). apply re_H_bound in Hh.
    apply list_elem_of_bind in Hin as (r2 & Hin & _).
    apply list_elem_of_bind in Hin as ([m' r3] & Hin & Hm).
    apply re_M_bound in Hm.
    apply list_elem_of_singleton in Hin as [= -> -> ->]. done. }
  destruct ms as [|[[h m] [|c r]] ms']; try discriminate.
  intros [= <-]. exists h, m. split; [reflexivity|].
  apply (Hms h m EmptyString). left.
Qed.

Lemma strptime_pair_inv (s : string) (start end_ : datetime) :
  result_map strptime_HM (split "-" s) = Ok [start; end_] ->
  exists h1 m1 h2 m2,
    start = Datetime (ymd2ord 1900 1 1) (Time h1 m1 0 0)
    /\ end_ = Datetime (ymd2ord 1900 1 1) (Time h2 m2 0 0)
    /\ 0 <= h1 <= 23 /\ 0 <= m1 <= 59 /\ 0 <= h2 <= 23 /\ 0 <= m2 <= 59.
Proof.
  destruct (split "-" s) as [|a [|b [|c l]]]; cbn [result_map rbind]; try discriminate.
  - destruct (strptime_HM a); discriminate.
  - destruct (strptime_HM a) as [da|] eqn:Ea; [|discriminate].
    destruct (strptime_HM b) as [db|] eqn:Eb; [|discriminate].
    cbn [rbind]. intros [= <- <-].
    apply strptime_HM_inv in Ea as (h1 & m1 & -> & ? & ?).
    apply strptime_HM_inv in Eb as (h2 & m2 & -> & ? & ?).
    by exists h1, m1, h2, m2.
  - destruct (strptime_HM a); [|discriminate].
    destruct (strptime_HM b); [|discriminate].
    destruct (strptime_HM c); [|discriminate].
    cbn [rbind]. destruct (result_map strptime_HM l); discriminate.
Qed.

(** Two whole minutes of one day in the wrong order are at least a minute
    apart: the bound handed to [random.randint] is negative. *)
Lemma reversed_window_negative h1 m1 h2 m2 o :
  0 <= h1 <= 23 -> 0 <= m1 <= 59 -> 0 <= h2 <= 23 -> 0 <= m2 <= 59 ->
  dt_lt (Datetime o (Time h2 m2 0 0)) (Datetime o (Time h1 m1 0 0)) = true ->
  exists width,
    dt_diff (Datetime o (Time h2 m2 0 0)) (Datetime o (Time h1 m1 0 0)) = Ok width
    /\ int_total_seconds width < 0.
Proof.
  intros Hh1 Hm1 Hh2 Hm2 Hlt.
  assert (Hord : (h2 * 60 + m2) + 1 <= h1 * 60 + m1).
  { revert Hlt. unfold dt_lt, dt_cmp, time_cmp, lex.
    cbn [toordinal timeof hour minute second microsecond].
    rewrite Z.compare_refl.
    destruct (h2 ?= h1) eqn:E1.
    - apply Z.compare_eq in E1.
      destruct (m2 ?= m1) eqn:E2; cbn; try discriminate.
      intros _. change (m2 < m1) in E2. lia.
    - intros _. change (h2 < h1) in E1. lia.
    - discriminate. }
  unfold dt_diff, dt_us, time_us.
  cbn [toordinal timeof hour minute second microsecond].
  destruct (timedelta_of_us_ok
              (o * US_PER_DAY + (((h2 * 60 + m2) * 60 + 0) * US_PER_SECOND + 0)
               - (o * US_PER_DAY + (((h1 * 60 + m1) * 60 + 0) * US_PER_SECOND + 0))))
    as (width & Hw & Hus).
  { unfold US_PER_DAY, US_PER_SECOND. lia. }
  exists width. split; [exact Hw|].
  unfold int_total_seconds. rewrite Hus. unfold US_PER_DAY, US_PER_SECOND.
  Z.to_euclidean_division_equations. lia.
Qed.

Lemma bind_is_Err {A B} (m : M A) (k : A -> M B) (w : World) :
  (forall a w', m w = (Ok a, w') -> is_Err (k a w').1) ->
  is_Err ((m ≫= k) w).1.
Proof.
  intros H. rewrite bind_eq. destruct (m w) as [[a|e] w'].
  - by apply H.
  - exact I.
Qed.

Lemma getj_inv (l : loc) (w w' : World) (j : Job) :
  getj l w = (Ok j, w') -> heap w !! l = Some j /\ w' = w.
Proof.
  unfold getj. destruct (heap w !! l); [|discriminate]. by intros [= -> ->].
Qed.

Lemma setj_inv (l : loc) (f : Job -> Job) (w w' : World) (a : ()) :
  setj l f w = (Ok a, w') ->
  exists j, heap w !! l = Some j /\ w' = with_heap (<[l := f j]> (heap w)) w.
Proof.
  unfold setj. destruct (heap w !! l) as [j|]; [|discriminate].
  intros [= _ <-]. by exists j.
Qed.

Lemma Job_between_eq (w : World) (self : loc) (j : Job) (s : string) start end_ :
  heap w !! self = Some j ->
  result_map strptime_HM (split "-" s) = Ok [start; end_] ->
  Job.between self s w
  = (Ok self,
     with_heap (<[self := set_between_times (Some (start, end_)) j]> (heap w)) w).
Proof.
  intros Hj Hs. unfold Job.between. rewrite Hs.
  rewrite (bind_ok (lift (Ok _)) _ w _ w eq_refl).
  rewrite (bind_ok _ _ _ _ _ (setj_ok _ _ _ _ Hj)). reflexivity.
Qed.

(** Recomputation cannot get past a window whose draw is refused. *)
Lemma schedule_negative_window (self : loc) (w : World) start end_ width :
  (forall j, heap w !! self = Some j -> between_times j = Some (start, end_)) ->
  dt_diff end_ start = Ok width ->
  int_total_seconds width < 0 ->
  is_Err (Job._schedule_next_run self w).1.
Proof.
  intros Hb Hd Hn. unfold Job._schedule_next_run.
  apply bind_is_Err. intros j w1 [Hj ->]%getj_inv.
  specialize (Hb j Hj).
  do 7 (apply bind_is_Err; intros).
  rewrite bind_eq, (draw_at_time_negative self j _ start end_ width Hb Hd Hn).
  exact I.
Qed.

(** Whatever holds a reversed window cannot be rescheduled. *)
Lemma reversed_window_later (self : loc) (s e : datetime) (wd : timedelta)
    (w2 : World) (j2 : Job) :
  dt_diff e s = Ok wd ->
  int_total_seconds wd < 0 ->
  heap w2 !! self = Some j2 ->
  between_times j2 = Some (s, e) ->
  (forall w0, Job.draw_at_time self j2 w0 = (Err ValueError, w0))
  /\ is_Err (Job._schedule_next_run self w2).1
  /\ (forall f, is_Err (Job.do self f w2).1)
  /\ is_Err (Job.run self w2).1
  /\ (forall u per base,
        unit_ j2 = Some u -> run_days j2 = [] ->
        Job.timedelta_unit u (interval j2) = Ok per ->
        dt_add (default (clock w2 (ticks w2)) (start_run j2)) per = Ok base ->
        (Job._schedule_next_run self w2).1 = Err ValueError).
Proof.
  intros Hd Hn Hj2 Hb2.
  split; [|split; [|split; [|split]]].
  - intros w0. eapply draw_at_time_negative; [exact Hb2|exact Hd|exact Hn].
  - eapply schedule_negative_window; [|exact Hd|exact Hn].
    intros j' Hj'. rewrite Hj2 in Hj'. by injection Hj' as <-.
  - intros f. unfold Job.do.
    apply bind_is_Err. intros a w3 (j' & Hj' & ->)%setj_inv.
    apply bind_is_Err. intros a' w4 Hrun.
    assert (H : is_Err (Job._schedule_next_run self
                  (with_heap (<[self := set_job_func (Some f) j']> (heap w2)) w2)).1).
    { eapply schedule_negative_window; [|exact Hd|exact Hn].
      intros j3. cbn [heap with_heap]. rewrite lookup_insert_eq. intros [= <-].
      rewrite Hj2 in Hj'. by injection Hj' as <-. }
    rewrite Hrun in H. destruct H.
  - unfold Job.run.
    apply bind_is_Err. intros a w3 Hcall.
    apply bind_is_Err. intros n w4 [= <- <-].
    apply bind_is_Err. intros a' w5 (j' & Hj' & ->)%setj_inv.
    eapply schedule_negative_window; [|exact Hd|exact Hn].
    intros j3. cbn [heap with_heap]. rewrite lookup_insert_eq. intros [= <-].
    cbn [between_times set_last_run].
    assert (Hh : heap w3 = heap w2).
    { revert Hcall. unfold call_job_func.
      rewrite (bind_ok _ _ _ _ _ (getj_ok _ _ _ Hj2)).
      destruct (job_func j2); [|discriminate].
      unfold invoke. destruct (outcome w2 _); [discriminate|]. by intros [= _ <-]. }
    cbn [heap with_ticks] in Hj'. rewrite Hh, Hj2 in Hj'. by injection Hj' as <-.
  - intros u per base Hu Hrd Hp Hbase.
    rewrite (schedule_baseline w2 self j2 u per base Hj2 Hu Hrd Hp Hbase).
    rewrite bind_eq.
    by erewrite draw_at_time_negative; [|exact Hb2|exact Hd|exact Hn].
Qed.

(** C9. A window string that parses and whose end time is before its start
    time is accepted by [between()]: the call returns the job, whose
    [between_times] is now the pair of parsed times, and changes nothing
    else. From the world it leaves, and from any later world in which the job
    still holds the pair, the draw of lines 330-335 is refused with a
    [ValueError], so that every recomputation fails, inside [do()] and inside
    [run()]; when the job has a unit, no run days and a baseline in range,
    the error of the recomputation and of [do()] is this [ValueError]. *)
Theorem between_reversed_window (w : World) (self : loc) (j : Job) (s : string)
    (start end_ : datetime) :
  heap w !! self = Some j ->
  result_map strptime_HM (split "-" s) = Ok [start; end_] ->
  dt_lt end_ start = true ->
  exists (w1 : World) (j1 : Job),
    Job.between self s w = (Ok self, w1)
    /\ updates self j1 w w1
    /\ between_times j1 = Some (start, end_)
    /\ j1 = mkJob (interval j) (job_func j) (unit_ j) (at_time j) (Some (start, end_))
              (run_days j) (start_run j) (last_run j) (next_run j) (period j)
    /\ is_Err (Job._schedule_next_run self w1).1
    /\ (forall f, is_Err (Job.do self f w1).1)
    /\ is_Err (Job.run self w1).1
    /\ (forall u per base,
          unit_ j = Some u -> run_days j = [] ->
          Job.timedelta_unit u (interval j) = Ok per ->
          dt_add (default (clock w (ticks w)) (start_run j)) per = Ok base ->
          (Job._schedule_next_run self w1).1 = Err ValueError
          /\ forall f, (Job.do self f w1).1 = Err ValueError)
    /\ forall (w2 : World) (j2 : Job),
         heap w2 !! self = Some j2 ->
         between_times j2 = Some (start, end_) ->
         (forall w0, Job.draw_at_time self j2 w0 = (Err ValueError, w0))
         /\ is_Err (Job._schedule_next_run self w2).1
         /\ (forall f, is_Err (Job.do self f w2).1)
         /\ is_Err (Job.run self w2).1
         /\ (forall u per base,
               unit_ j2 = Some u -> run_days j2 = [] ->
               Job.timedelta_unit u (interval j2) = Ok per ->
               dt_add (default (clock w2 (ticks w2)) (start_run j2)) per = Ok base ->
               (Job._schedule_next_run self w2).1 = Err ValueError).
Proof.
  intros Hj Hs Hlt.
  destruct (strptime_pair_inv s start end_ Hs)
    as (h1 & m1 & h2 & m2 & -> & -> & Hh1 & Hm1 & Hh2 & Hm2).
  destruct (reversed_window_negative h1 m1 h2 m2 _ Hh1 Hm1 Hh2 Hm2 Hlt)
    as (width & Hd & Hn).
  set (start := Datetime _ (Time h1 m1 0 0)) in *.
  set (end_ := Datetime _ (Time h2 m2 0 0)) in *.
  set (j1 := set_between_times (Some (start, end_)) j).
  set (w1 := with_heap (<[self := j1]> (heap w)) w).
  assert (Hj1 : heap w1 !! self = Some j1) by apply lookup_insert_eq.
  destruct (reversed_window_later self start end_ width w1 j1 Hd Hn Hj1 eq_refl)
    as (_ & Hsched & Hdo & Hrun & Hval).
  exists w1, j1. split; [by apply Job_between_eq|].
  split.
  { split; [exact Hj1|]. split; [|done].
    intros l Hl. cbn [heap with_heap w1]. by rewrite lookup_insert_ne. }
  split; [reflexivity|]. split; [reflexivity|].
  split; [exact Hsched|]. split; [exact Hdo|]. split; [exact Hrun|]. split.
  - intros u per base Hu Hrd Hp Hbase.
    split; [by apply (Hval u per base)|].
    intros f. unfold Job.do.
    rewrite (bind_ok _ _ _ _ _ (setj_ok _ _ _ _ Hj1)).
    set (j3 := set_job_func (Some f) j1).
    set (w3 := with_heap _ w1).
    assert (Hj3 : heap w3 !! self = Some j3) by apply lookup_insert_eq.
    destruct (reversed_window_later self start end_ width w3 j3 Hd Hn Hj3 eq_refl)
      as (_ & _ & _ & _ & Hval3).
    specialize (Hval3 u per base Hu Hrd Hp Hbase).
    rewrite bind_eq. destruct (Job._schedule_next_run self w3) as [[a|e] w4].
    + discriminate.
    + cbn [fst] in *. by injection Hval3 as ->.
  - intros w2 j2 Hj2 Hb2.
    exact (reversed_window_later self start end_ width w2 j2 Hd Hn Hj2 Hb2).
Qed.

(** ** Frames: what a computation can touch *)

Lemma only_touches_refl (ls : list loc) (w : World) : only_touches ls w w.
Proof.
  repeat split; try done. exists []. split; [by rewrite app_nil_r|].
  intros c Hc. by apply elem_of_nil in Hc.
Qed.

Lemma only_touches_trans (ls : list loc) (w1 w2 w3 : World) :
  only_touches ls w1 w2 -> only_touches ls w2 w3 -> only_touches ls w1 w3.
Proof.
  intros (H1 & A1 & (cs1 & C1 & I1) & J1 & K1 & R1 & O1)
         (H2 & A2 & (cs2 & C2 & I2) & J2 & K2 & R2 & O2).
  repeat split; try congruence.
  - intros l Hl. rewrite H2, H1; done.
  - intros l Hl. by apply A2, A1.
  - exists (cs1 ++ cs2). split; [by rewrite C2, C1, app_assoc|].
    intros c [Hc|Hc]%elem_of_app; [by apply I1|by apply I2].
Qed.

Lemma only_touches_mono (ls ls' : list loc) (w w' : World) :
  (forall l, l ∈ ls -> l ∈ ls') ->
  only_touches ls w w' -> only_touches ls' w w'.
Proof.
  intros Hsub (H1 & A1 & (cs1 & C1 & I1) & J1 & K1 & R1 & O1).
  repeat split; try done.
  - intros l Hl. apply H1. intros Hin. by apply Hl, Hsub.
  - exists cs1. split; [done|]. intros c Hc. by apply Hsub, I1.
Qed.

Lemma frames_mono {A} (ls ls' : list loc) (m : M A) :
  (forall l, l ∈ ls -> l ∈ ls') -> frames ls m -> frames ls' m.
Proof. intros Hsub H w. by apply (only_touches_mono ls ls'). Qed.

Lemma frames_ret {A} (ls : list loc) (a : A) : frames ls (mret a).
Proof. intros w. apply only_touches_refl. Qed.

Lemma frames_raise {A} (ls : list loc) (e : exn) : frames ls (raise e : M A).
Proof. intros w. apply only_touches_refl. Qed.

Lemma frames_lift {A} (ls : list loc) (r : result A) : frames ls (lift r).
Proof. intros w. apply only_touches_refl. Qed.

Lemma frames_bind {A B} (ls : list loc) (m : M A) (k : A -> M B) :
  frames ls m -> (forall a, frames ls (k a)) -> frames ls (m ≫= k).
Proof.
  intros Hm Hk w. rewrite bind_eq. specialize (Hm w).
  destruct (m w) as [[a|e] w1]; [|exact Hm].
  eapply only_touches_trans; [exact Hm|apply Hk].
Qed.

Lemma frames_getj (ls : list loc) (l : loc) : frames ls (getj l).
Proof. intros w. unfold getj. destruct (heap w !! l); apply only_touches_refl. Qed.

Lemma frames_setj (ls : list loc) (l : loc) (f : Job -> Job) :
  l ∈ ls -> frames ls (setj l f).
Proof.
  intros Hl w. unfold setj. destruct (heap w !! l) as [j|] eqn:E;
    [|apply only_touches_refl].
  repeat split; try done.
  - intros l' Hl'. cbn [snd heap with_heap].
    apply lookup_insert_ne. by intros ->.
  - intros l' Hl'. cbn [snd heap with_heap].
    destruct (decide (l = l')) as [->|Hne].
    + rewrite lookup_insert_eq. by eexists.
    + by rewrite lookup_insert_ne.
  - exists []. split; [by rewrite app_nil_r|]. by intros c ?%elem_of_nil.
Qed.

Lemma frames_now (ls : list loc) : frames ls now.
Proof.
  intros w. repeat split; try done.
  exists []. split; [by rewrite app_nil_r|]. by intros c ?%elem_of_nil.
Qed.

Lemma frames_draw (ls : list loc) : frames ls draw.
Proof.
  intros w. repeat split; try done.
  exists []. split; [by rewrite app_nil_r|]. by intros c ?%elem_of_nil.
Qed.

Lemma frames_invoke (ls : list loc) (self : loc) : self ∈ ls -> frames ls (invoke self).
Proof.
  intros Hl w. unfold invoke. cbv zeta.
  assert (H : only_touches ls w (with_calls (calls w ++ [self]) w)).
  { repeat split; try done. exists [self]. split; [done|].
    by intros c ->%list_elem_of_singleton. }
  by destruct (outcome w _).
Qed.

Lemma frames_assert (ls : list loc) (b : bool) : frames ls (assert b).
Proof. destruct b; [apply frames_ret|apply frames_raise]. Qed.

Lemma frames_sleep (ls : list loc) (d : Z) : frames ls (sleep d).
Proof.
  unfold sleep. destruct (_ <? Z.abs d); [apply frames_raise|].
  destruct (d <? 0); [apply frames_raise|apply frames_ret].
Qed.

Lemma frames_randint (ls : list loc) (a b : Z) : frames ls (randint a b).
Proof.
  unfold randint. destruct (b <? a); [apply frames_raise|].
  apply frames_bind; [apply frames_draw|]. intros r. apply frames_ret.
Qed.

Lemma frames_sample1 (ls : list loc) (s : gset Z) : frames ls (sample1 s).
Proof.
  unfold sample1. cbv zeta. destruct (merge_sort _ _); [apply frames_raise|].
  apply frames_bind; [apply frames_draw|]. intros r. apply frames_ret.
Qed.

Create HintDb frames.
#[export] Hint Resolve frames_ret frames_raise frames_lift frames_getj frames_now
  frames_draw frames_assert frames_sleep frames_randint frames_sample1 : frames.

(** One step of a frame proof: split a bind, case on a scrutinee, or close
    the goal with a primitive. *)
Ltac frames_step :=
  match goal with
  | |- frames _ (_ ≫= _) => apply frames_bind; [|intros ?]
  | |- frames _ (setj _ _) => apply frames_setj; set_solver
  | |- frames _ (invoke _) => apply frames_invoke; set_solver
  | |- frames _ (match ?x with _ => _ end) => destruct x
  | |- frames _ (if ?b then _ else _) => destruct b
  | |- frames _ _ => solve [auto with frames]
  end.

Lemma frames_pick_days (ls : list loc) (run_days : list (gset Z)) (days : gset Z) :
  frames ls (Job.pick_days run_days days).
Proof.
  revert days. induction run_days as [|day rest IH]; intros days; cbn [Job.pick_days].
  - apply frames_ret.
  - apply frames_bind; [apply frames_sample1|]. intros i. apply IH.
Qed.

Lemma frames_schedule_next_run (self : loc) : frames [self] (Job._schedule_next_run self).
Proof.
  unfold Job._schedule_next_run, Job.next_run_day, Job.draw_at_time,
    Job.apply_at_time.
  repeat first [apply frames_pick_days | frames_step].
Qed.

Lemma frames_run (self : loc) : frames [self] (Job.run self).
Proof.
  unfold Job.run, call_job_func.
  repeat first [apply frames_schedule_next_run | frames_step].
Qed.

Lemma frames_should_run (ls : list loc) (self : loc) : frames ls (Job.should_run self).
Proof. unfold Job.should_run. repeat frames_step. Qed.

Lemma frames_lt (ls : list loc) (a b : loc) : frames ls (Job.lt a b).
Proof. unfold Job.lt. repeat frames_step. Qed.

Lemma frames_runnable_jobs (ls : list loc) (js : list loc) :
  frames ls (Scheduler.runnable_jobs js).
Proof.
  induction js as [|job rest IH]; cbn [Scheduler.runnable_jobs].
  - apply frames_ret.
  - repeat first [apply frames_should_run | apply IH | frames_step].
Qed.

Lemma frames_insert_sorted (ls : list loc) (x : loc) (l : list loc) :
  frames ls (Scheduler.insert_sorted x l).
Proof.
  induction l as [|y l IH]; cbn [Scheduler.insert_sorted].
  - apply frames_ret.
  - repeat first [apply frames_lt | apply IH | frames_step].
Qed.

Lemma frames_sorted (ls : list loc) (l : list loc) : frames ls (Scheduler.sorted l).
Proof.
  induction l as [|x l IH]; cbn [Scheduler.sorted].
  - apply frames_ret.
  - repeat first [apply frames_insert_sorted | apply IH | frames_step].
Qed.

Lemma frames_run_each (js : list loc) : frames js (Scheduler.run_each js).
Proof.
  induction js as [|job rest IH]; cbn [Scheduler.run_each].
  - apply frames_ret.
  - apply frames_bind.
    + apply (frames_mono [job]); [|apply frames_run].
      intros l ->%list_elem_of_singleton. left.
    + intros _. apply (frames_mono rest); [|apply IH]. intros l Hl. by right.
Qed.

(** ** C7: the sweep and the jobs that are not due *)

Lemma should_run_inv (self : loc) (w w' : World) (b : bool) :
  Job.should_run self w = (Ok b, w') ->
  w' = with_ticks (S (ticks w)) w
  /\ exists j nr, heap w !! self = Some j /\ next_run j = Some nr
                  /\ b = dt_ge (clock w (ticks w)) nr.
Proof.
  unfold Job.should_run. rewrite (bind_ok now _ w _ _ eq_refl).
  rewrite bind_eq. unfold getj. cbn [heap with_ticks].
  destruct (heap w !! self) as [j|]; [|discriminate].
  destruct (next_run j) as [nr|] eqn:E; [|discriminate].
  intros [= <- <-]. split; [reflexivity|]. by exists j, nr.
Qed.

(** A job let through by the generator was due at the reading of its check:
    the check of the job at position [i] takes the [i]-th reading from the
    start of the sweep. *)
Lemma runnable_jobs_due (js : list loc) (w w' : World) (rs : list loc) (x : loc) :
  Scheduler.runnable_jobs js w = (Ok rs, w') ->
  x ∈ rs ->
  exists (i : nat) j nr,
    js !! i = Some x /\ heap w !! x = Some j /\ next_run j = Some nr
    /\ dt_ge (clock w (ticks w + i)%nat) nr = true.
Proof.
  revert w w' rs. induction js as [|job rest IH]; intros w w' rs;
    cbn [Scheduler.runnable_jobs].
  - intros [= <- <-] Hx. by apply elem_of_nil in Hx.
  - rewrite bind_eq. destruct (Job.should_run job w) as [[b|e] w1] eqn:Es; [|discriminate].
    apply should_run_inv in Es as (-> & j & nr & Hj & Hnr & ->).
    rewrite bind_eq.
    destruct (Scheduler.runnable_jobs rest _) as [[r|e] w2] eqn:Er; [|discriminate].
    intros [= <- <-] Hx.
    assert (Hrest : x ∈ r ->
              exists (i : nat) j nr,
                (job :: rest) !! i = Some x /\ heap w !! x = Some j
                /\ next_run j = Some nr
                /\ dt_ge (clock w (ticks w + i)%nat) nr = true).
    { intros Hin. destruct (IH _ _ _ Er Hin) as (i & j' & nr' & Hi & Hj' & Hn' & Hd).
      exists (S i), j', nr'. cbn [heap with_ticks clock ticks] in *.
      repeat split; try done. by rewrite <- Nat.add_succ_comm. }
    destruct (dt_ge (clock w (ticks w)) nr) eqn:Ed; [|by apply Hrest].
    apply elem_of_cons in Hx as [->|Hx]; [|by apply Hrest].
    exists 0%nat, j, nr. rewrite Nat.add_0_r. by repeat split.
Qed.

Lemma insert_sorted_elem (x : loc) (l : list loc) (w w' : World) (r : list loc) (y : loc) :
  Scheduler.insert_sorted x l w = (Ok r, w') -> y ∈ r -> y = x \/ y ∈ l.
Proof.
  revert w w' r. induction l as [|z l IH]; intros w w' r; cbn [Scheduler.insert_sorted].
  - intros [= <- <-] ->%list_elem_of_singleton. by left.
  - rewrite bind_eq. destruct (Job.lt z x w) as [[b|e] w1]; [|discriminate].
    destruct b.
    + rewrite bind_eq.
      destruct (Scheduler.insert_sorted x l w1) as [[r'|e] w2] eqn:E; [|discriminate].
      intros [= <- <-] [->|Hy]%elem_of_cons.
      * right. left.
      * destruct (IH _ _ _ E Hy) as [->|H]; [by left|right; by right].
    + intros [= <- <-] [->|Hy]%elem_of_cons; [by left|by right].
Qed.

Lemma sorted_elem (l : list loc) (w w' : World) (r : list loc) (y : loc) :
  Scheduler.sorted l w = (Ok r, w') -> y ∈ r -> y ∈ l.
Proof.
  revert w w' r. induction l as [|x l IH]; intros w w' r; cbn [Scheduler.sorted].
  - by intros [= <- <-].
  - rewrite bind_eq. destruct (Scheduler.sorted l w) as [[r'|e] w1] eqn:E; [|discriminate].
    intros Hi Hy. destruct (insert_sorted_elem _ _ _ _ _ _ Hi Hy) as [->|H].
    + left.
    + right. by apply (IH _ _ _ E).
Qed.

(** C7. A job whose [next_run] is after the reading of the clock taken by its
    due check is left as it is by [run_pending()], with all its fields, and
    its work unit is not among the invocations of the sweep. *)
Theorem run_pending_skips_not_due (w : World) (l : loc) (j : Job) (nr : datetime) :
  heap w !! l = Some j ->
  next_run j = Some nr ->
  (forall i : nat, jobs w !! i = Some l ->
     dt_lt (clock w (ticks w + i)%nat) nr = true) ->
  exists r w' cs,
    Scheduler.run_pending w = (r, w')
    /\ heap w' !! l = Some j
    /\ calls w' = calls w ++ cs
    /\ l ∉ cs.
Proof.
  intros Hj Hnr Hnot. unfold Scheduler.run_pending.
  rewrite (bind_ok get_jobs _ w (jobs w) w eq_refl).
  rewrite bind_eq.
  pose proof (frames_runnable_jobs [] (jobs w) w) as F1.
  destruct (Scheduler.runnable_jobs (jobs w) w) as [[rs|e] w1] eqn:E1; cbn [snd] in F1.
  - assert (Hl : l ∉ rs).
    { intros Hin.
      destruct (runnable_jobs_due _ _ _ _ _ E1 Hin) as (i & j' & nr' & Hi & Hj' & Hn' & Hd).
      rewrite Hj in Hj'. injection Hj' as <-. rewrite Hnr in Hn'. injection Hn' as <-.
      specialize (Hnot i Hi). unfold dt_ge in Hd. by rewrite Hnot in Hd. }
    rewrite bind_eq.
    pose proof (frames_sorted [] rs w1) as F2.
    destruct (Scheduler.sorted rs w1) as [[ordered|e] w2] eqn:E2; cbn [snd] in F2.
    + assert (Hlo : l ∉ ordered).
      { intros Hin. apply Hl. by apply (sorted_elem _ _ _ _ _ E2). }
      pose proof (frames_run_each ordered w2) as F3.
      destruct (Scheduler.run_each ordered w2) as [r w3]. cbn [snd] in F3.
      pose proof (only_touches_trans ordered _ _ _
                    (only_touches_mono [] ordered _ _ ltac:(by intros ? ?%elem_of_nil)
                       (only_touches_trans [] _ _ _ F1 F2)) F3)
        as (H & _ & (cs & Hcs & Hin) & _).
      exists r, w3, cs. split; [reflexivity|].
      split; [by rewrite H|]. split; [done|]. intros Hc. by apply Hlo, Hin.
    + destruct (only_touches_trans [] _ _ _ F1 F2) as (H & _ & (cs & Hcs & Hin) & _).
      exists (Err e), w2, cs. split; [reflexivity|].
      split; [rewrite H; [done|by intros ?%elem_of_nil]|].
      split; [done|]. by intros ?%Hin%elem_of_nil.
  - destruct F1 as (H & _ & (cs & Hcs & Hin) & _).
    exists (Err e), w1, cs. split; [reflexivity|].
    split; [rewrite H; [done|by intros ?%elem_of_nil]|].
    split; [done|]. by intros ?%Hin%elem_of_nil.
Qed.

(** ** C5 and C10: the queries, and jobs without a work unit *)

(** C5 (the code at the failing input). On an empty registry the [next_run]
    query returns [None], and [idle_seconds] raises a [TypeError]: it reads the
    clock and then subtracts the reading from [None]. *)
Theorem empty_registry_queries (h : gmap nat Job) (n : nat) (clk : nat -> datetime)
    (t : nat) (r : nat -> nat) (d : nat) (o : nat -> option exn) (c : list nat) :
  Scheduler.next_run (mkWorld h n [] clk t r d o c)
  = (Ok None, mkWorld h n [] clk t r d o c)
  /\ Scheduler.idle_seconds (mkWorld h n [] clk t r d o c)
     = (Err TypeError, mkWorld h n [] clk (S t) r d o c).
Proof. split; reflexivity. Qed.

Lemma should_run_unconfigured (self : loc) (j : Job) (w : World) :
  heap w !! self = Some j -> next_run j = None ->
  Job.should_run self w = (Err TypeError, with_ticks (S (ticks w)) w).
Proof.
  intros Hj Hn. unfold Job.should_run.
  rewrite (bind_ok now _ w _ _ eq_refl).
  rewrite (bind_ok _ _ _ _ _ (getj_ok self (with_ticks (S (ticks w)) w) j Hj)).
  by rewrite Hn.
Qed.

Lemma should_run_configured (self : loc) (j : Job) (nr : datetime) (w : World) :
  heap w !! self = Some j -> next_run j = Some nr ->
  Job.should_run self w
  = (Ok (dt_ge (clock w (ticks w)) nr), with_ticks (S (ticks w)) w).
Proof.
  intros Hj Hn. unfold Job.should_run.
  rewrite (bind_ok now _ w _ _ eq_refl).
  rewrite (bind_ok _ _ _ _ _ (getj_ok self (with_ticks (S (ticks w)) w) j Hj)).
  by rewrite Hn.
Qed.

(** The generator stops with a [TypeError] at the first job without a
    [next_run]; no job has been run by then. *)
Lemma runnable_jobs_unconfigured (js : list loc) (l : loc) (j : Job) (w : World) :
  (forall x, x ∈ js -> is_Some (heap w !! x)) ->
  l ∈ js -> heap w !! l = Some j -> next_run j = None ->
  exists w', Scheduler.runnable_jobs js w = (Err TypeError, w')
             /\ heap w' = heap w /\ calls w' = calls w.
Proof.
  revert w. induction js as [|job rest IH]; intros w Hall Hin Hj Hn.
  - by apply elem_of_nil in Hin.
  - cbn [Scheduler.runnable_jobs]. rewrite bind_eq.
    destruct (Hall job) as [jj Hjj]; [left|].
    destruct (next_run jj) as [nr|] eqn:Enr.
    + rewrite (should_run_configured job jj nr w Hjj Enr).
      assert (Hl : l ∈ rest).
      { apply elem_of_cons in Hin as [->|?]; [|done]. congruence. }
      destruct (IH (with_ticks (S (ticks w)) w)) as (w' & E & Hh & Hc); try done.
      { intros x Hx. apply Hall. by right. }
      rewrite bind_eq, E. by exists w'.
    + rewrite (should_run_unconfigured job jj w Hjj Enr). by eexists.
Qed.

Lemma run_no_work_unit (self : loc) (j : Job) (w : World) :
  heap w !! self = Some j -> job_func j = None ->
  Job.run self w = (Err TypeError, w).
Proof.
  intros Hj Hf. unfold Job.run, call_job_func.
  rewrite bind_eq, (bind_ok _ _ _ _ _ (getj_ok _ _ _ Hj)), Hf. reflexivity.
Qed.

(** The unconditional sweep reaches the job without a work unit, unless it
    has failed before. *)
Lemma run_each_delayed_no_work_unit (d : Z) (js : list loc) (l : loc) (j : Job) (w : World) :
  l ∈ js -> heap w !! l = Some j -> job_func j = None ->
  is_Err (Scheduler.run_each_delayed d js w).1.
Proof.
  revert w. induction js as [|job rest IH]; intros w Hin Hj Hf.
  - by apply elem_of_nil in Hin.
  - cbn [Scheduler.run_each_delayed].
    destruct (decide (job = l)) as [->|Hne].
    + rewrite bind_eq, (run_no_work_unit l j w Hj Hf). exact I.
    + assert (Hl : l ∈ rest) by (apply elem_of_cons in Hin as [->|?]; done).
      apply bind_is_Err. intros a w1 Hrun.
      pose proof (frames_run job w) as (Hh & _). rewrite Hrun in Hh. cbn [snd] in Hh.
      apply bind_is_Err. intros a' w2. unfold sleep.
      destruct (_ <? Z.abs d); [discriminate|].
      destruct (d <? 0); [discriminate|]. intros [= _ <-].
      apply IH; [done| |done]. rewrite Hh; [done|].
      by intros ->%list_elem_of_singleton.
Qed.

Lemma lt_inv (a b : loc) (w w' : World) (r : bool) :
  Job.lt a b w = (Ok r, w') ->
  w' = w /\ exists ja jb na nb,
    heap w !! a = Some ja /\ next_run ja = Some na
    /\ heap w !! b = Some jb /\ next_run jb = Some nb.
Proof.
  unfold Job.lt. rewrite bind_eq. unfold getj at 1.
  destruct (heap w !! a) as [ja|]; [|discriminate].
  rewrite bind_eq. unfold getj.
  destruct (heap w !! b) as [jb|]; [|discriminate].
  destruct (next_run ja) as [na|] eqn:Ea; [|discriminate].
  destruct (next_run jb) as [nb|] eqn:Eb; [|discriminate].
  intros [= <- <-]. split; [done|]. by exists ja, jb, na, nb.
Qed.

(** [min] over two or more jobs compares every one of them: it raises when
    one has no [next_run]. *)
Lemma min_from_unconfigured (rest : list loc) (best l : loc) (j : Job) (w : World) :
  rest ≠ [] -> l ∈ best :: rest ->
  heap w !! l = Some j -> next_run j = None ->
  is_Err (Scheduler.min_from best rest w).1.
Proof.
  revert best. induction rest as [|x rest IH]; intros best Hne Hin Hj Hn; [done|].
  cbn [Scheduler.min_from]. apply bind_is_Err. intros b w' Hlt.
  apply lt_inv in Hlt as (-> & jx & jb & nx & nb & Hx & Hnx & Hb & Hnb).
  assert (Hl : l ∈ rest).
  { apply elem_of_cons in Hin as [->|Hin]; [congruence|].
    apply elem_of_cons in Hin as [->|Hin]; [congruence|done]. }
  apply IH; [|by right|done|done]. intros ->. by apply elem_of_nil in Hl.
Qed.

(** C10 (amended). In a registry of allocated jobs one of which was made by
    [every()] and never given a work unit, [run_pending()] raises a
    [TypeError] in the due checks before any job is run, [run_all()] fails,
    and [idle_seconds] fails; the [next_run] query fails when the registry
    holds two jobs or more, and returns [None] without an error when the job
    is the only one. *)
Theorem unconfigured_job_breaks_registry (w : World) (l : loc) (j : Job) :
  (forall x, x ∈ jobs w -> is_Some (heap w !! x)) ->
  l ∈ jobs w ->
  heap w !! l = Some j ->
  job_func j = None ->
  next_run j = None ->
  (exists w', Scheduler.run_pending w = (Err TypeError, w')
              /\ heap w' = heap w /\ calls w' = calls w)
  /\ (forall d, is_Err (Scheduler.run_all d w).1)
  /\ is_Err (Scheduler.idle_seconds w).1
  /\ ((2 <= length (jobs w))%nat -> is_Err (Scheduler.next_run w).1)
  /\ (jobs w = [l] -> Scheduler.next_run w = (Ok None, w)).
Proof.
  intros Hall Hin Hj Hf Hn.
  assert (Hsingle : jobs w = [l] -> Scheduler.next_run w = (Ok None, w)).
  { intros E. unfold Scheduler.next_run.
    rewrite (bind_ok get_jobs _ w (jobs w) w eq_refl), E.
    cbn [Scheduler.min_from].
    rewrite (bind_ok (mret l) _ w l w eq_refl).
    rewrite (bind_ok _ _ _ _ _ (getj_ok _ _ _ Hj)), Hn. reflexivity. }
  assert (Hmany : (2 <= length (jobs w))%nat -> is_Err (Scheduler.next_run w).1).
  { intros Hlen. unfold Scheduler.next_run.
    rewrite (bind_ok get_jobs _ w (jobs w) w eq_refl).
    destruct (jobs w) as [|x [|y rest]] eqn:E; cbn [length] in Hlen; try lia.
    apply bind_is_Err. intros m w' Hm.
    pose proof (min_from_unconfigured (y :: rest) x l j w ltac:(done) Hin Hj Hn) as H.
    rewrite Hm in H. destruct H. }
  split; [|split; [|split; [|split]]]; try done.
  - unfold Scheduler.run_pending.
    rewrite (bind_ok get_jobs _ w (jobs w) w eq_refl).
    destruct (runnable_jobs_unconfigured (jobs w) l j w Hall Hin Hj Hn)
      as (w' & E & Hh & Hc).
    rewrite (bind_err _ _ _ _ _ E). by exists w'.
  - intros d. unfold Scheduler.run_all.
    rewrite (bind_ok get_jobs _ w (jobs w) w eq_refl).
    by apply (run_each_delayed_no_work_unit d (jobs w) l j).
  - unfold Scheduler.idle_seconds.
    destruct (jobs w) as [|x [|y rest]] eqn:E.
    + by apply elem_of_nil in Hin.
    + apply list_elem_of_singleton in Hin as ->.
      rewrite (bind_ok _ _ _ _ _ (Hsingle eq_refl)).
      rewrite (bind_ok now _ w _ _ eq_refl). exact I.
    + apply bind_is_Err. intros v w' Hv.
      assert (H : is_Err (Scheduler.next_run w).1) by (apply Hmany; cbn; lia).
      rewrite Hv in H. destruct H.
Qed.

(** ** The claims on the scenarios *)

(** C1 (as stated, refuted). [on("mon|tue", "mon|wed")] makes two groups
    that both contain Monday; after a run on a Monday the loop removes both
    of them, not at most one. *)
Lemma two_groups_removed :
  length (Job.weeknums_of ["mon|tue"; "mon|wed"]%string) = 2%nat
  /\ isoweekday monday_8 = 1
  /\ Job.remove_ran (isoweekday monday_8)
       (Job.weeknums_of ["mon|tue"; "mon|wed"]%string)
       (Job.weeknums_of ["mon|tue"; "mon|wed"]%string) = Ok [].
Proof. vm_compute. repeat split. Qed.

(** After a run on a Sunday nothing is removed: [isoweekday()] is 7 and the
    group of [on("sun")] holds 0. With [on("sun", "wed")] the next run is then
    the following Sunday, and Wednesday is passed over. *)
Example sunday_group_stays :
  isoweekday (mkdt 2024 6 9 8 0 0) = 7
  /\ Job.weeknums_of ["sun"; "wed"]%string = [{[0]}; {[3]}]
  /\ Job.remove_ran 7 [{[0]}; {[3]}] [{[0]}; {[3]}] = Ok [{[0]}; {[3]}]
  /\ next_run (job_at (after (j ← Scheduler.on ["sun"; "wed"]%string;
                              j ← Job.do j "job"; Job.run j)
                             (world0 (steady (mkdt 2024 6 9 8 0 0)) zeros no_raise)) 0)
     = Some (mkdt 2024 6 16 8 0 0).
Proof. vm_compute. repeat split. Qed.

Lemma ran_groups_removed_witness :
  weekday_id monday_8 ≠ 0
  /\ Job.remove_ran (isoweekday monday_8) [{[1; 2]}; {[3]}; {[1; 4]}]
                    [{[1; 2]}; {[3]}; {[1; 4]}]
     = Ok (filter (fun g => weekday_id monday_8 ∉ g) [{[1; 2]}; {[3]}; {[1; 4]}]).
Proof.
  assert (H : weekday_id monday_8 ≠ 0) by (vm_compute; discriminate).
  split; [exact H|].
  apply (ran_groups_removed monday_8 [{[1; 2]}; {[3]}; {[1; 4]}] H).
Defined.

(** C2. The code on [every().days.starting("2024-06-02").do(job)] swept at
    08:00 on 2024-06-03: the daily job has no run days, it runs, and lines
    295-298 reschedule it for the start date plus one day, 2024-06-03 00:00,
    which is the day of the run and not a later day; a second sweep runs it
    again. *)
Lemma started_daily_job_reruns_today :
  (daily_started w_monday).1 = Ok ()
  /\ unit_ (job_at (after daily_started w_monday) 0) = Some Days
  /\ run_days (job_at (after daily_started w_monday) 0) = []
  /\ last_run (job_at (after daily_started w_monday) 0) = Some (mkdt 2024 6 3 8 0 0)
  /\ next_run (job_at (after daily_started w_monday) 0) = Some (mkdt 2024 6 3 0 0 0)
  /\ calls (after (daily_started;; Scheduler.run_pending) w_monday) = [0; 0]%nat.
Proof. vm_compute. repeat split. Qed.

(** C3. The code on [every(2).days.at("23:59").do(job)] at 08:00 on
    2024-06-03: there is no previous run, there are no run days and 23:59 is
    later than 08:00, yet line 345 takes one day off the baseline of two days
    and [next_run] is 2024-06-04 23:59, the day after today and not today. *)
Lemma two_day_job_not_today :
  (every_two_days w_monday).1 = Ok 0%nat
  /\ last_run (job_at (after every_two_days w_monday) 0) = None
  /\ run_days (job_at (after every_two_days w_monday) 0) = []
  /\ at_time (job_at (after every_two_days w_monday) 0) = Some (Time 23 59 0 0)
  /\ time_gt (Time 23 59 0 0) (timeof monday_8) = true
  /\ next_run (job_at (after every_two_days w_monday) 0) = Some (mkdt 2024 6 4 23 59 0)
  /\ toordinal (mkdt 2024 6 4 23 59 0) = toordinal monday_8 + 1.
Proof. vm_compute. repeat split. Qed.

(** C4 on a scenario: the work unit of a job every second raises. *)
Lemma run_raise_keeps_job_witness :
  exists w',
    Job.run 0 (after every_second (world0 (steady monday_8) zeros
                                      (fun _ => Some (Raised "boom"))))
    = (Err (Raised "boom"), w')
    /\ heap w' = heap (after every_second (world0 (steady monday_8) zeros
                                             (fun _ => Some (Raised "boom"))))
    /\ heap w' !! 0%nat
       = Some (job_at (after every_second (world0 (steady monday_8) zeros
                                             (fun _ => Some (Raised "boom")))) 0)
    /\ jobs w' = [0%nat] /\ ticks w' = 1%nat /\ draws w' = 0%nat
    /\ calls w' = [] ++ [0%nat].
Proof.
  apply (run_raise_keeps_job
           (after every_second (world0 (steady monday_8) zeros
                                  (fun _ => Some (Raised "boom"))))
           0 (job_at (after every_second (world0 (steady monday_8) zeros
                                            (fun _ => Some (Raised "boom")))) 0)
           "job" (Raised "boom"));
    vm_compute; reflexivity.
Defined.

(** C6 (as stated, refuted). [on("funday")] is accepted and leaves no run
    days; [on("t")], which starts Tuesday and Thursday, is accepted with
    both. *)
Lemma on_accepts_unknown_name :
  (Scheduler.on ["funday"%string] w_monday).1 = Ok 0%nat
  /\ run_days (job_at (after (Scheduler.on ["funday"%string]) w_monday) 0) = []
  /\ (Scheduler.on ["t"%string] w_monday).1 = Ok 0%nat
  /\ run_days (job_at (after (Scheduler.on ["t"%string]) w_monday) 0) = [{[2; 4]}].
Proof. vm_compute. repeat split. Qed.

Lemma on_accepts_any_string_witness :
  Job.on 0 ["funday"; "Mon|wed"]%string (after (Scheduler.every 1) w_monday)
  = (Ok 0%nat,
     with_heap (<[0%nat := set_run_days (Job.weeknums_of ["funday"; "Mon|wed"]%string)
                             (Job_init 1)]>
                  (heap (after (Scheduler.every 1) w_monday)))
               (after (Scheduler.every 1) w_monday)).
Proof.
  apply (on_accepts_any_string (after (Scheduler.every 1) w_monday) 0 (Job_init 1)
           ["funday"; "Mon|wed"]%string).
  vm_compute; reflexivity.
Defined.

(** C8 (as stated, refuted). [every().weeks.on("mon")] makes a job with run
    days whose unit is weeks. *)
Lemma run_days_with_unit_weeks :
  (weekly_on_monday w_monday).1 = Ok 0%nat
  /\ unit_ (job_at (after weekly_on_monday w_monday) 0) = Some Weeks
  /\ run_days (job_at (after weekly_on_monday w_monday) 0) = [{[1]}].
Proof. vm_compute. repeat split. Qed.

Lemma on_and_units_witness :
  exists w',
    plural Weeks 0 (after (Scheduler.on ["mon"%string]) w_monday) = (Ok 0%nat, w')
    /\ heap w' !! 0%nat
       = Some (set_unit (Some Weeks)
                 (job_at (after (Scheduler.on ["mon"%string]) w_monday) 0))
    /\ unit_ (set_unit (Some Weeks)
                (job_at (after (Scheduler.on ["mon"%string]) w_monday) 0)) = Some Weeks
    /\ run_days (set_unit (Some Weeks)
                   (job_at (after (Scheduler.on ["mon"%string]) w_monday) 0))
       = run_days (job_at (after (Scheduler.on ["mon"%string]) w_monday) 0).
Proof.
  apply (on_and_units (after (Scheduler.on ["mon"%string]) w_monday) ["mon"%string]).
  vm_compute; reflexivity.
Defined.

(** C7 on a scenario: at 08:00:30 the job every second is due and runs, the
    job every hour is not due and stays as it was. *)
Lemma run_pending_skips_not_due_witness :
  (forall i : nat,
     jobs (after two_jobs (world0 clock_8_then_830 zeros no_raise)) !! i = Some 1%nat ->
     dt_lt (clock (after two_jobs (world0 clock_8_then_830 zeros no_raise))
              (ticks (after two_jobs (world0 clock_8_then_830 zeros no_raise)) + i)%nat)
           (mkdt 2024 6 3 9 0 0) = true)
  /\ exists r w' cs,
       Scheduler.run_pending (after two_jobs (world0 clock_8_then_830 zeros no_raise))
       = (r, w')
       /\ heap w' !! 1%nat
          = Some (job_at (after two_jobs (world0 clock_8_then_830 zeros no_raise)) 1)
       /\ calls w' = calls (after two_jobs (world0 clock_8_then_830 zeros no_raise)) ++ cs
       /\ 1%nat ∉ cs.
Proof.
  assert (H : forall i : nat,
     jobs (after two_jobs (world0 clock_8_then_830 zeros no_raise)) !! i = Some 1%nat ->
     dt_lt (clock (after two_jobs (world0 clock_8_then_830 zeros no_raise))
              (ticks (after two_jobs (world0 clock_8_then_830 zeros no_raise)) + i)%nat)
           (mkdt 2024 6 3 9 0 0) = true).
  { intros [|[|i]]; vm_compute; intros Hi; try discriminate Hi; reflexivity. }
  split; [exact H|].
  apply (run_pending_skips_not_due
           (after two_jobs (world0 clock_8_then_830 zeros no_raise)) 1
           (job_at (after two_jobs (world0 clock_8_then_830 zeros no_raise)) 1)
           (mkdt 2024 6 3 9 0 0)); [vm_compute; reflexivity..|exact H].
Defined.

Example two_jobs_sweep :
  (Scheduler.run_pending (after two_jobs (world0 clock_8_then_830 zeros no_raise))).1
  = Ok ()
  /\ calls (after (two_jobs;; Scheduler.run_pending)
              (world0 clock_8_then_830 zeros no_raise)) = [0%nat].
Proof. vm_compute. repeat split. Qed.

(** C9 on a scenario: [every().days.between("10:00-09:00")]. *)
Lemma between_reversed_window_witness :
  exists (w1 : World) (j1 : Job),
    Job.between 0 "10:00-09:00" (after (j ← Scheduler.every 1; Job.days j) w_monday)
    = (Ok 0%nat, w1)
    /\ heap w1 !! 0%nat = Some j1
    /\ between_times j1 = Some (Datetime (ymd2ord 1900 1 1) (Time 10 0 0 0),
                                Datetime (ymd2ord 1900 1 1) (Time 9 0 0 0))
    /\ (Job._schedule_next_run 0 w1).1 = Err ValueError
    /\ (Job.do 0 "job" w1).1 = Err ValueError
    /\ is_Err (Job.run 0 w1).1.
Proof.
  destruct (between_reversed_window (after (j ← Scheduler.every 1; Job.days j) w_monday) 0
              (set_unit (Some Days) (Job_init 1))
              "10:00-09:00" (Datetime (ymd2ord 1900 1 1) (Time 10 0 0 0))
              (Datetime (ymd2ord 1900 1 1) (Time 9 0 0 0)))
    as (w1 & j1 & E & (Hj1 & _) & Hb & _ & _ & _ & Hrun & Hval & _);
    [vm_compute; reflexivity..|].
  exists w1, j1. split; [exact E|]. split; [exact Hj1|]. split; [exact Hb|].
  destruct (Hval Days (Timedelta 1 0 0) (mkdt 2024 6 4 8 0 0)) as [H1 H2];
    [vm_compute; reflexivity..|].
  split; [exact H1|]. split; [apply H2|exact Hrun].
Defined.

Example reversed_window_do_fails :
  ((j ← Scheduler.every 1; j ← Job.days j; j ← Job.between j "10:00-09:00";
    Job.do j "job") w_monday).1 = Err ValueError.
Proof. vm_compute. reflexivity. Qed.

(** C10 (as stated, refuted). A registry whose only job was made by
    [every()] and never given a work unit: the [next_run] query returns
    [None] and does not fail. *)
Lemma lone_unconfigured_job_next_run :
  jobs (after (Scheduler.every 1) w_monday) = [0%nat]
  /\ job_func (job_at (after (Scheduler.every 1) w_monday) 0) = None
  /\ next_run (job_at (after (Scheduler.every 1) w_monday) 0) = None
  /\ (Scheduler.next_run (after (Scheduler.every 1) w_monday)).1 = Ok None.
Proof. vm_compute. repeat split. Qed.

Lemma unconfigured_job_breaks_registry_witness :
  (exists w', Scheduler.run_pending (after one_unconfigured w_monday)
              = (Err TypeError, w')
              /\ heap w' = heap (after one_unconfigured w_monday)
              /\ calls w' = calls (after one_unconfigured w_monday))
  /\ (forall d, is_Err (Scheduler.run_all d (after one_unconfigured w_monday)).1)
  /\ is_Err (Scheduler.idle_seconds (after one_unconfigured w_monday)).1
  /\ ((2 <= length (jobs (after one_unconfigured w_monday)))%nat ->
      is_Err (Scheduler.next_run (after one_unconfigured w_monday)).1)
  /\ (jobs (after one_unconfigured w_monday) = [1%nat] ->
      Scheduler.next_run (after one_unconfigured w_monday)
      = (Ok None, after one_unconfigured w_monday)).
Proof.
  apply (unconfigured_job_breaks_registry (after one_unconfigured w_monday) 1
           (job_at (after one_unconfigured w_monday) 1));
    try (vm_compute; reflexivity).
  - intros x Hx. vm_compute in Hx.
    apply elem_of_cons in Hx as [->|Hx]; [vm_compute; eauto|].
    apply list_elem_of_singleton in Hx as ->. vm_compute; eauto.
  - vm_compute. right. left.
Defined.

(** * Further properties of the code *)

(** ** Sums of dates and durations *)

Lemma time_us_time_of_us (x : Z) :
  0 <= x < US_PER_DAY -> time_us (time_of_us x) = x /\ time_wf (time_of_us x).
Proof.
  intros H. unfold time_wf, time_us, time_of_us, US_PER_DAY, US_PER_SECOND in *.
  cbn [hour minute second microsecond].
  repeat split; Z.div_mod_to_equations; lia.
Qed.

(** A sum that is returned is the exact sum, and a well-formed date. *)
Lemma dt_add_us (d : datetime) (td : timedelta) (r : datetime) :
  dt_add d td = Ok r ->
  dt_us r = dt_us d + td_us td /\ datetime_wf r.
Proof.
  unfold dt_add. cbv zeta.
  destruct (0 <? _) eqn:C1; [|discriminate].
  destruct (_ <=? MAXORDINAL) eqn:C2; [|discriminate].
  apply Z.ltb_lt in C1. apply Z.leb_le in C2.
  intros [= <-]. unfold dt_us at 1, datetime_wf. cbn [toordinal timeof].
  destruct (time_us_time_of_us ((dt_us d + td_us td) mod US_PER_DAY)) as [-> Hwf].
  { apply Z.mod_pos_bound. reflexivity. }
  split; [|split; [lia|exact Hwf]].
  rewrite Z.mul_comm. symmetry. apply Z.div_mod. discriminate.
Qed.

Lemma dt_add_ok (d : datetime) (td : timedelta) :
  US_PER_DAY <= dt_us d + td_us td < (MAXORDINAL + 1) * US_PER_DAY ->
  exists r, dt_add d td = Ok r /\ dt_us r = dt_us d + td_us td /\ datetime_wf r.
Proof.
  intros H. destruct (dt_add d td) as [r|e] eqn:E.
  - exists r. split; [reflexivity|]. by apply dt_add_us.
  - exfalso. revert E. unfold dt_add. cbv zeta.
    destruct (0 <? _) eqn:C1.
    + destruct (_ <=? MAXORDINAL) eqn:C2; [discriminate|].
      apply Z.leb_gt in C2. unfold US_PER_DAY, US_PER_SECOND, MAXORDINAL in *.
      Z.div_mod_to_equations. lia.
    + apply Z.ltb_ge in C1. unfold US_PER_DAY, US_PER_SECOND, MAXORDINAL in *.
      Z.div_mod_to_equations. lia.
Qed.

(** ** Interval jobs *)

Lemma interval_job_baseline (w : World) (self : loc) (j : Job) (u : Unit) :
  heap w !! self = Some j ->
  unit_ j = Some u ->
  run_days j = [] ->
  between_times j = None ->
  at_time j = None ->
  - 999999999 * US_PER_DAY <= interval j * Job.unit_us u < 1000000000 * US_PER_DAY ->
  US_PER_DAY <= dt_us (default (clock w (ticks w)) (start_run j))
                + interval j * Job.unit_us u < (MAXORDINAL + 1) * US_PER_DAY ->
  exists per nr,
    Job._schedule_next_run self w
    = (Ok (),
       with_heap (<[self := set_next_run (Some nr) (set_period (Some per) j)]> (heap w))
         (match start_run j with Some _ => w | None => with_ticks (S (ticks w)) w end))
    /\ td_us per = interval j * Job.unit_us u
    /\ dt_us nr = dt_us (default (clock w (ticks w)) (start_run j))
                  + interval j * Job.unit_us u
    /\ datetime_wf nr.
Proof.
  intros Hj Hu Hd Hb Ha Hper Htarget.
  destruct (timedelta_of_us_ok _ Hper) as (per & Eper & Hus).
  destruct (dt_add_ok (default (clock w (ticks w)) (start_run j)) per)
    as (nr & Enr & Hnr & Hwf); [by rewrite Hus|].
  rewrite (schedule_baseline w self j u per nr Hj Hu Hd Eper Enr).
  unfold Job.draw_at_time. rewrite Hb, Ha.
  exists per, nr. split; [reflexivity|]. split; [exact Hus|].
  split; [by rewrite Hnr, Hus|exact Hwf].
Qed.

(** X1. A job with a unit and no run days, window or time of day is
    scheduled at the anchor (the start date when set, the clock otherwise)
    plus interval times the unit, to the microsecond: afterwards its
    [next_run] is that date and its [period] is that duration, its other
    fields are as before, and so are the other jobs, the registry and the
    invocations; the clock is read once when there is no start date. *)
Theorem interval_job_next_run (w : World) (self : loc) (j : Job) (u : Unit) :
  heap w !! self = Some j ->
  unit_ j = Some u ->
  run_days j = [] ->
  between_times j = None ->
  at_time j = None ->
  - 999999999 * US_PER_DAY <= interval j * Job.unit_us u < 1000000000 * US_PER_DAY ->
  US_PER_DAY <= dt_us (default (clock w (ticks w)) (start_run j))
                + interval j * Job.unit_us u < (MAXORDINAL + 1) * US_PER_DAY ->
  exists (w' : World) (j' : Job) (per : timedelta) (nr : datetime),
    Job._schedule_next_run self w = (Ok (), w')
    /\ heap w' !! self = Some j'
    /\ next_run j' = Some nr
    /\ period j' = Some per
    /\ j' = mkJob (interval j) (job_func j) (unit_ j) (at_time j) (between_times j)
              (run_days j) (start_run j) (last_run j) (Some nr) (Some per)
    /\ td_us per = interval j * Job.unit_us u
    /\ dt_us nr = dt_us (default (clock w (ticks w)) (start_run j))
                  + interval j * Job.unit_us u
    /\ datetime_wf nr
    /\ (forall l, l ≠ self -> heap w' !! l = heap w !! l)
    /\ ticks w' = match start_run j with Some _ => ticks w | None => S (ticks w) end
    /\ draws w' = draws w /\ calls w' = calls w /\ jobs w' = jobs w.
Proof.
  intros Hj Hu Hd Hb Ha Hper Htarget.
  destruct (interval_job_baseline w self j u Hj Hu Hd Hb Ha Hper Htarget)
    as (per & nr & E & Hus & Hnr & Hwf).
  eexists _, _, per, nr. split; [exact E|]. split; [apply lookup_insert_eq|].
  split; [reflexivity|]. split; [reflexivity|]. split; [reflexivity|].
  split; [exact Hus|]. split; [exact Hnr|]. split; [exact Hwf|].
  split; [intros l Hl; cbn [heap with_heap]; rewrite lookup_insert_ne by done;
          by destruct (start_run j)|].
  destruct (start_run j); by repeat split.
Qed.

Lemma interval_job_next_run_witness :
  exists (w' : World) (j' : Job) (nr : datetime),
    Job._schedule_next_run 0 (after (j ← Scheduler.every 10; Job.minutes j) w_monday)
    = (Ok (), w')
    /\ heap w' !! 0%nat = Some j'
    /\ next_run j' = Some nr
    /\ dt_us nr = dt_us monday_8 + 10 * Job.unit_us Minutes.
Proof.
  destruct (interval_job_next_run (after (j ← Scheduler.every 10; Job.minutes j) w_monday)
              0 (set_unit (Some Minutes) (Job_init 10)) Minutes)
    as (w' & j' & per & nr & E & Hj' & Hnr & _ & _ & _ & Hus & _);
    [vm_compute; reflexivity..| | |].
  - vm_compute. repeat split; discriminate.
  - vm_compute. repeat split; discriminate.
  - exists w', j', nr. split; [exact E|]. split; [exact Hj'|]. split; [exact Hnr|].
    exact Hus.
Defined.

(** X2. A run whose work unit returns records the invocation and leaves the
    job with [last_run] at the reading of the clock taken after the work unit
    and, for a job without start date, run days, window or time of day, with
    [next_run] at the following reading plus interval times the unit and
    [period] at that duration; the other fields of the job, the other jobs and
    the registry are as before. *)
Theorem run_reschedules (w : World) (self : loc) (j : Job) (f : string) (u : Unit) :
  heap w !! self = Some j ->
  job_func j = Some f ->
  outcome w (length (calls w)) = None ->
  unit_ j = Some u ->
  start_run j = None ->
  run_days j = [] ->
  between_times j = None ->
  at_time j = None ->
  - 999999999 * US_PER_DAY <= interval j * Job.unit_us u < 1000000000 * US_PER_DAY ->
  US_PER_DAY <= dt_us (clock w (S (ticks w))) + interval j * Job.unit_us u
             < (MAXORDINAL + 1) * US_PER_DAY ->
  exists (w' : World) (j' : Job) (per : timedelta) (nr : datetime),
    Job.run self w = (Ok (), w')
    /\ heap w' !! self = Some j'
    /\ last_run j' = Some (clock w (ticks w))
    /\ next_run j' = Some nr
    /\ period j' = Some per
    /\ j' = mkJob (interval j) (job_func j) (unit_ j) (at_time j) (between_times j)
              (run_days j) (start_run j) (Some (clock w (ticks w))) (Some nr) (Some per)
    /\ td_us per = interval j * Job.unit_us u
    /\ dt_us nr = dt_us (clock w (S (ticks w))) + interval j * Job.unit_us u
    /\ (forall l, l ≠ self -> heap w' !! l = heap w !! l)
    /\ calls w' = calls w ++ [self]
    /\ ticks w' = S (S (ticks w))
    /\ draws w' = draws w
    /\ jobs w' = jobs w.
Proof.
  intros Hj Hf Ho Hu Hs Hd Hb Ha Hper Htarget.
  unfold Job.run, call_job_func.
  rewrite bind_eq, (bind_ok _ _ _ _ _ (getj_ok _ _ _ Hj)), Hf.
  unfold invoke. rewrite Ho. cbv zeta.
  rewrite (bind_ok now _ _ _ _ eq_refl).
  set (w1 := with_ticks _ _).
  assert (Hj1 : heap w1 !! self = Some j) by exact Hj.
  rewrite (bind_ok _ _ _ _ _ (setj_ok self _ w1 j Hj1)).
  set (w2 := with_heap _ w1).
  set (j2 := set_last_run (Some (clock w1 (ticks w))) j).
  assert (Hj2 : heap w2 !! self = Some j2) by apply lookup_insert_eq.
  destruct (interval_job_baseline w2 self j2 u Hj2 Hu Hd Hb Ha Hper)
    as (per & nr & E & Hus & Hnr & Hwf).
  { cbn [start_run set_last_run j2]. rewrite Hs. exact Htarget. }
  cbn [start_run set_last_run j2] in E, Hnr. rewrite Hs in E, Hnr. rewrite E.
  eexists _, _, per, nr. split; [reflexivity|].
  split; [apply lookup_insert_eq|].
  do 3 (split; [reflexivity|]).
  split; [unfold j2, set_next_run, set_period, set_last_run; cbn; by rewrite ?Hf, ?Hs|].
  split; [exact Hus|]. split; [exact Hnr|].
  split; [|by repeat split].
  intros l Hl. cbn [heap with_heap with_ticks w2 w1]. by rewrite !lookup_insert_ne.
Qed.

Lemma run_reschedules_witness :
  exists (w' : World) (j' : Job) (nr : datetime),
    Job.run 0 (after every_second w_monday) = (Ok (), w')
    /\ heap w' !! 0%nat = Some j'
    /\ last_run j' = Some monday_8
    /\ next_run j' = Some nr
    /\ dt_us nr = dt_us monday_8 + 1 * Job.unit_us Seconds
    /\ calls w' = [0%nat].
Proof.
  destruct (run_reschedules (after every_second w_monday) 0
              (job_at (after every_second w_monday) 0) "job" Seconds)
    as (w' & j' & per & nr & E & Hj' & Hlr & Hnr & _ & _ & _ & Hus & _ & Hc & _);
    [vm_compute; reflexivity..| | |].
  - vm_compute. repeat split; discriminate.
  - vm_compute. repeat split; discriminate.
  - exists w', j', nr. split; [exact E|]. split; [exact Hj'|]. split; [exact Hlr|].
    split; [exact Hnr|]. split; [exact Hus|exact Hc].
Defined.

(** ** The window of [between] *)

(** X3. For a window string that parses into a start time not after its end
    time, the draw of lines 330-335 succeeds with one draw of the random
    module, and afterwards the [at_time] of the job is a whole second between
    the start time and the end time, both included; nothing else changes.
    Here [j] is the job as the recomputation read it at its start and [j0]
    the job in the store when the draw is made. *)
Theorem window_time_in_bounds (w : World) (self : loc) (j j0 : Job) (s : string)
    (start end_ : datetime) :
  heap w !! self = Some j0 ->
  result_map strptime_HM (split "-" s) = Ok [start; end_] ->
  between_times j = Some (start, end_) ->
  dt_lt end_ start = false ->
  exists (t : time) (w' : World) (j' : Job),
    Job.draw_at_time self j w = (Ok (Some t), w')
    /\ heap w' !! self = Some j'
    /\ at_time j' = Some t
    /\ j' = mkJob (interval j0) (job_func j0) (unit_ j0) (Some t) (between_times j0)
              (run_days j0) (start_run j0) (last_run j0) (next_run j0) (period j0)
    /\ (forall l, l ≠ self -> heap w' !! l = heap w !! l)
    /\ draws w' = S (draws w)
    /\ ticks w' = ticks w /\ calls w' = calls w /\ jobs w' = jobs w
    /\ time_wf t
    /\ microsecond t = 0
    /\ time_us (timeof start) <= time_us t <= time_us (timeof end_).
Proof.
  intros Hj Hs Hb Hle.
  destruct (strptime_pair_inv s start end_ Hs)
    as (h1 & m1 & h2 & m2 & -> & -> & Hh1 & Hm1 & Hh2 & Hm2).
  set (o := ymd2ord 1900 1 1) in *.
  assert (Ho : o = 693596) by reflexivity.
  assert (Hord : h1 * 60 + m1 <= h2 * 60 + m2).
  { revert Hle. unfold dt_lt, dt_cmp, time_cmp, lex.
    cbn [toordinal timeof hour minute second microsecond].
    rewrite Z.compare_refl.
    destruct (h2 ?= h1) eqn:E1.
    - apply Z.compare_eq in E1.
      destruct (m2 ?= m1) eqn:E2; cbn; try discriminate; intros _.
      + apply Z.compare_eq in E2. lia.
      + apply Z.compare_gt_iff in E2. lia.
    - discriminate.
    - intros _. apply Z.compare_gt_iff in E1. lia. }
  set (n := (h2 * 60 + m2) * 60 - (h1 * 60 + m1) * 60).
  assert (Hdiff : dt_us (Datetime o (Time h2 m2 0 0)) - dt_us (Datetime o (Time h1 m1 0 0))
                  = n * US_PER_SECOND).
  { unfold dt_us, time_us, n, US_PER_DAY, US_PER_SECOND.
    cbn [toordinal timeof hour minute second microsecond]. lia. }
  destruct (timedelta_of_us_ok (n * US_PER_SECOND)) as (width & Hw & Hus).
  { unfold n, US_PER_DAY, US_PER_SECOND. lia. }
  assert (Hn : int_total_seconds width = n).
  { unfold int_total_seconds. rewrite Hus. apply Z.quot_mul. discriminate. }
  set (k := 0 + Z.of_nat (rng w (draws w)) mod (n - 0 + 1)).
  assert (Hk : 0 <= k <= n).
  { unfold k. pose proof (Z.mod_pos_bound (Z.of_nat (rng w (draws w))) (n - 0 + 1)).
    unfold n in *. lia. }
  destruct (timedelta_of_us_ok (k * US_PER_SECOND)) as (off & Hoff & Hoffus).
  { unfold n, US_PER_DAY, US_PER_SECOND in *. lia. }
  set (tu := time_us (Time h1 m1 0 0) + k * US_PER_SECOND).
  assert (Htu : 0 <= tu < US_PER_DAY
                /\ time_us (Time h1 m1 0 0) <= tu <= time_us (Time h2 m2 0 0)).
  { unfold tu, time_us, n, US_PER_DAY, US_PER_SECOND in *.
    cbn [hour minute second microsecond]. lia. }
  assert (Hadd : dt_add (Datetime o (Time h1 m1 0 0)) off
                 = Ok (Datetime o (time_of_us tu))).
  { unfold dt_add, dt_us. cbn [toordinal timeof]. rewrite Hoffus. cbv zeta.
    fold tu. rewrite <- Z.add_assoc. fold tu.
    assert (E1 : (o * US_PER_DAY + tu) / US_PER_DAY = o).
    { unfold US_PER_DAY, US_PER_SECOND in *. Z.div_mod_to_equations. lia. }
    assert (E2 : (o * US_PER_DAY + tu) mod US_PER_DAY = tu).
    { unfold US_PER_DAY, US_PER_SECOND in *. Z.div_mod_to_equations. lia. }
    rewrite E1, E2, Ho. reflexivity. }
  eexists (time_of_us tu), _, _.
  destruct (time_us_time_of_us tu) as [Etu Hwf]; [apply Htu|].
  split.
  { unfold Job.draw_at_time. rewrite Hb.
    unfold dt_diff. rewrite Hdiff, Hw.
    rewrite (bind_ok (lift (Ok width)) _ w width w eq_refl).
    rewrite Hn.
    rewrite (bind_ok _ _ _ _ _ (randint_ok 0 n w ltac:(lia))).
    fold k. unfold timedelta_seconds. rewrite Hoff. cbn [rbind]. rewrite Hadd.
    rewrite (bind_ok (lift (Ok _)) _ _ _ _ eq_refl).
    rewrite (bind_ok _ _ _ _ _ (setj_ok self _ (with_draws (S (draws w)) w) j0 Hj)).
    reflexivity. }
  split; [apply lookup_insert_eq|].
  do 2 (split; [reflexivity|]).
  split; [intros l Hl; cbn [heap with_heap with_draws]; by rewrite lookup_insert_ne|].
  do 4 (split; [reflexivity|]). split; [exact Hwf|]. split.
  - unfold time_of_us, tu, time_us, US_PER_SECOND.
    cbn [hour minute second microsecond]. Z.div_mod_to_equations. lia.
  - cbn [timeof]. rewrite Etu. apply Htu.
Qed.

Lemma window_time_in_bounds_witness :
  exists (t : time) (w' : World) (j' : Job),
    Job.draw_at_time 0 (job_at (after (j ← Scheduler.every 1; Job.between j "10:00-10:10")
                                  w_monday) 0)
      (after (j ← Scheduler.every 1; Job.between j "10:00-10:10") w_monday)
    = (Ok (Some t), w')
    /\ heap w' !! 0%nat = Some j'
    /\ at_time j' = Some t
    /\ time_us (Time 10 0 0 0) <= time_us t <= time_us (Time 10 10 0 0).
Proof.
  destruct (window_time_in_bounds
              (after (j ← Scheduler.every 1; Job.between j "10:00-10:10") w_monday) 0
              (job_at (after (j ← Scheduler.every 1; Job.between j "10:00-10:10") w_monday) 0)
              (job_at (after (j ← Scheduler.every 1; Job.between j "10:00-10:10") w_monday) 0)
              "10:00-10:10" (Datetime (ymd2ord 1900 1 1) (Time 10 0 0 0))
              (Datetime (ymd2ord 1900 1 1) (Time 10 10 0 0)))
    as (t & w' & j' & E & Hj' & Ht & _ & _ & _ & _ & _ & _ & _ & _ & Hin);
    [vm_compute; reflexivity..|].
  exists t, w', j'. split; [exact E|]. split; [exact Hj'|]. split; [exact Ht|exact Hin].
Defined.

(** ** Weekday names *)

Lemma WEEKDAYS_range (n : string) (i : Z) : (n, i) ∈ Job.WEEKDAYS -> 0 <= i <= 6.
Proof.
  unfold Job.WEEKDAYS. rewrite !elem_of_cons, elem_of_nil.
  intros [H|[H|[H|[H|[H|[H|[H|[]]]]]]]]; injection H as -> ->; lia.
Qed.

Lemma weeknums_of_valid (days : list string) : groups_valid (Job.weeknums_of days).
Proof.
  rewrite weeknums_of_filter.
  intros g [Hne Hin]%list_elem_of_filter. split; [exact Hne|].
  apply list_elem_of_fmap in Hin as (day & -> & _).
  intros i (d & n & _ & Hn & _)%elem_of_day_or_of. by apply (WEEKDAYS_range n).
Qed.

(** X4. The groups that [on()] stores are not empty and hold weekday numbers
    from 0 to 6 only, and there are at most as many groups as arguments. *)
Theorem on_groups_valid (days : list string) :
  groups_valid (Job.weeknums_of days)
  /\ (length (Job.weeknums_of days) <= length days)%nat.
Proof.
  split; [apply weeknums_of_valid|].
  rewrite weeknums_of_filter, <- (length_fmap Job.day_or_of days). apply length_filter.
Qed.

Lemma lower_ascii_idem (c : ascii) : lower_ascii (lower_ascii c) = lower_ascii c.
Proof. destruct c as [[] [] [] [] [] [] [] []]; reflexivity. Qed.

Lemma lower_ascii_bar (c : ascii) :
  Ascii.eqb (lower_ascii c) "|" = Ascii.eqb c "|".
Proof. destruct c as [[] [] [] [] [] [] [] []]; reflexivity. Qed.

Lemma lower_idem (s : string) : lower (lower s) = lower s.
Proof.
  induction s as [|c s IH]; cbn [lower]; [reflexivity|].
  by rewrite lower_ascii_idem, IH.
Qed.

Lemma split_lower (s : string) :
  split "|" (lower s) = lower <$> split "|" s.
Proof.
  induction s as [|c s IH]; cbn [lower split]; [reflexivity|].
  rewrite lower_ascii_bar, IH. destruct (Ascii.eqb c "|"); [reflexivity|].
  destruct (split "|" s) as [|p ps]; reflexivity.
Qed.

Lemma add_matches_lower (d : string) (acc : gset Z) :
  Job.add_matches (lower d) acc = Job.add_matches d acc.
Proof. unfold Job.add_matches. by rewrite lower_idem. Qed.

Lemma day_or_of_lower (day : string) :
  Job.day_or_of (lower day) = Job.day_or_of day.
Proof.
  unfold Job.day_or_of. rewrite split_lower.
  generalize (∅ : gset Z). induction (split "|" day) as [|d ds IH]; intros acc;
    cbn [foldl fmap list_fmap]; [reflexivity|].
  fold (lower <$> ds). by rewrite add_matches_lower, IH.
Qed.

(** X5. Weekday names are read without regard to case: lower-casing the
    arguments of [on()] gives the same groups and the same job. *)
Theorem on_ignores_case (w : World) (self : loc) (days : list string) :
  Job.weeknums_of (lower <$> days) = Job.weeknums_of days
  /\ Job.on self (lower <$> days) w = Job.on self days w.
Proof.
  assert (H : Job.weeknums_of (lower <$> days) = Job.weeknums_of days).
  { rewrite !weeknums_of_filter, <- list_fmap_compose. f_equal.
    apply list_fmap_ext. intros _ day _. apply day_or_of_lower. }
  split; [exact H|]. unfold Job.on. by rewrite H.
Qed.

(** ** Configuration calls *)

Lemma assert_inv (b : bool) (w w' : World) (r : result ()) :
  assert b w = (r, w') ->
  w' = w /\ (b = true /\ r = Ok () \/ b = false /\ r = Err AssertionError).
Proof. destruct b; intros [= <- <-]; split; auto. Qed.

(** X6. [at()] succeeds exactly on a job whose unit is days with a string
    whose two [:]-separated parts are integers for [int()], an hour from 0 to
    23 and a minute from 0 to 59; afterwards the [at_time] of the job is that
    time with second 0, and nothing else has changed. On a job with another
    unit, or none, it raises an [AssertionError] whatever the string and
    changes nothing. *)
Theorem at_accepts_valid_time (w : World) (self : loc) (j : Job) (s : string) :
  heap w !! self = Some j ->
  (forall h m,
     unit_ j = Some Days ->
     result_map py_int (split ":" s) = Ok [h; m] ->
     0 <= h <= 23 -> 0 <= m <= 59 ->
     exists (w' : World) (j' : Job),
       Job.at_ self s w = (Ok self, w')
       /\ updates self j' w w'
       /\ at_time j' = Some (Time h m 0 0)
       /\ j' = mkJob (interval j) (job_func j) (unit_ j) (Some (Time h m 0 0))
                 (between_times j) (run_days j) (start_run j) (last_run j)
                 (next_run j) (period j))
  /\ (forall l w',
        Job.at_ self s w = (Ok l, w') ->
        unit_ j = Some Days
        /\ exists h m,
             result_map py_int (split ":" s) = Ok [h; m]
             /\ 0 <= h <= 23 /\ 0 <= m <= 59
             /\ time_wf (Time h m 0 0)
             /\ at_time (job_at w' self) = Some (Time h m 0 0))
  /\ (unit_ j ≠ Some Days -> Job.at_ self s w = (Err AssertionError, w)).
Proof.
  intros Hj.
  assert (Hok : forall h m,
            unit_ j = Some Days ->
            result_map py_int (split ":" s) = Ok [h; m] ->
            0 <= h <= 23 -> 0 <= m <= 59 ->
            Job.at_ self s w
            = (Ok self,
               with_heap (<[self := set_at_time (Some (Time h m 0 0)) j]> (heap w)) w)).
  { intros h m Hu Hp Hh Hm. unfold Job.at_.
    rewrite (bind_ok _ _ _ _ _ (getj_ok _ _ _ Hj)).
    rewrite bool_decide_eq_true_2 by done.
    rewrite (bind_ok (assert true) _ w () w eq_refl), Hp.
    rewrite (bind_ok (lift (Ok _)) _ w _ w eq_refl).
    replace ((0 <=? h) && (h <=? 23)) with true by (symmetry; apply andb_true_intro; lia).
    replace ((0 <=? m) && (m <=? 59)) with true by (symmetry; apply andb_true_intro; lia).
    rewrite (bind_ok (assert true) _ w () w eq_refl).
    rewrite (bind_ok (assert true) _ w () w eq_refl).
    rewrite (bind_ok _ _ _ _ _ (setj_ok _ _ _ _ Hj)). reflexivity. }
  split; [|split].
  - intros h m Hu Hp Hh Hm. eexists _, _. split; [by apply Hok|].
    split.
    { split; [apply lookup_insert_eq|]. split; [|done].
      intros l Hl. cbn [heap with_heap]. by rewrite lookup_insert_ne. }
    by split.
  - intros l w' E. assert (E' := E). revert E'. unfold Job.at_.
    rewrite (bind_ok _ _ _ _ _ (getj_ok _ _ _ Hj)). rewrite bind_eq.
    destruct (bool_decide (unit_ j = Some Days)) eqn:Eu; [|discriminate].
    apply bool_decide_eq_true in Eu. cbn [assert mret M_ret].
    rewrite bind_eq.
    destruct (result_map py_int (split ":" s)) as [[|h [|m [|x parts]]]|e] eqn:Ep;
      cbn [lift]; try discriminate.
    rewrite bind_eq.
    destruct ((0 <=? h) && (h <=? 23)) eqn:Eh; [|discriminate]. cbn [assert mret M_ret].
    rewrite bind_eq.
    destruct ((0 <=? m) && (m <=? 59)) eqn:Em; [|discriminate]. cbn [assert mret M_ret].
    intros _. split; [exact Eu|]. exists h, m.
    apply andb_prop in Eh as [?%Z.leb_le ?%Z.leb_le].
    apply andb_prop in Em as [?%Z.leb_le ?%Z.leb_le].
    split; [reflexivity|]. do 2 (split; [lia|]). split.
    + unfold time_wf, US_PER_SECOND. cbn [hour minute second microsecond]. lia.
    + rewrite (Hok h m Eu eq_refl) in E by lia. injection E as _ <-.
      unfold job_at. cbn [heap with_heap]. by rewrite lookup_insert_eq.
  - intros Hu. unfold Job.at_.
    rewrite (bind_ok _ _ _ _ _ (getj_ok _ _ _ Hj)).
    rewrite bool_decide_eq_false_2 by done. reflexivity.
Qed.

Lemma at_accepts_valid_time_witness :
  (exists (w' : World) (j' : Job),
     Job.at_ 0 " 7:0_5" (after (j ← Scheduler.every 1; Job.days j) w_monday) = (Ok 0%nat, w')
     /\ heap w' !! 0%nat = Some j'
     /\ at_time j' = Some (Time 7 5 0 0))
  /\ Job.at_ 0 "10:30" (after (j ← Scheduler.every 1; Job.hours j) w_monday)
     = (Err AssertionError, after (j ← Scheduler.every 1; Job.hours j) w_monday).
Proof.
  split.
  - assert (H0 : heap (after (j ← Scheduler.every 1; Job.days j) w_monday) !! 0%nat
                 = Some (set_unit (Some Days) (Job_init 1))) by (vm_compute; reflexivity).
    destruct (proj1 (at_accepts_valid_time
                       (after (j ← Scheduler.every 1; Job.days j) w_monday) 0
                       (set_unit (Some Days) (Job_init 1)) " 7:0_5" H0) 7 5)
      as (w' & j' & E & (Hj' & _) & Ht & _);
      [vm_compute; reflexivity..| | |].
    + vm_compute. repeat split; discriminate.
    + vm_compute. repeat split; discriminate.
    + by exists w', j'.
  - refine (proj2 (proj2 (at_accepts_valid_time
                     (after (j ← Scheduler.every 1; Job.hours j) w_monday) 0
                     (set_unit (Some Hours) (Job_init 1)) "10:30" _)) _);
      [vm_compute; reflexivity|discriminate].
Defined.

(** [int()] strips white space, not the separators 28 to 31: ["\0287"] is
    refused, and so is the hour of [at("\0287:30")]. *)
Example int_separator_refused :
  py_int (String (ascii_of_nat 28) "7") = Err ValueError
  /\ py_int (String (ascii_of_nat 160) " 7 ") = Ok 7
  /\ (Job.at_ 0 (String (ascii_of_nat 28) "7:30")
        (after (j ← Scheduler.every 1; Job.days j) w_monday)).1 = Err ValueError.
Proof. vm_compute. repeat split. Qed.

Lemma bind_Err_same {A B} (m : M A) (k : A -> M B) (w w' : World) (e : exn) :
  (forall e1 w1, m w = (Err e1, w1) -> w1 = w) ->
  (forall a w1, m w = (Ok a, w1) -> w1 = w /\ forall e2 w2, k a w = (Err e2, w2) -> w2 = w) ->
  (m ≫= k) w = (Err e, w') -> w' = w.
Proof.
  intros He Ho. rewrite bind_eq. destruct (m w) as [[a|e1] w1] eqn:E.
  - destruct (Ho a w1 eq_refl) as [-> Hk]. apply Hk.
  - intros [= _ <-]. by apply (He e1).
Qed.

Lemma getj_same (l : loc) (w w' : World) (r : result Job) :
  getj l w = (r, w') -> w' = w.
Proof. unfold getj. destruct (heap w !! l); by intros [= _ <-]. Qed.

Lemma setj_Err_same (l : loc) (f : Job -> Job) (w w' : World) (e : exn) :
  setj l f w = (Err e, w') -> w' = w.
Proof. unfold setj. destruct (heap w !! l); [discriminate|by intros [= _ <-]]. Qed.

Lemma plural_Err_same (u : Unit) (self : loc) (w w' : World) (e : exn) :
  plural u self w = (Err e, w') -> w' = w.
Proof.
  destruct u; unfold plural, Job.seconds, Job.minutes, Job.hours, Job.days, Job.weeks;
    rewrite bind_eq;
    (destruct (setj self _ w) as [[a|e1] w1] eqn:E; [discriminate|]);
    intros [= _ <-]; by apply setj_Err_same in E.
Qed.

(** X7. A configuration call that raises changes nothing: after a failed
    singular unit accessor, [at()], [between()] or [starting()] the world is
    the one before the call. *)
Theorem config_failure_changes_nothing (w w' : World) (self : loc) (e : exn) :
  (forall u, singular u self w = (Err e, w') -> w' = w)
  /\ (forall s, Job.at_ self s w = (Err e, w') -> w' = w)
  /\ (forall s, Job.between self s w = (Err e, w') -> w' = w)
  /\ (forall s, Job.starting self s w = (Err e, w') -> w' = w).
Proof.
  split; [|split; [|split]].
  - intros u H.
    assert (Hs : singular u self
                 = (j ← getj self; assert (interval j =? 1);; plural u self))
      by (destruct u; reflexivity).
    rewrite Hs in H. clear Hs. revert H. rewrite bind_eq.
    destruct (getj self w) as [[j|e1] w1] eqn:E; apply getj_same in E as ->;
      [|by intros [= _ <-]].
    rewrite bind_eq. destruct (interval j =? 1); cbn [assert mret M_ret raise].
    + apply plural_Err_same.
    + by intros [= _ <-].
  - intros s. unfold Job.at_. rewrite bind_eq.
    destruct (getj self w) as [[j|e1] w1] eqn:E; apply getj_same in E as ->;
      [|by intros [= _ <-]].
    rewrite bind_eq. destruct (bool_decide _); cbn [assert mret M_ret raise];
      [|by intros [= _ <-]].
    rewrite bind_eq.
    destruct (result_map py_int (split ":" s)) as [parts|e1]; cbn [lift];
      [|by intros [= _ <-]].
    destruct parts as [|h [|m [|x parts]]]; try by intros [= _ <-].
    rewrite bind_eq. destruct (_ && _); cbn [assert mret M_ret raise];
      [|by intros [= _ <-]].
    rewrite bind_eq. destruct (_ && _); cbn [assert mret M_ret raise];
      [|by intros [= _ <-]].
    rewrite bind_eq.
    destruct (setj self _ w) as [[a|e1] w1] eqn:E; [discriminate|].
    intros [= _ <-]. by apply setj_Err_same in E.
  - intros s. unfold Job.between. rewrite bind_eq.
    destruct (result_map strptime_HM (split "-" s)) as [parts|e1]; cbn [lift];
      [|by intros [= _ <-]].
    destruct parts as [|a [|b [|x parts]]]; try by intros [= _ <-].
    rewrite bind_eq.
    destruct (setj self _ w) as [[u|e1] w1] eqn:E; [discriminate|].
    intros [= _ <-]. by apply setj_Err_same in E.
  - intros s. unfold Job.starting. rewrite bind_eq.
    destruct (strptime_Ymd s) as [d|e1]; cbn [lift]; [|by intros [= _ <-]].
    rewrite bind_eq.
    destruct (setj self _ w) as [[u|e1] w1] eqn:E; [discriminate|].
    intros [= _ <-]. by apply setj_Err_same in E.
Qed.

Lemma config_failure_changes_nothing_witness :
  singular Hours 0 (after (Scheduler.every 2) w_monday)
  = (Err AssertionError, after (Scheduler.every 2) w_monday)
  /\ after (Scheduler.every 2) w_monday = after (Scheduler.every 2) w_monday.
Proof.
  assert (H : singular Hours 0 (after (Scheduler.every 2) w_monday)
              = (Err AssertionError, after (Scheduler.every 2) w_monday))
    by (vm_compute; reflexivity).
  split; [exact H|].
  exact (proj1 (config_failure_changes_nothing
                  (after (Scheduler.every 2) w_monday)
                  (after (Scheduler.every 2) w_monday) 0 AssertionError) Hours H).
Defined.

(** X8. [do()] on a job without a unit raises the [AssertionError] of the
    recomputation after it has bound the work unit: afterwards the
    [job_func] of the job is the work unit, its [next_run] and its other
    fields are as before, and nothing else has changed. *)
Theorem do_without_unit (w : World) (self : loc) (j : Job) (f : string) :
  heap w !! self = Some j ->
  unit_ j = None ->
  exists (w' : World) (j' : Job),
    Job.do self f w = (Err AssertionError, w')
    /\ updates self j' w w'
    /\ job_func j' = Some f
    /\ next_run j' = next_run j
    /\ j' = mkJob (interval j) (Some f) (unit_ j) (at_time j) (between_times j)
              (run_days j) (start_run j) (last_run j) (next_run j) (period j).
Proof.
  intros Hj Hu. eexists _, _. split.
  - unfold Job.do.
    rewrite (bind_ok _ _ _ _ _ (setj_ok _ _ _ _ Hj)).
    rewrite bind_eq. unfold Job._schedule_next_run.
    erewrite (bind_ok (getj self)); [|apply getj_ok; apply lookup_insert_eq].
    cbn [unit_ set_job_func]. rewrite Hu. reflexivity.
  - split.
    { split; [apply lookup_insert_eq|]. split; [|done].
      intros l Hl. cbn [heap with_heap]. by rewrite lookup_insert_ne. }
    by split.
Qed.

Lemma do_without_unit_witness :
  exists (w' : World) (j' : Job),
    Job.do 0 "job" (after (Scheduler.every 1) w_monday) = (Err AssertionError, w')
    /\ heap w' !! 0%nat = Some j'
    /\ job_func j' = Some "job"%string
    /\ next_run j' = None.
Proof.
  destruct (do_without_unit (after (Scheduler.every 1) w_monday) 0 (Job_init 1) "job")
    as (w' & j' & E & (Hj' & _) & Hf & Hn & _); [vm_compute; reflexivity..|].
  by exists w', j'.
Defined.

(** ** Jobs with run days *)

Lemma with_draws_same (w : World) : with_draws (draws w + 0) w = w.
Proof. destruct w. unfold with_draws. cbn. by rewrite Nat.add_0_r. Qed.

(** A draw from a set that is not empty is one of its elements. *)
Lemma sample1_ok (s : gset Z) (w : World) :
  s ≠ ∅ ->
  exists x, sample1 s w = (Ok x, with_draws (S (draws w)) w) /\ x ∈ s.
Proof.
  intros Hs. unfold sample1. cbv zeta.
  pose proof (merge_sort_Permutation Z.le (elements s)) as Hp.
  destruct (merge_sort Z.le (elements s)) as [|x pop] eqn:E.
  - apply Permutation_nil_l in Hp. symmetry in Hp. apply elements_empty_inv in Hp.
    apply leibniz_equiv in Hp. done.
  - rewrite (bind_ok draw _ w _ _ eq_refl). eexists. split; [reflexivity|].
    apply elem_of_elements. rewrite <- Hp.
    apply list_elem_of_In, nth_In, Nat.mod_upper_bound. discriminate.
Qed.

(** The picks: one element of every group, added to the set. *)
Lemma pick_days_ok (gs : list (gset Z)) (acc : gset Z) (w : World) :
  (forall g, g ∈ gs -> g ≠ ∅) ->
  exists days,
    Job.pick_days gs acc w = (Ok days, with_draws (draws w + length gs) w)
    /\ (forall i, i ∈ days -> i ∈ acc \/ exists g, g ∈ gs /\ i ∈ g)
    /\ (forall i, i ∈ acc -> i ∈ days)
    /\ (gs ≠ [] -> days ≠ ∅)
    /\ (forall g, g ∈ gs -> exists i, i ∈ g /\ i ∈ days).
Proof.
  revert acc w. induction gs as [|g gs IH]; intros acc w Hne; cbn [Job.pick_days length].
  - exists acc. rewrite with_draws_same. split; [reflexivity|].
    split; [by left|]. split; [done|]. split; [done|].
    intros g Hg. by apply elem_of_nil in Hg.
  - destruct (sample1_ok g w) as (x & Ex & Hx); [apply Hne; left|].
    rewrite (bind_ok _ _ _ _ _ Ex).
    destruct (IH ({[x]} ∪ acc) (with_draws (S (draws w)) w))
      as (days & E & Hin & Hacc & _ & Hcover).
    { intros g' Hg'. apply Hne. by right. }
    exists days. split.
    + rewrite E. f_equal. unfold with_draws. cbn. f_equal. lia.
    + split; [|split].
      * intros i Hi. destruct (Hin i Hi) as [[->%elem_of_singleton|H]%elem_of_union|(g' & Hg' & H)].
        -- right. exists g. split; [left|done].
        -- by left.
        -- right. exists g'. split; [by right|done].
      * intros i Hi. apply Hacc. set_solver.
      * split.
        -- intros _ Hd. assert (x ∈ days) by (apply Hacc; set_solver). set_solver.
        -- intros g' [->|Hg']%elem_of_cons; [|by apply Hcover].
           exists x. split; [exact Hx|]. apply Hacc. set_solver.
Qed.

(** The smallest distance is the distance to one of the picked days. *)
Lemma closest_delta_pick (days : gset Z) (starting : datetime) :
  days ≠ ∅ ->
  exists i, i ∈ days
            /\ Job.closest_delta days starting = (i - isoweekday starting) mod 7.
Proof.
  intros Hd. unfold Job.closest_delta. rewrite bool_decide_eq_false_2 by done.
  cbv zeta.
  set (l := (fun i => (i - isoweekday starting) mod 7) <$> elements days).
  pose proof (merge_sort_Permutation Z.le l) as Hp.
  destruct (merge_sort Z.le l) as [|d ds] eqn:E.
  - apply Permutation_nil_l in Hp. symmetry in Hp. subst l. apply fmap_nil_inv in Hp.
    apply elements_empty_inv, leibniz_equiv in Hp. done.
  - assert (Hin : d ∈ l) by (rewrite <- Hp; left).
    apply list_elem_of_fmap in Hin as (i & -> & Hi%elem_of_elements).
    by exists i.
Qed.

Lemma isoweekday_mod (d : datetime) :
  1 <= isoweekday d <= 7 /\ isoweekday d mod 7 = toordinal d mod 7.
Proof.
  unfold isoweekday. cbv zeta. destruct (_ =? 0) eqn:E.
  - apply Z.eqb_eq in E. rewrite E. split; [lia|reflexivity].
  - apply Z.eqb_neq in E. pose proof (Z.mod_pos_bound (toordinal d) 7 ltac:(lia)).
    split; [lia|]. by rewrite Z.mod_mod.
Qed.

(** Going forward by the distance to weekday [i] lands on weekday [i]. *)
Lemma weekday_after_delta (d : datetime) (i : Z) :
  0 <= i <= 6 ->
  0 <= (i - isoweekday d) mod 7 <= 6
  /\ (toordinal d + (i - isoweekday d) mod 7) mod 7 = i.
Proof.
  intros Hi. destruct (isoweekday_mod d) as [Hr Hm]. revert Hm Hr.
  generalize (isoweekday d). intros iso Hm Hr.
  Z.div_mod_to_equations. lia.
Qed.

(** Lines 294-328 and 336-340 for a job with run days and no window: when
    the groups left in the working copy are not empty the weekdays are
    picked, and when the sum of line 328 is a date the recomputation
    succeeds with that date, at the time of day of the job if it has one. *)
Lemma schedule_run_days (w : World) (self : loc) (j : Job) (u : Unit)
    (per : timedelta) (base : datetime) :
  let anchor := default (clock w (ticks w)) (start_run j) in
  let starting := match last_run j with Some lr => lr | None => anchor end in
  let working := match last_run j with
                 | Some lr => filter (fun g => isoweekday lr ∉ g) (run_days j)
                 | None => run_days j
                 end in
  heap w !! self = Some j ->
  unit_ j = Some u ->
  run_days j ≠ [] ->
  between_times j = None ->
  Job.timedelta_unit u (interval j) = Ok per ->
  dt_add anchor per = Ok base ->
  (forall g, g ∈ working -> g ≠ ∅) ->
  exists days,
    (forall i, i ∈ days -> exists g, g ∈ working /\ i ∈ g)
    /\ (forall g, g ∈ working -> exists i, i ∈ g /\ i ∈ days)
    /\ (working ≠ [] -> days ≠ ∅)
    /\ (working = [] -> days = ∅)
    /\ forall nr,
         rbind (timedelta_days
                  (Job.no_second_run_today j u starting
                     (Job.closest_delta days starting)))
               (dt_add starting) = Ok nr ->
         exists w',
           Job._schedule_next_run self w = (Ok (), w')
           /\ heap w' !! self
              = Some (set_next_run
                        (Some (match at_time j with
                               | Some t => dt_replace nr (hour t) (minute t) (second t)
                               | None => nr
                               end))
                        (set_period (Some per) j))
           /\ calls w' = calls w /\ jobs w' = jobs w.
Proof.
  intros anchor starting working Hj Hu Hd Hb Hp Hbase Hne.
  set (w0 := match start_run j with Some _ => w | None => with_ticks (S (ticks w)) w end).
  set (w1 := with_heap (<[self := set_next_run (Some base) (set_period (Some per) j)]>
                          (heap w0)) w0).
  destruct (pick_days_ok working ∅ w1 Hne)
    as (days & Epick & Hin & _ & Hnonempty & Hcover).
  exists days. split; [|split; [exact Hcover|split; [exact Hnonempty|split]]].
  { intros i Hi. destruct (Hin i Hi) as [H|H]; [by apply not_elem_of_empty in H|done]. }
  { intros Hw. rewrite Hw in Epick. by injection Epick as <-. }
  intros nr Hnr.
  unfold Job._schedule_next_run.
  rewrite (bind_ok _ _ _ _ _ (getj_ok _ _ _ Hj)), Hu.
  rewrite (bind_ok (mret u) _ w u w eq_refl).
  assert (E0 : match start_run j with Some s => mret s | None => now end w
               = (Ok anchor, w0)).
  { subst anchor w0. by destruct (start_run j). }
  rewrite (bind_ok _ _ _ _ _ E0), Hp.
  rewrite (bind_ok (lift (Ok per)) _ w0 per w0 eq_refl).
  assert (Hj0 : heap w0 !! self = Some j) by (subst w0; by destruct (start_run j)).
  rewrite (bind_ok _ _ _ _ _ (setj_ok self _ w0 j Hj0)).
  rewrite Hbase, (bind_ok (lift (Ok base)) _ _ base _ eq_refl).
  rewrite (bind_ok _ _ _ _ _ (setj_ok _ _ _ _ (lookup_insert_eq _ _ _))).
  cbn [heap with_heap]. rewrite insert_insert_eq.
  change (with_heap (<[self := set_next_run (Some base) (set_period (Some per) j)]>
                       (heap w0))
            (with_heap (<[self := set_period (Some per) j]> (heap w0)) w0))
    with w1.
  destruct (run_days j) as [|g gs] eqn:Erd; [done|].
  assert (Eday : Job.next_run_day self j u anchor w1
                 = (Ok nr,
                    with_heap (<[self := set_next_run (Some nr) (set_period (Some per) j)]>
                                 (heap w0))
                      (with_draws (draws w1 + length working) w1))).
  { unfold Job.next_run_day. cbv zeta. rewrite Erd.
    assert (Erem : match last_run j with
                   | Some lr => Job.remove_ran (isoweekday lr) (g :: gs) (g :: gs)
                   | None => Ok (g :: gs)
                   end = Ok working).
    { subst working. destruct (last_run j); [apply remove_ran_filter|reflexivity]. }
    rewrite Erem, (bind_ok (lift (Ok working)) _ w1 _ w1 eq_refl).
    rewrite (bind_ok _ _ _ _ _ Epick).
    unfold starting in Hnr. rewrite Hnr.
    rewrite (bind_ok (lift (Ok nr)) _ _ nr _ eq_refl).
    erewrite (bind_ok (setj _ _)); [|apply setj_ok; apply lookup_insert_eq].
    unfold w1. cbn [heap with_heap with_draws].
    rewrite insert_insert_eq. reflexivity. }
  rewrite (bind_ok _ _ _ _ _ Eday).
  unfold Job.draw_at_time. rewrite Hb.
  rewrite (bind_ok (mret (at_time j)) _ _ _ _ eq_refl).
  assert (Hsame : calls w0 = calls w /\ jobs w0 = jobs w)
    by (subst w0; by destruct (start_run j)).
  destruct (at_time j) as [t|].
  - unfold Job.apply_at_time. cbv zeta.
    erewrite (bind_ok (setj _ _)); [|apply setj_ok; apply lookup_insert_eq].
    rewrite Erd.
    eexists. split; [by destruct (last_run j)|].
    cbn [heap with_heap]. rewrite insert_insert_eq.
    split; [apply lookup_insert_eq|exact Hsame].
  - eexists. split; [reflexivity|]. split; [apply lookup_insert_eq|exact Hsame].
Qed.

(** X9. The first scheduling of a job with run days and no window: the
    recomputation succeeds and puts [next_run] on a day, from the anchor's
    day on and at most six days later, whose weekday belongs to one of the
    groups; the time of day is the one of the job when it has one and
    the one of the anchor otherwise. *)
Theorem weekday_job_first_run (w : World) (self : loc) (j : Job) (u : Unit)
    (per : timedelta) (base : datetime) :
  heap w !! self = Some j ->
  unit_ j = Some u ->
  last_run j = None ->
  run_days j ≠ [] ->
  groups_valid (run_days j) ->
  between_times j = None ->
  Job.timedelta_unit u (interval j) = Ok per ->
  dt_add (default (clock w (ticks w)) (start_run j)) per = Ok base ->
  datetime_wf (default (clock w (ticks w)) (start_run j)) ->
  toordinal (default (clock w (ticks w)) (start_run j)) + 6 <= MAXORDINAL ->
  exists w' j' nr,
    Job._schedule_next_run self w = (Ok (), w')
    /\ heap w' !! self = Some j'
    /\ next_run j' = Some nr
    /\ (exists g, g ∈ run_days j /\ weekday_id nr ∈ g)
    /\ toordinal (default (clock w (ticks w)) (start_run j)) <= toordinal nr
       <= toordinal (default (clock w (ticks w)) (start_run j)) + 6
    /\ timeof nr = match at_time j with
                   | Some t => Time (hour t) (minute t) (second t) 0
                   | None => timeof (default (clock w (ticks w)) (start_run j))
                   end.
Proof.
  intros Hj Hu Hl Hd Hv Hb Hp Hbase Hwf Hmax.
  set (anchor := default (clock w (ticks w)) (start_run j)) in *.
  destruct (schedule_run_days w self j u per base Hj Hu Hd Hb Hp Hbase)
    as (days & Hin & _ & Hne & _ & Hrun).
  { rewrite Hl. intros g Hg. by apply Hv. }
  rewrite Hl in Hin, Hne, Hrun.
  destruct (closest_delta_pick days anchor (Hne Hd)) as (i & Hi & Edelta).
  destruct (Hin i Hi) as (g & Hg & Hig).
  destruct (weekday_after_delta anchor i) as [Hrange Hday]; [by apply (Hv g Hg)|].
  assert (Eno : Job.no_second_run_today j u anchor (Job.closest_delta days anchor)
                = (i - isoweekday anchor) mod 7).
  { unfold Job.no_second_run_today. rewrite Hl, andb_false_r. exact Edelta. }
  destruct (timedelta_days_ok ((i - isoweekday anchor) mod 7)) as (td & Etd & Hus); [lia|].
  destruct (Hrun (Datetime (toordinal anchor + (i - isoweekday anchor) mod 7)
                           (timeof anchor)))
    as (w' & E & Hh & _).
  { fold anchor. rewrite Eno, Etd. cbn [rbind]. apply dt_add_days; [done|done|].
    destruct Hwf as [[? ?] _]. lia. }
  eexists w', _, _. split; [exact E|]. split; [exact Hh|]. split; [reflexivity|].
  destruct (at_time j) as [t|]; unfold weekday_id, dt_replace; cbn [toordinal timeof].
  - split; [exists g; split; [done|]; by rewrite Hday|].
    split; [lia|reflexivity].
  - split; [exists g; split; [done|]; by rewrite Hday|].
    split; [lia|reflexivity].
Qed.

Lemma weekday_job_first_run_witness :
  exists w' j' nr,
    Job._schedule_next_run 0 (after (Scheduler.on ["wed|fri"; "sat"]%string) w_monday)
    = (Ok (), w')
    /\ heap w' !! 0%nat = Some j'
    /\ next_run j' = Some nr
    /\ (exists g, g ∈ Job.weeknums_of ["wed|fri"; "sat"]%string /\ weekday_id nr ∈ g)
    /\ toordinal monday_8 <= toordinal nr <= toordinal monday_8 + 6
    /\ timeof nr = timeof monday_8.
Proof.
  refine (weekday_job_first_run
            (after (Scheduler.on ["wed|fri"; "sat"]%string) w_monday) 0
            (job_at (after (Scheduler.on ["wed|fri"; "sat"]%string) w_monday) 0)
            Days (Timedelta 1 0 0) (mkdt 2024 6 4 8 0 0) _ _ _ _ _ _ _ _ _ _);
    try (vm_compute; reflexivity).
  - vm_compute. discriminate.
  - change (groups_valid (Job.weeknums_of ["wed|fri"; "sat"]%string)).
    apply weeknums_of_valid.
  - vm_compute. repeat split; discriminate.
  - vm_compute. discriminate.
Defined.

(** X10. The recomputation after a run of a job with unit days, run days and
    no window puts [next_run] one to seven days after the day of the run,
    never on that day. When groups are left after the removal, its weekday
    belongs to one of them; when none is left, it is seven days later. *)
Theorem weekday_job_rerun (w : World) (self : loc) (j : Job) (lr : datetime)
    (per : timedelta) (base : datetime) :
  heap w !! self = Some j ->
  unit_ j = Some Days ->
  last_run j = Some lr ->
  run_days j ≠ [] ->
  groups_valid (run_days j) ->
  between_times j = None ->
  Job.timedelta_unit Days (interval j) = Ok per ->
  dt_add (default (clock w (ticks w)) (start_run j)) per = Ok base ->
  datetime_wf lr ->
  toordinal lr + 7 <= MAXORDINAL ->
  exists w' j' nr,
    Job._schedule_next_run self w = (Ok (), w')
    /\ heap w' !! self = Some j'
    /\ next_run j' = Some nr
    /\ (toordinal lr < toordinal nr /\ toordinal nr <= toordinal lr + 7)
    /\ (filter (fun g => isoweekday lr ∉ g) (run_days j) = [] ->
        toordinal nr = toordinal lr + 7)
    /\ (filter (fun g => isoweekday lr ∉ g) (run_days j) ≠ [] ->
        exists g, g ∈ run_days j /\ (isoweekday lr ∉ g) /\ weekday_id nr ∈ g)
    /\ timeof nr = match at_time j with
                   | Some t => Time (hour t) (minute t) (second t) 0
                   | None => timeof lr
                   end.
Proof.
  intros Hj Hu Hl Hd Hv Hb Hp Hbase Hwf Hmax.
  destruct (schedule_run_days w self j Days per base Hj Hu Hd Hb Hp Hbase)
    as (days & Hin & _ & Hne & Hempty & Hrun).
  { rewrite Hl. intros g [_ Hg]%list_elem_of_filter. by apply Hv. }
  rewrite Hl in Hin, Hne, Hempty, Hrun.
  set (working := filter (fun g => isoweekday lr ∉ g) (run_days j)) in *.
  assert (Hord : 1 <= toordinal lr) by apply Hwf.
  (* the number of days added, and the weekday reached *)
  assert (Hd7 : exists d,
             Job.no_second_run_today j Days lr (Job.closest_delta days lr) = d
             /\ (1 <= d /\ d <= 7)
             /\ (working = [] -> d = 7)
             /\ (working ≠ [] ->
                 exists g, g ∈ run_days j /\ (isoweekday lr ∉ g)
                           /\ (toordinal lr + d) mod 7 ∈ g)).
  { unfold Job.no_second_run_today. rewrite Hl, Z.eqb_refl, andb_true_r.
    destruct (decide (working = [])) as [Hw|Hw].
    - rewrite (Hempty Hw). unfold Job.closest_delta.
      rewrite bool_decide_eq_true_2 by done. cbn.
      exists 7. repeat split; try lia; done.
    - destruct (closest_delta_pick days lr (Hne Hw)) as (i & Hi & ->).
      destruct (Hin i Hi) as (g & [Hnot Hg]%list_elem_of_filter & Hig).
      destruct (weekday_after_delta lr i) as [Hrange Hday]; [by apply (Hv g Hg)|].
      destruct ((i - isoweekday lr) mod 7 =? 0) eqn:E0.
      + apply Z.eqb_eq in E0. exists 7.
        split; [reflexivity|]. split; [lia|]. split; [done|].
        intros _. exists g. split; [done|]. split; [done|].
        rewrite E0, Z.add_0_r in Hday.
        replace ((toordinal lr + 7) mod 7) with (toordinal lr mod 7)
          by (Z.div_mod_to_equations; lia).
        by rewrite Hday.
      + apply Z.eqb_neq in E0. eexists.
        split; [reflexivity|]. split; [lia|]. split; [done|].
        intros _. exists g. split; [done|]. split; [done|]. by rewrite Hday. }
  destruct Hd7 as (d & Ed & Hd17 & Hd7 & Hdg).
  destruct (timedelta_days_ok d) as (td & Etd & Hus); [lia|].
  destruct (Hrun (Datetime (toordinal lr + d) (timeof lr))) as (w' & E & Hh & _).
  { rewrite Ed, Etd. cbn [rbind]. apply dt_add_days; [done|done|lia]. }
  eexists w', _, _. split; [exact E|]. split; [exact Hh|]. split; [reflexivity|].
  destruct (at_time j) as [t|]; unfold weekday_id, dt_replace; cbn [toordinal timeof];
    (split; [lia|]); (split; [intros Hw; by rewrite (Hd7 Hw)|]);
    (split; [exact Hdg|reflexivity]).
Qed.

Lemma weekday_job_rerun_witness :
  exists w' j' nr,
    Job._schedule_next_run 0
      (after (j ← Scheduler.on ["mon"; "wed"]%string; j ← Job.do j "job"; Job.run j)
         w_monday)
    = (Ok (), w')
    /\ heap w' !! 0%nat = Some j'
    /\ next_run j' = Some nr
    /\ (toordinal monday_8 < toordinal nr /\ toordinal nr <= toordinal monday_8 + 7)
    /\ (filter (fun g => isoweekday monday_8 ∉ g)
               (Job.weeknums_of ["mon"; "wed"]%string) = [] ->
        toordinal nr = toordinal monday_8 + 7)
    /\ (filter (fun g => isoweekday monday_8 ∉ g)
               (Job.weeknums_of ["mon"; "wed"]%string) ≠ [] ->
        exists g, g ∈ Job.weeknums_of ["mon"; "wed"]%string
                  /\ (isoweekday monday_8 ∉ g) /\ weekday_id nr ∈ g)
    /\ timeof nr = timeof monday_8.
Proof.
  refine (weekday_job_rerun
            (after (j ← Scheduler.on ["mon"; "wed"]%string; j ← Job.do j "job"; Job.run j)
               w_monday) 0
            (job_at (after (j ← Scheduler.on ["mon"; "wed"]%string; j ← Job.do j "job";
                            Job.run j) w_monday) 0)
            monday_8 (Timedelta 1 0 0) (mkdt 2024 6 4 8 0 0) _ _ _ _ _ _ _ _ _ _);
    try (vm_compute; reflexivity).
  - vm_compute. discriminate.
  - change (groups_valid (Job.weeknums_of ["mon"; "wed"]%string)).
    apply weeknums_of_valid.
  - vm_compute. repeat split; discriminate.
  - vm_compute. discriminate.
Defined.

(** ** The order of jobs *)

Lemma dt_lt_iff (a b : datetime) :
  dt_lt a b = true
  <-> toordinal a < toordinal b
      \/ toordinal a = toordinal b
         /\ (hour (timeof a) < hour (timeof b)
             \/ hour (timeof a) = hour (timeof b)
                /\ (minute (timeof a) < minute (timeof b)
                    \/ minute (timeof a) = minute (timeof b)
                       /\ (second (timeof a) < second (timeof b)
                           \/ second (timeof a) = second (timeof b)
                              /\ microsecond (timeof a) < microsecond (timeof b)))).
Proof.
  unfold dt_lt, dt_cmp, time_cmp, lex.
  destruct (Z.compare_spec (toordinal a) (toordinal b)); [|split; [lia|done]|split; [done|lia]].
  destruct (Z.compare_spec (hour (timeof a)) (hour (timeof b)));
    [|split; [lia|done]|split; [done|lia]].
  destruct (Z.compare_spec (minute (timeof a)) (minute (timeof b)));
    [|split; [lia|done]|split; [done|lia]].
  destruct (Z.compare_spec (second (timeof a)) (second (timeof b)));
    [|split; [lia|done]|split; [done|lia]].
  destruct (Z.compare_spec (microsecond (timeof a)) (microsecond (timeof b)));
    split; (done || lia).
Qed.

Lemma dt_lt_false_iff (a b : datetime) :
  dt_lt a b = false <-> ~ (dt_lt a b = true).
Proof. destruct (dt_lt a b); split; (done || congruence). Qed.

(** [<] on dates is a strict total order. *)
Lemma dt_lt_asym (a b : datetime) : dt_lt a b = true -> dt_lt b a = false.
Proof. rewrite dt_lt_false_iff, !dt_lt_iff. lia. Qed.

Lemma dt_le_trans (a b c : datetime) :
  dt_lt b a = false -> dt_lt c b = false -> dt_lt c a = false.
Proof. rewrite !dt_lt_false_iff, !dt_lt_iff. lia. Qed.

Lemma dt_le_refl (a : datetime) : dt_lt a a = false.
Proof. rewrite dt_lt_false_iff, dt_lt_iff. lia. Qed.

Lemma lt_configured (a b : loc) (w : World) (ja jb : Job) (x y : datetime) :
  heap w !! a = Some ja -> next_run ja = Some x ->
  heap w !! b = Some jb -> next_run jb = Some y ->
  Job.lt a b w = (Ok (dt_lt x y), w).
Proof.
  intros Ha Hx Hb Hy. unfold Job.lt.
  rewrite (bind_ok _ _ _ _ _ (getj_ok _ _ _ Ha)).
  rewrite (bind_ok _ _ _ _ _ (getj_ok _ _ _ Hb)).
  by rewrite Hx, Hy.
Qed.

Lemma job_at_lookup (w : World) (l : loc) (j : Job) :
  heap w !! l = Some j -> job_at w l = j.
Proof. intros H. unfold job_at. by rewrite H. Qed.

(** [min] over scheduled jobs: the result is one of them and none of them
    is before it. *)
Lemma min_from_configured (rest : list loc) (best : loc) (w : World) :
  configured w best ->
  (forall l, l ∈ rest -> configured w l) ->
  exists m,
    Scheduler.min_from best rest w = (Ok m, w)
    /\ m ∈ best :: rest
    /\ (not_after w best best -> forall l, l ∈ best :: rest -> not_after w m l).
Proof.
  revert best. induction rest as [|x rest IH]; intros best Hb Hall; cbn [Scheduler.min_from].
  - exists best. split; [reflexivity|]. split; [left|].
    intros Hbb l ->%list_elem_of_singleton. exact Hbb.
  - destruct Hb as (jb & nb & Hjb & Hnb).
    destruct (Hall x) as (jx & nx & Hjx & Hnx); [left|].
    rewrite (bind_ok _ _ _ _ _ (lt_configured x best w jx jb nx nb Hjx Hnx Hjb Hnb)).
    destruct (dt_lt nx nb) eqn:E.
    + destruct (IH x) as (m & Em & Hm & Hmin).
      { by exists jx, nx. }
      { intros l Hl. apply Hall. by right. }
      exists m. split; [exact Em|]. split; [by right|].
      intros _ l Hl.
      assert (Hxx : not_after w x x).
      { intros a b. rewrite (job_at_lookup w x jx Hjx), Hnx.
        intros [= <-] [= <-]. apply dt_le_refl. }
      apply elem_of_cons in Hl as [->|Hl]; [|by apply Hmin].
      (* [m] is not after [x], and [x] is before [best] *)
      intros a b Ha. rewrite (job_at_lookup w best jb Hjb), Hnb. intros [= <-].
      specialize (Hmin Hxx x ltac:(left) a nx Ha).
      rewrite (job_at_lookup w x jx Hjx) in Hmin. specialize (Hmin Hnx).
      apply (dt_le_trans a nx nb Hmin). by apply dt_lt_asym.
    + destruct (IH best) as (m & Em & Hm & Hmin).
      { by exists jb, nb. }
      { intros l Hl. apply Hall. by right. }
      exists m. split; [exact Em|].
      split; [apply elem_of_cons in Hm as [->|Hm]; [left|right; by right]|].
      intros Hbb l Hl.
      apply elem_of_cons in Hl as [->|[->|Hl]%elem_of_cons].
      * apply Hmin; [done|left].
      * intros a b Ha. rewrite (job_at_lookup w x jx Hjx), Hnx. intros [= <-].
        specialize (Hmin Hbb best ltac:(left) a nb Ha).
        rewrite (job_at_lookup w best jb Hjb) in Hmin. specialize (Hmin Hnb).
        by apply (dt_le_trans a nb nx Hmin).
      * apply Hmin; [done|by right].
Qed.

(** The smallest job of [min] on a registry of scheduled jobs. *)
Lemma next_run_earliest (w : World) :
  jobs w ≠ [] ->
  (forall l, l ∈ jobs w -> configured w l) ->
  exists d,
    Scheduler.next_run w = (Ok (Some d), w)
    /\ (exists l j, l ∈ jobs w /\ heap w !! l = Some j /\ next_run j = Some d)
    /\ (forall l j nr, l ∈ jobs w -> heap w !! l = Some j -> next_run j = Some nr ->
          dt_lt nr d = false).
Proof.
  intros Hne Hall. unfold Scheduler.next_run.
  rewrite (bind_ok get_jobs _ w (jobs w) w eq_refl).
  destruct (jobs w) as [|x rest] eqn:E; [done|].
  destruct (min_from_configured rest x w) as (m & Em & Hm & Hmin).
  { apply Hall. left. }
  { intros l Hl. apply Hall. by right. }
  destruct (Hall m Hm) as (jm & d & Hjm & Hd).
  rewrite (bind_ok _ _ _ _ _ Em), (bind_ok _ _ _ _ _ (getj_ok _ _ _ Hjm)), Hd.
  exists d. split; [reflexivity|]. split; [by exists m, jm|].
  intros l j nr Hl Hj Hnr.
  assert (Hxx : not_after w x x).
  { destruct (Hall x ltac:(left)) as (jx & nx & Hjx & Hnx).
    intros a b. rewrite (job_at_lookup w x jx Hjx), Hnx.
    intros [= <-] [= <-]. apply dt_le_refl. }
  apply (Hmin Hxx l Hl d nr).
  - by rewrite (job_at_lookup w m jm Hjm).
  - by rewrite (job_at_lookup w l j Hj).
Qed.

(** X11. On a registry that is not empty and whose jobs are all scheduled,
    the [next_run] query returns the [next_run] of a registered job, and no
    registered job has an earlier one. *)
Theorem next_run_is_minimum (w : World) :
  jobs w ≠ [] ->
  (forall l, l ∈ jobs w -> configured w l) ->
  exists d,
    Scheduler.next_run w = (Ok (Some d), w)
    /\ (exists l j, l ∈ jobs w /\ heap w !! l = Some j /\ next_run j = Some d)
    /\ (forall l j nr, l ∈ jobs w -> heap w !! l = Some j -> next_run j = Some nr ->
          dt_lt nr d = false).
Proof. exact (next_run_earliest w). Qed.

Lemma next_run_is_minimum_witness :
  exists d,
    Scheduler.next_run (after two_jobs w_monday) = (Ok (Some d), after two_jobs w_monday)
    /\ (exists l j, l ∈ jobs (after two_jobs w_monday)
                    /\ heap (after two_jobs w_monday) !! l = Some j
                    /\ next_run j = Some d)
    /\ (forall l j nr, l ∈ jobs (after two_jobs w_monday) ->
          heap (after two_jobs w_monday) !! l = Some j -> next_run j = Some nr ->
          dt_lt nr d = false).
Proof.
  apply (next_run_is_minimum (after two_jobs w_monday)).
  - vm_compute. discriminate.
  - intros l Hl. vm_compute in Hl.
    apply elem_of_cons in Hl as [->|Hl]; [vm_compute; eauto|].
    apply list_elem_of_singleton in Hl as ->. vm_compute; eauto.
Defined.

(** ** The sweeps *)

Lemma not_after_spec (w : World) (a b : loc) (ja jb : Job) (x y : datetime) :
  heap w !! a = Some ja -> next_run ja = Some x ->
  heap w !! b = Some jb -> next_run jb = Some y ->
  not_after w a b <-> dt_lt y x = false.
Proof.
  intros Ha Hx Hb Hy. unfold not_after.
  rewrite (job_at_lookup w a ja Ha), (job_at_lookup w b jb Hb), Hx, Hy. split.
  - intros H. by apply H.
  - by intros H ? ? [= <-] [= <-].
Qed.

Lemma not_after_trans (w : World) (a b c : loc) :
  configured w b -> not_after w a b -> not_after w b c -> not_after w a c.
Proof.
  intros (jb & nb & Hjb & Hnb) Hab Hbc x z Hx Hz.
  specialize (Hab x nb Hx). specialize (Hbc nb z).
  rewrite (job_at_lookup w b jb Hjb) in Hab, Hbc.
  apply (dt_le_trans x nb z); auto.
Qed.

(** Insertion into a sorted list of scheduled jobs. *)
Lemma insert_sorted_configured (x : loc) (l : list loc) (w : World) :
  configured w x ->
  (forall y, y ∈ l -> configured w y) ->
  StronglySorted (not_after w) l ->
  exists r,
    Scheduler.insert_sorted x l w = (Ok r, w)
    /\ r ≡ₚ x :: l
    /\ StronglySorted (not_after w) r.
Proof.
  intros Hx. induction l as [|y l IH]; intros Hall Hs; cbn [Scheduler.insert_sorted].
  - exists [x]. split; [reflexivity|]. split; [done|].
    constructor; [constructor|constructor].
  - destruct Hx as (jx & nx & Hjx & Hnx).
    destruct (Hall y) as (jy & ny & Hjy & Hny); [left|].
    rewrite (bind_ok _ _ _ _ _ (lt_configured y x w jy jx ny nx Hjy Hny Hjx Hnx)).
    apply StronglySorted_inv in Hs as [Hs Hy].
    destruct (dt_lt ny nx) eqn:E.
    + destruct IH as (r & Er & Hp & Hr); [intros z Hz; apply Hall; by right|done|].
      rewrite (bind_ok _ _ _ _ _ Er).
      exists (y :: r). split; [reflexivity|].
      split; [rewrite Hp; apply Permutation_swap|].
      constructor; [exact Hr|].
      rewrite Hp. constructor; [|exact Hy].
      apply (not_after_spec w y x jy jx ny nx Hjy Hny Hjx Hnx). by apply dt_lt_asym.
    + exists (x :: y :: l). split; [reflexivity|]. split; [done|].
      assert (Hxy : not_after w x y)
        by (by apply (not_after_spec w x y jx jy nx ny Hjx Hnx Hjy Hny)).
      constructor; [by constructor|].
      constructor; [exact Hxy|].
      eapply Forall_impl; [exact Hy|]. intros z Hz.
      apply (not_after_trans w x y z); [by exists jy, ny|done|done].
Qed.

(** [sorted] on scheduled jobs: the same jobs, none before an earlier one. *)
Lemma sorted_configured (l : list loc) (w : World) :
  (forall y, y ∈ l -> configured w y) ->
  exists r,
    Scheduler.sorted l w = (Ok r, w)
    /\ r ≡ₚ l
    /\ StronglySorted (not_after w) r.
Proof.
  induction l as [|x l IH]; intros Hall; cbn [Scheduler.sorted].
  - exists []. split; [reflexivity|]. split; [done|constructor].
  - destruct IH as (r & Er & Hp & Hr); [intros z Hz; apply Hall; by right|].
    rewrite (bind_ok _ _ _ _ _ Er).
    destruct (insert_sorted_configured x r w) as (r' & Er' & Hp' & Hr'); [apply Hall; left| |done|].
    { intros y Hy. apply Hall. right. by rewrite <- Hp. }
    exists r'. split; [exact Er'|]. split; [by rewrite Hp', Hp|exact Hr'].
Qed.

Lemma with_ticks_same (w : World) : with_ticks (ticks w + 0) w = w.
Proof. destruct w. unfold with_ticks. cbn. by rewrite Nat.add_0_r. Qed.

Lemma due_jobs_with_ticks (w : World) (n k : nat) (js : list loc) :
  due_jobs (with_ticks n w) k js = due_jobs w k js.
Proof.
  revert k. induction js as [|x js IH]; intros k; cbn [due_jobs]; [reflexivity|].
  by rewrite !IH.
Qed.

(** The generator of line 59 on scheduled jobs. *)
Lemma runnable_jobs_configured (js : list loc) (w : World) :
  (forall l, l ∈ js -> configured w l) ->
  Scheduler.runnable_jobs js w
  = (Ok (due_jobs w (ticks w) js), with_ticks (ticks w + length js) w).
Proof.
  revert w. induction js as [|l js IH]; intros w Hall;
    cbn [Scheduler.runnable_jobs due_jobs length].
  - by rewrite with_ticks_same.
  - destruct (Hall l) as (j & nr & Hj & Hnr); [left|].
    rewrite (bind_ok _ _ _ _ _ (should_run_configured l j nr w Hj Hnr)).
    rewrite bind_eq.
    rewrite IH by (intros x Hx; destruct (Hall x) as (? & ? & ? & ?); [by right|by eexists _, _]).
    rewrite (job_at_lookup w l j Hj), Hnr.
    rewrite due_jobs_with_ticks. cbn [ticks with_ticks].
    cbn [mret M_ret].
    f_equal. unfold with_ticks. cbn. f_equal. lia.
Qed.

(** ** Computations that invoke no work unit *)

Lemma keeps_calls_ret {A} (a : A) : keeps_calls (mret a).
Proof. by intros w. Qed.

Lemma keeps_calls_raise {A} (e : exn) : keeps_calls (raise e : M A).
Proof. by intros w. Qed.

Lemma keeps_calls_lift {A} (r : result A) : keeps_calls (lift r).
Proof. by intros w. Qed.

Lemma keeps_calls_bind {A B} (m : M A) (k : A -> M B) :
  keeps_calls m -> (forall a, keeps_calls (k a)) -> keeps_calls (m ≫= k).
Proof.
  intros Hm Hk w. rewrite bind_eq. specialize (Hm w).
  destruct (m w) as [[a|e] w1]; [|exact Hm].
  cbn [snd] in Hm. by rewrite Hk, Hm.
Qed.

Lemma keeps_calls_getj (l : loc) : keeps_calls (getj l).
Proof. intros w. unfold getj. by destruct (heap w !! l). Qed.

Lemma keeps_calls_setj (l : loc) (f : Job -> Job) : keeps_calls (setj l f).
Proof. intros w. unfold setj. by destruct (heap w !! l). Qed.

Lemma keeps_calls_now : keeps_calls now.
Proof. by intros w. Qed.

Lemma keeps_calls_draw : keeps_calls draw.
Proof. by intros w. Qed.

Lemma keeps_calls_randint (a b : Z) : keeps_calls (randint a b).
Proof.
  unfold randint. destruct (b <? a); [apply keeps_calls_raise|].
  apply keeps_calls_bind; [apply keeps_calls_draw|]. intros r. apply keeps_calls_ret.
Qed.

Lemma keeps_calls_sample1 (s : gset Z) : keeps_calls (sample1 s).
Proof.
  unfold sample1. cbv zeta. destruct (merge_sort _ _); [apply keeps_calls_raise|].
  apply keeps_calls_bind; [apply keeps_calls_draw|]. intros r. apply keeps_calls_ret.
Qed.

Lemma keeps_calls_sleep (d : Z) : keeps_calls (sleep d).
Proof. unfold sleep. destruct (_ <? Z.abs d); [done|]. by destruct (d <? 0). Qed.

Create HintDb keeps_calls.
#[export] Hint Resolve keeps_calls_ret keeps_calls_raise keeps_calls_lift
  keeps_calls_getj keeps_calls_setj keeps_calls_now keeps_calls_draw
  keeps_calls_randint keeps_calls_sample1 keeps_calls_sleep : keeps_calls.

Ltac keeps_calls_step :=
  match goal with
  | |- keeps_calls (_ ≫= _) => apply keeps_calls_bind; [|intros ?]
  | |- keeps_calls (match ?x with _ => _ end) => destruct x
  | |- keeps_calls (if ?b then _ else _) => destruct b
  | |- keeps_calls _ => solve [auto with keeps_calls]
  end.

Lemma keeps_calls_pick_days (run_days : list (gset Z)) (days : gset Z) :
  keeps_calls (Job.pick_days run_days days).
Proof.
  revert days. induction run_days as [|day rest IH]; intros days; cbn [Job.pick_days].
  - apply keeps_calls_ret.
  - apply keeps_calls_bind; [apply keeps_calls_sample1|]. intros i. apply IH.
Qed.

Lemma keeps_calls_schedule_next_run (self : loc) :
  keeps_calls (Job._schedule_next_run self).
Proof.
  unfold Job._schedule_next_run, Job.next_run_day, Job.draw_at_time,
    Job.apply_at_time.
  repeat first [apply keeps_calls_pick_days | keeps_calls_step].
Qed.

(** A run invokes the work unit of its job once, or fails before. *)
Lemma run_calls (self : loc) (w : World) :
  calls (Job.run self w).2 = calls w ++ [self]
  \/ calls (Job.run self w).2 = calls w /\ is_Err (Job.run self w).1.
Proof.
  unfold Job.run, call_job_func. rewrite bind_eq, bind_eq.
  pose proof (keeps_calls_getj self w) as Hg.
  destruct (getj self w) as [[j|e] w0] eqn:Eg; cbn [snd] in Hg; [|by right].
  apply getj_inv in Eg as [_ ->].
  destruct (job_func j); [|by right].
  unfold invoke. cbv zeta. destruct (outcome w _); [by left|].
  left.
  pose proof (keeps_calls_bind now
                (fun n => setj self (set_last_run (Some n)) ≫= fun _ =>
                          Job._schedule_next_run self)) as H.
  rewrite H; [reflexivity|apply keeps_calls_now|].
  intros n. apply keeps_calls_bind; [apply keeps_calls_setj|].
  intros _. apply keeps_calls_schedule_next_run.
Qed.

(** The invocation of a run: the work unit of the job when it has one,
    whatever happens afterwards. *)
Lemma run_calls_invoked (self : loc) (w : World) :
  calls (Job.run self w).2 = calls w ++ invoked w self.
Proof.
  unfold invoked, job_at.
  destruct (run_calls self w) as [Hc|[Hc He]].
  - rewrite Hc. revert Hc. unfold Job.run, call_job_func. rewrite !bind_eq. unfold getj.
    destruct (heap w !! self) as [j|]; cbn [default from_option id].
    + destruct (job_func j); [done|].
      cbn [raise snd]. intros H. apply (f_equal length) in H.
      rewrite length_app in H. cbn in H. lia.
    + cbn [snd]. intros H. apply (f_equal length) in H.
      rewrite length_app in H. cbn in H. lia.
  - rewrite Hc. revert Hc He. unfold Job.run, call_job_func. rewrite !bind_eq. unfold getj.
    destruct (heap w !! self) as [j|]; cbn [default from_option id Job_init job_func];
      [|by rewrite app_nil_r].
    destruct (job_func j); [|by rewrite app_nil_r].
    unfold invoke. cbv zeta. destruct (outcome w _).
    + cbn [snd calls with_calls]. intros H. apply (f_equal length) in H.
      rewrite length_app in H. cbn in H. lia.
    + intros H _. exfalso. revert H.
      pose proof (keeps_calls_bind now
                    (fun n => setj self (set_last_run (Some n)) ≫= fun _ =>
                              Job._schedule_next_run self)) as Hk.
      rewrite Hk; [|apply keeps_calls_now|].
      * cbn [calls with_calls]. intros H. apply (f_equal length) in H.
        rewrite length_app in H. cbn in H. lia.
      * intros n. apply keeps_calls_bind; [apply keeps_calls_setj|].
        intros _. apply keeps_calls_schedule_next_run.
Qed.

Lemma run_ok_calls (self : loc) (w w' : World) :
  Job.run self w = (Ok (), w') -> calls w' = calls w ++ [self].
Proof.
  intros H. destruct (run_calls self w) as [Hc|[_ He]]; rewrite H in *; [exact Hc|destruct He].
Qed.

Lemma ran_calls (js : list loc) (w w' : World) :
  ran js w w' -> calls w' = calls w ++ js.
Proof.
  induction 1 as [w|x js w w1 w2 Hrun _ IH]; [by rewrite app_nil_r|].
  rewrite IH, (run_ok_calls x w w1 Hrun), <- app_assoc. reflexivity.
Qed.

(** The loop of a sweep returns exactly when every run returns. *)
Lemma run_each_ran (js : list loc) (w w' : World) :
  Scheduler.run_each js w = (Ok (), w') <-> ran js w w'.
Proof.
  split.
  - revert w. induction js as [|x js IH]; intros w; cbn [Scheduler.run_each].
    + intros [= <-]. constructor.
    + rewrite bind_eq. destruct (Job.run x w) as [[[]|e] w1] eqn:Er; [|discriminate].
      intros H. econstructor; [exact Er|by apply IH].
  - induction 1 as [w|x js w w1 w2 Hrun _ IH]; cbn [Scheduler.run_each]; [reflexivity|].
    by rewrite bind_eq, Hrun.
Qed.

(** The loop of a sweep raises exactly when a run raises after the runs
    before it have returned. *)
Lemma run_each_stops (js : list loc) (w w' : World) (e : exn) :
  Scheduler.run_each js w = (Err e, w') <-> stops_at js w e w'.
Proof.
  split.
  - revert w. induction js as [|x js IH]; intros w; cbn [Scheduler.run_each];
      [discriminate|].
    rewrite bind_eq. destruct (Job.run x w) as [[[]|e1] w1] eqn:Er.
    + intros (i & y & wi & Hy & Hran & Hrun & Hci & Hc)%IH.
      exists (S i), y, wi. split; [exact Hy|]. split; [econstructor; eauto|].
      split; [exact Hrun|]. split; [|exact Hc].
      rewrite Hci, (run_ok_calls x w w1 Er), <- app_assoc. reflexivity.
    + intros [= <- <-]. exists 0%nat, x, w. split; [reflexivity|].
      split; [constructor|]. split; [exact Er|]. split; [by rewrite app_nil_r|].
      pose proof (run_calls_invoked x w) as H. by rewrite Er in H.
  - intros (i & y & wi & Hy & Hran & Hrun & _).
    revert w i Hy Hran. induction js as [|x js IH]; intros w i Hy Hran; [done|].
    cbn [Scheduler.run_each]. rewrite bind_eq. destruct i as [|i].
    + injection Hy as ->. inversion Hran; subst. by rewrite Hrun.
    + cbn [take] in Hran. inversion Hran as [|? ? ? w1 ? Hx Hrest]; subst.
      rewrite Hx. by apply (IH w1 i).
Qed.

Lemma sleep_ok (d : Z) (w : World) :
  0 <= d <= 9223372036 -> sleep d w = (Ok (), w).
Proof.
  intros Hd. unfold sleep.
  rewrite (proj2 (Z.ltb_ge _ _)) by lia. by rewrite (proj2 (Z.ltb_ge _ _)) by lia.
Qed.

Lemma sleep_refused (d : Z) (w : World) :
  ~ 0 <= d <= 9223372036 ->
  sleep d w = (Err (if 9223372036 <? Z.abs d then OverflowError else ValueError), w).
Proof.
  intros Hd. unfold sleep. destruct (_ <? Z.abs d) eqn:E; [reflexivity|].
  apply Z.ltb_ge in E. by rewrite (proj2 (Z.ltb_lt _ _)) by lia.
Qed.

(** With a delay that [time.sleep] accepts, the loop of [run_all] is the loop
    of runs. *)
Lemma run_each_delayed_accepted (d : Z) (js : list loc) (w : World) :
  0 <= d <= 9223372036 ->
  Scheduler.run_each_delayed d js w = Scheduler.run_each js w.
Proof.
  intros Hd. revert w.
  induction js as [|x js IH]; intros w;
    cbn [Scheduler.run_each_delayed Scheduler.run_each]; [reflexivity|].
  rewrite !bind_eq. destruct (Job.run x w) as [[[]|e] w1]; [|reflexivity].
  by rewrite bind_eq, sleep_ok.
Qed.

Lemma due_jobs_sublist (w : World) (k : nat) (js : list loc) :
  due_jobs w k js `sublist_of` js.
Proof.
  revert k. induction js as [|l js IH]; intros k; cbn [due_jobs]; [constructor|].
  destruct (next_run (job_at w l)) as [nr|]; [|by apply sublist_cons].
  destruct (dt_ge (clock w k) nr); [by apply sublist_skip|by apply sublist_cons].
Qed.

(** X12. A sweep over a registry whose jobs are all scheduled takes the jobs
    that are due at their check, in ascending order of [next_run], and runs
    them one after the other from the world that the checks leave. It returns
    exactly when each of these runs returns, with one invocation for each of
    them in that order; it raises exactly when one of these runs raises after
    the runs before it have returned, with the error and the world of that
    run, and no later job is run. The registry is the same afterwards. *)
Theorem run_pending_runs_due_in_order (w : World) :
  (forall l, l ∈ jobs w -> configured w l) ->
  exists ordered : list loc,
    ordered ≡ₚ due_jobs w (ticks w) (jobs w)
    /\ StronglySorted (not_after w) ordered
    /\ (NoDup (jobs w) -> NoDup ordered)
    /\ (forall w', Scheduler.run_pending w = (Ok (), w')
                   <-> ran ordered (with_ticks (ticks w + length (jobs w)) w) w')
    /\ (forall e w', Scheduler.run_pending w = (Err e, w')
                     <-> stops_at ordered (with_ticks (ticks w + length (jobs w)) w) e w')
    /\ (forall w', Scheduler.run_pending w = (Ok (), w') -> calls w' = calls w ++ ordered)
    /\ jobs (Scheduler.run_pending w).2 = jobs w.
Proof.
  intros Hall. unfold Scheduler.run_pending.
  rewrite (bind_ok get_jobs _ w (jobs w) w eq_refl).
  rewrite (bind_ok _ _ _ _ _ (runnable_jobs_configured (jobs w) w Hall)).
  set (w1 := with_ticks _ w).
  destruct (sorted_configured (due_jobs w (ticks w) (jobs w)) w1) as (ordered & Es & Hp & Hs).
  { intros y Hy. apply (Hall y). eapply elem_of_sublist; [exact Hy|].
    apply due_jobs_sublist. }
  rewrite (bind_ok _ _ _ _ _ Es).
  exists ordered. split; [exact Hp|]. split; [exact Hs|]. split.
  { intros Hnd. rewrite Hp. eapply sublist_NoDup; [exact Hnd|apply due_jobs_sublist]. }
  split; [intros w'; apply run_each_ran|].
  split; [intros e w'; apply run_each_stops|]. split.
  - intros w' H%run_each_ran%ran_calls. exact H.
  - pose proof (frames_run_each ordered w1) as (_ & _ & _ & Hj & _). exact Hj.
Qed.

Lemma run_pending_runs_due_in_order_witness :
  exists ordered : list loc,
    ordered ≡ₚ due_jobs w_two_jobs (ticks w_two_jobs) (jobs w_two_jobs)
    /\ StronglySorted (not_after w_two_jobs) ordered
    /\ (NoDup (jobs w_two_jobs) -> NoDup ordered)
    /\ (forall w', Scheduler.run_pending w_two_jobs = (Ok (), w')
                   <-> ran ordered
                         (with_ticks (ticks w_two_jobs + length (jobs w_two_jobs)) w_two_jobs)
                         w')
    /\ (forall e w', Scheduler.run_pending w_two_jobs = (Err e, w')
                     <-> stops_at ordered
                           (with_ticks (ticks w_two_jobs + length (jobs w_two_jobs))
                              w_two_jobs) e w')
    /\ (forall w', Scheduler.run_pending w_two_jobs = (Ok (), w') ->
                   calls w' = calls w_two_jobs ++ ordered)
    /\ jobs (Scheduler.run_pending w_two_jobs).2 = jobs w_two_jobs.
Proof.
  apply (run_pending_runs_due_in_order w_two_jobs).
  intros l Hl. vm_compute in Hl.
  apply elem_of_cons in Hl as [->|Hl]; [vm_compute; eauto|].
  apply list_elem_of_singleton in Hl as ->. vm_compute; eauto.
Defined.

(** X13. [run_all()] runs the jobs one after the other in the order of the
    registry, whatever their [next_run]. With a delay that [time.sleep]
    accepts it returns exactly when every run returns, and raises exactly
    when a run raises after the runs before it have returned, with the error
    and the world of that run. With a delay that [time.sleep] refuses and a
    registry that is not empty, only the first job is run: the error is the
    one of that run if it raises, and the one of [time.sleep] otherwise
    ([OverflowError] beyond 9223372036 seconds, [ValueError] for the other
    negative delays). A [run_all()] that returns has invoked every job once,
    in the order of the registry, and the registry is the same afterwards. *)
Theorem run_all_in_registry_order (w : World) (d : Z) :
  (0 <= d <= 9223372036 ->
     (forall w', Scheduler.run_all d w = (Ok (), w') <-> ran (jobs w) w w')
     /\ (forall e w', Scheduler.run_all d w = (Err e, w') <-> stops_at (jobs w) w e w'))
  /\ (~ 0 <= d <= 9223372036 -> forall x rest, jobs w = x :: rest ->
        Scheduler.run_all d w
        = (match (Job.run x w).1 with
           | Ok _ => Err (if 9223372036 <? Z.abs d then OverflowError else ValueError)
           | Err e => Err e
           end, (Job.run x w).2)
        /\ calls (Scheduler.run_all d w).2 = calls w ++ invoked w x)
  /\ (forall w', Scheduler.run_all d w = (Ok (), w') -> calls w' = calls w ++ jobs w)
  /\ jobs (Scheduler.run_all d w).2 = jobs w.
Proof.
  unfold Scheduler.run_all.
  rewrite (bind_ok get_jobs _ w (jobs w) w eq_refl).
  assert (Hbad : ~ 0 <= d <= 9223372036 -> forall x rest, jobs w = x :: rest ->
            Scheduler.run_each_delayed d (jobs w) w
            = (match (Job.run x w).1 with
               | Ok _ => Err (if 9223372036 <? Z.abs d then OverflowError else ValueError)
               | Err e => Err e
               end, (Job.run x w).2)).
  { intros Hd x rest ->. cbn [Scheduler.run_each_delayed]. rewrite bind_eq.
    destruct (Job.run x w) as [[[]|e] w1]; [|reflexivity].
    by rewrite bind_eq, (sleep_refused d w1 Hd). }
  split; [|split; [|split]].
  - intros Hd. rewrite (run_each_delayed_accepted d (jobs w) w Hd).
    split; [intros w'; apply run_each_ran|intros e w'; apply run_each_stops].
  - intros Hd x rest E. rewrite (Hbad Hd x rest E). split; [reflexivity|].
    cbn [snd]. apply run_calls_invoked.
  - intros w'. destruct (decide (0 <= d <= 9223372036)) as [Hd|Hd].
    + rewrite (run_each_delayed_accepted d (jobs w) w Hd).
      intros H%run_each_ran%ran_calls. exact H.
    + destruct (jobs w) as [|x rest] eqn:E.
      * cbn [Scheduler.run_each_delayed]. intros [= <-]. by rewrite app_nil_r.
      * rewrite (Hbad Hd x rest eq_refl). destruct (Job.run x w).1; discriminate.
  - destruct (decide (0 <= d <= 9223372036)) as [Hd|Hd].
    + rewrite (run_each_delayed_accepted d (jobs w) w Hd).
      pose proof (frames_run_each (jobs w) w) as (_ & _ & _ & Hj & _). exact Hj.
    + destruct (jobs w) as [|x rest] eqn:E; [exact E|].
      rewrite (Hbad Hd x rest eq_refl). cbn [snd].
      pose proof (frames_run x w) as (_ & _ & _ & Hj & _). by rewrite Hj, E.
Qed.

Lemma run_all_in_registry_order_witness :
  (forall w', Scheduler.run_all 0 (after two_jobs w_monday) = (Ok (), w')
              <-> ran (jobs (after two_jobs w_monday)) (after two_jobs w_monday) w')
  /\ Scheduler.run_all (-1) (after two_jobs w_monday)
     = (Err ValueError, (Job.run 0 (after two_jobs w_monday)).2)
  /\ calls (Scheduler.run_all (-1) (after two_jobs w_monday)).2
     = calls (after two_jobs w_monday) ++ [0%nat].
Proof.
  split.
  - refine (proj1 (proj1 (run_all_in_registry_order (after two_jobs w_monday) 0) _)). lia.
  - refine (proj1 (proj2 (run_all_in_registry_order (after two_jobs w_monday) (-1)))
              _ 0%nat [1%nat] _); [lia|vm_compute; reflexivity].
Defined.

(** ** One job at a time *)

Lemma frames_do (self : loc) (f : string) : frames [self] (Job.do self f).
Proof.
  unfold Job.do. repeat first [apply frames_schedule_next_run | frames_step].
Qed.

(** X15. Scheduling or running a job changes no other job and leaves the
    registry as it is; a run invokes no other work unit. *)
Theorem job_touches_only_itself (w : World) (self l : loc) (f : string) :
  l ≠ self ->
  heap (Job._schedule_next_run self w).2 !! l = heap w !! l
  /\ heap (Job.do self f w).2 !! l = heap w !! l
  /\ heap (Job.run self w).2 !! l = heap w !! l
  /\ jobs (Job.do self f w).2 = jobs w
  /\ jobs (Job.run self w).2 = jobs w
  /\ (exists cs, calls (Job.run self w).2 = calls w ++ cs /\ l ∉ cs)
  /\ calls (Job.do self f w).2 = calls w.
Proof.
  intros Hne.
  assert (Hl : l ∉ [self]) by (by intros ->%list_elem_of_singleton).
  destruct (frames_schedule_next_run self w) as (H1 & _).
  destruct (frames_do self f w) as (H2 & _ & _ & J2 & _).
  destruct (frames_run self w) as (H3 & _ & (cs & C3 & I3) & J3 & _).
  split; [by apply H1|]. split; [by apply H2|]. split; [by apply H3|].
  split; [exact J2|]. split; [exact J3|]. split.
  - exists cs. split; [exact C3|]. intros Hin. by apply Hl, I3.
  - unfold Job.do.
    pose proof (keeps_calls_bind (setj self (set_job_func (Some f)))
                  (fun _ => Job._schedule_next_run self ≫= fun _ => mret self)) as H.
    apply H; [apply keeps_calls_setj|]. intros _.
    apply keeps_calls_bind; [apply keeps_calls_schedule_next_run|].
    intros _. apply keeps_calls_ret.
Qed.

Lemma job_touches_only_itself_witness :
  heap (Job.run 0 (after two_jobs w_monday)).2 !! 1%nat
  = heap (after two_jobs w_monday) !! 1%nat.
Proof.
  refine (proj1 (proj2 (proj2 (job_touches_only_itself (after two_jobs w_monday)
                                 0 1 "tick" _)))).
  discriminate.
Defined.

(** ** Start dates *)

Lemma re_Y_bound (s : string) v r : (v, r) ∈ re_Y s -> 0 <= v <= 9999.
Proof.
  unfold re_Y. intros ([a r1] & Hin & Ha%re_two_bound)%list_elem_of_bind.
  apply list_elem_of_bind in Hin as ([b r2] & Hin & Hb%re_two_bound).
  apply list_elem_of_singleton in Hin as [= -> ->]. lia.
Qed.

Lemma re_nonzero_bound (s : string) v r : (v, r) ∈ re_nonzero s -> 1 <= v <= 9.
Proof.
  unfold re_nonzero. destruct s as [|a s]; [by intros ?%elem_of_nil|].
  destruct (_ && _)%bool eqn:E; [|by intros ?%elem_of_nil].
  apply andb_prop in E as [Ha%is_digit_range H1%Z.leb_le].
  intros [= -> ->]%list_elem_of_singleton. lia.
Qed.

Lemma re_zero_nonzero_bound (s : string) v r :
  (v, r) ∈ re_zero_nonzero s -> 1 <= v <= 9.
Proof.
  unfold re_zero_nonzero. destruct s as [|a [|b s]]; try by intros ?%elem_of_nil.
  destruct (_ && _)%bool eqn:E; [|by intros ?%elem_of_nil].
  apply andb_prop in E as [[_ Hb%is_digit_range]%andb_prop H1%Z.leb_le].
  intros [= -> ->]%list_elem_of_singleton. lia.
Qed.

Lemma re_m_bound (s : string) v r : (v, r) ∈ re_m s -> 1 <= v <= 12.
Proof.
  unfold re_m. rewrite !elem_of_app.
  intros [H%re_two_bound|[H%re_zero_nonzero_bound|H%re_nonzero_bound]]; lia.
Qed.

Lemma re_d_bound (s : string) v r : (v, r) ∈ re_d s -> 1 <= v <= 31.
Proof.
  unfold re_d. rewrite !elem_of_app.
  intros [H%re_two_bound|[H%re_two_bound|[H%re_zero_nonzero_bound|
         [H%re_nonzero_bound|H]]]]; try lia.
  apply list_elem_of_bind in H as (r' & H%re_nonzero_bound & _). lia.
Qed.

Lemma days_before_month_bound (y m : Z) :
  1 <= m <= 12 ->
  0 <= days_before_month y m
  /\ days_before_month y m + days_in_month y m <= (if is_leap y then 366 else 365).
Proof.
  intros Hm.
  assert (Hcases : m = 1 \/ m = 2 \/ m = 3 \/ m = 4 \/ m = 5 \/ m = 6 \/ m = 7
                   \/ m = 8 \/ m = 9 \/ m = 10 \/ m = 11 \/ m = 12) by lia.
  destruct Hcases as [->|[->|[->|[->|[->|[->|[->|[->|[->|[->|[->| ->]]]]]]]]]]];
    cbv -[is_leap Z.le Z.lt]; destruct (is_leap y); cbv -[Z.le Z.lt]; lia.
Qed.

(** A day of a month of a year from 1 to 9999 has an ordinal in range. *)
Lemma ymd2ord_range (y m d : Z) :
  1 <= y <= 9999 -> 1 <= m <= 12 -> 1 <= d <= days_in_month y m ->
  1 <= ymd2ord y m d <= MAXORDINAL.
Proof.
  intros Hy Hm Hd. unfold ymd2ord.
  destruct (days_before_month_bound y m Hm) as [Hb0 Hb].
  assert (Hdby : 0 <= days_before_year y
                 /\ days_before_year y + 365 <= MAXORDINAL
                 /\ (is_leap y = true -> days_before_year y + 366 <= MAXORDINAL)).
  { unfold days_before_year, MAXORDINAL, is_leap. cbv zeta.
    split; [Z.div_mod_to_equations; lia|]. split; [Z.div_mod_to_equations; lia|].
    intros [H4%Z.eqb_eq _]%andb_prop. Z.div_mod_to_equations. lia. }
  destruct Hdby as (H0 & H365 & H366).
  destruct (is_leap y); [specialize (H366 eq_refl)|]; lia.
Qed.

(** What [strptime(s, '%Y-%m-%d')] returns: a date of the calendar at
    midnight. *)
Lemma strptime_Ymd_inv (s : string) (d : datetime) :
  strptime_Ymd s = Ok d -> datetime_wf d /\ timeof d = Time 0 0 0 0.
Proof.
  unfold strptime_Ymd. cbv zeta.
  match goal with |- context [match ?l with _ => _ end] => set (ms := l) end.
  assert (Hms : forall y m dd r, (y, m, dd, r) ∈ ms ->
                  0 <= y <= 9999 /\ 1 <= m <= 12 /\ 1 <= dd <= 31).
  { intros y m dd r. subst ms. rewrite list_elem_of_bind.
    intros ([y' r1] & Hin & Hy%re_Y_bound).
    apply list_elem_of_bind in Hin as (r2 & Hin & _).
    apply list_elem_of_bind in Hin as ([m' r3] & Hin & Hm%re_m_bound).
    apply list_elem_of_bind in Hin as (r4 & Hin & _).
    apply list_elem_of_bind in Hin as ([d' r5] & Hin & Hd%re_d_bound).
    apply list_elem_of_singleton in Hin as [= -> -> -> ->]. done. }
  destruct ms as [|[[[y m] dd] [|c r]] ms']; try discriminate.
  destruct (_ && _)%bool eqn:C; [|discriminate].
  apply andb_prop in C as [Hy1%Z.leb_le Hdim%Z.leb_le].
  intros [= <-]. destruct (Hms y m dd EmptyString) as (Hy & Hm & Hd); [left|].
  split; [|reflexivity]. split.
  - cbn [toordinal]. apply ymd2ord_range; lia.
  - unfold time_wf, US_PER_SECOND. cbn. lia.
Qed.

(** X16. [starting()] succeeds exactly on the strings that
    [strptime(s, '%Y-%m-%d')] accepts, and raises the error of [strptime] on
    the others without changing anything. When it returns, the [start_run]
    of the job is the parsed date, a date of the calendar at midnight, and
    nothing else has changed. *)
Theorem starting_stores_a_date (w : World) (self : loc) (j : Job) (s : string) :
  heap w !! self = Some j ->
  (forall l w',
     Job.starting self s w = (Ok l, w') ->
     exists (d : datetime) (j' : Job),
       strptime_Ymd s = Ok d
       /\ l = self
       /\ updates self j' w w'
       /\ start_run j' = Some d
       /\ j' = mkJob (interval j) (job_func j) (unit_ j) (at_time j) (between_times j)
                 (run_days j) (Some d) (last_run j) (next_run j) (period j)
       /\ datetime_wf d
       /\ timeof d = Time 0 0 0 0)
  /\ (forall d, strptime_Ymd s = Ok d -> exists w', Job.starting self s w = (Ok self, w'))
  /\ (forall e, strptime_Ymd s = Err e -> Job.starting self s w = (Err e, w)).
Proof.
  intros Hj. unfold Job.starting. split; [|split].
  - intros l w'. rewrite bind_eq.
    destruct (strptime_Ymd s) as [d|e] eqn:E; cbn [lift]; [|discriminate].
    rewrite (bind_ok _ _ _ _ _ (setj_ok _ _ _ _ Hj)). intros [= <- <-].
    eexists d, _. split; [reflexivity|]. split; [reflexivity|]. split.
    { split; [apply lookup_insert_eq|]. split; [|done].
      intros l Hl. cbn [heap with_heap]. by rewrite lookup_insert_ne. }
    do 2 (split; [reflexivity|]). by apply (strptime_Ymd_inv s).
  - intros d ->. rewrite (bind_ok (lift (Ok d)) _ w d w eq_refl).
    rewrite (bind_ok _ _ _ _ _ (setj_ok _ _ _ _ Hj)). by eexists.
  - intros e ->. reflexivity.
Qed.

Lemma starting_stores_a_date_witness :
  exists (d : datetime) (j' : Job),
    strptime_Ymd "2024-02-29" = Ok d
    /\ heap (after (Job.starting 0 "2024-02-29") (after (Scheduler.every 1) w_monday)) !! 0%nat
       = Some j'
    /\ start_run j' = Some d
    /\ d = mkdt 2024 2 29 0 0 0
    /\ datetime_wf d.
Proof.
  assert (H0 : heap (after (Scheduler.every 1) w_monday) !! 0%nat = Some (Job_init 1))
    by (vm_compute; reflexivity).
  destruct (proj1 (starting_stores_a_date (after (Scheduler.every 1) w_monday) 0
                     (Job_init 1) "2024-02-29" H0)
              0%nat (after (Job.starting 0 "2024-02-29") (after (Scheduler.every 1) w_monday)))
    as (d & j' & Ed & _ & (Hj' & _) & Hs & _ & Hwf & _); [vm_compute; reflexivity|].
  exists d, j'. split; [exact Ed|]. split; [exact Hj'|]. split; [exact Hs|].
  split; [|exact Hwf]. vm_compute in Ed. by injection Ed as <-.
Defined.

(** ** The idle time *)

Lemma dt_us_range (d : datetime) :
  datetime_wf d -> US_PER_DAY <= dt_us d < (MAXORDINAL + 1) * US_PER_DAY.
Proof.
  intros [Ho Ht]. pose proof (time_us_range _ Ht). unfold dt_us.
  unfold US_PER_DAY, US_PER_SECOND, MAXORDINAL in *. lia.
Qed.

(** X17. On a registry that is not empty and whose jobs are all scheduled,
    [idle_seconds] reads the clock once and returns [total_seconds()] of the
    time from that reading to the earliest [next_run] of the registry: the
    float nearest to that number of seconds. The duration is negative exactly
    when that job is overdue. *)
Theorem idle_seconds_to_next_run (w : World) :
  jobs w ≠ [] ->
  (forall l, l ∈ jobs w ->
     exists j nr, heap w !! l = Some j /\ next_run j = Some nr /\ datetime_wf nr) ->
  datetime_wf (clock w (ticks w)) ->
  exists (d : datetime) (td : timedelta),
    (exists l j, l ∈ jobs w /\ heap w !! l = Some j /\ next_run j = Some d)
    /\ (forall l j nr, l ∈ jobs w -> heap w !! l = Some j -> next_run j = Some nr ->
          dt_lt nr d = false)
    /\ dt_diff d (clock w (ticks w)) = Ok td
    /\ td_us td = dt_us d - dt_us (clock w (ticks w))
    /\ (Scheduler.idle_seconds w).1 = Ok (total_seconds td)
    /\ ticks (Scheduler.idle_seconds w).2 = S (ticks w)
    /\ heap (Scheduler.idle_seconds w).2 = heap w
    /\ jobs (Scheduler.idle_seconds w).2 = jobs w
    /\ calls (Scheduler.idle_seconds w).2 = calls w
    /\ (dt_lt d (clock w (ticks w)) = true <-> td_us td < 0).
Proof.
  intros Hne Hall' Hnow.
  assert (Hall : forall l, l ∈ jobs w -> configured w l).
  { intros l Hl. destruct (Hall' l Hl) as (j & nr & ? & ? & _). by exists j, nr. }
  destruct (next_run_earliest w Hne Hall) as (d & En & (l & j & Hl & Hj & Hd) & Hmin).
  assert (Hwf : datetime_wf d).
  { destruct (Hall' l Hl) as (j' & nr' & Hj' & Hnr' & Hw).
    rewrite Hj in Hj'. injection Hj' as <-. rewrite Hd in Hnr'. by injection Hnr' as <-. }
  pose proof (dt_us_range d Hwf) as Rd.
  pose proof (dt_us_range _ Hnow) as Rn.
  destruct (timedelta_of_us_ok (dt_us d - dt_us (clock w (ticks w)))) as (td & Etd & Hus).
  { unfold US_PER_DAY, US_PER_SECOND, MAXORDINAL in *. lia. }
  exists d, td. split; [by exists l, j|]. split; [exact Hmin|].
  split; [exact Etd|]. split; [exact Hus|].
  assert (E : Scheduler.idle_seconds w
              = (Ok (total_seconds td), with_ticks (S (ticks w)) w)).
  { unfold Scheduler.idle_seconds.
    rewrite (bind_ok _ _ _ _ _ En), (bind_ok now _ w _ _ eq_refl).
    unfold dt_diff. cbn [clock ticks with_ticks].
    by rewrite Etd, (bind_ok (lift (Ok td)) _ _ td _ eq_refl). }
  rewrite E. do 5 (split; [reflexivity|]).
  rewrite Hus, dt_lt_iff.
  destruct Hwf as [_ (? & ? & ? & ?)]. destruct Hnow as [_ (? & ? & ? & ?)].
  unfold dt_us, time_us, US_PER_DAY, US_PER_SECOND in *. lia.
Qed.

Lemma idle_seconds_to_next_run_witness :
  exists (d : datetime) (td : timedelta),
    (exists l j, l ∈ jobs w_two_jobs /\ heap w_two_jobs !! l = Some j /\ next_run j = Some d)
    /\ (forall l j nr, l ∈ jobs w_two_jobs -> heap w_two_jobs !! l = Some j ->
          next_run j = Some nr -> dt_lt nr d = false)
    /\ dt_diff d (clock w_two_jobs (ticks w_two_jobs)) = Ok td
    /\ td_us td = dt_us d - dt_us (clock w_two_jobs (ticks w_two_jobs))
    /\ (Scheduler.idle_seconds w_two_jobs).1 = Ok (total_seconds td)
    /\ ticks (Scheduler.idle_seconds w_two_jobs).2 = S (ticks w_two_jobs)
    /\ heap (Scheduler.idle_seconds w_two_jobs).2 = heap w_two_jobs
    /\ jobs (Scheduler.idle_seconds w_two_jobs).2 = jobs w_two_jobs
    /\ calls (Scheduler.idle_seconds w_two_jobs).2 = calls w_two_jobs
    /\ (dt_lt d (clock w_two_jobs (ticks w_two_jobs)) = true <-> td_us td < 0).
Proof.
  apply (idle_seconds_to_next_run w_two_jobs).
  - vm_compute. discriminate.
  - intros l Hl. vm_compute in Hl.
    apply elem_of_cons in Hl as [->|Hl];
      [|apply list_elem_of_singleton in Hl as ->];
      eexists _, _; (split; [vm_compute; reflexivity|]);
      (split; [reflexivity|]); vm_compute; repeat split; discriminate.
  - vm_compute. repeat split; discriminate.
Defined.

(** The job every second is 29 seconds overdue at 08:00:30: [idle_seconds]
    is [-29.0]. A time of 251684812799.999999 seconds is rounded to
    [251684812800.0], and a microsecond is the float nearest to [1e-06]. *)
Example idle_seconds_values :
  (Scheduler.idle_seconds w_two_jobs).1
  = Ok (SpecFloat.S754_finite true 8162774324609024 (-48))
  /\ 8162774324609024 = 29 * 2 ^ 48
  /\ total_seconds (Timedelta 2913018 57599 999999)
     = SpecFloat.S754_finite false 8247207945830400 (-15)
  /\ 8247207945830400 = 251684812800 * 2 ^ 15
  /\ total_seconds (Timedelta 0 0 1)
     = SpecFloat.S754_finite false 4722366482869645 (-72).
Proof. vm_compute. repeat split. Qed.

(** ** Run days: two edges of the recomputation *)

(** The smallest distance is not above the distance to any picked day. *)
Lemma closest_delta_least (days : gset Z) (starting : datetime) (i : Z) :
  i ∈ days ->
  Job.closest_delta days starting <= (i - isoweekday starting) mod 7.
Proof.
  intros Hi. unfold Job.closest_delta.
  rewrite bool_decide_eq_false_2 by set_solver. cbv zeta.
  set (l := (fun i => (i - isoweekday starting) mod 7) <$> elements days).
  assert (Hin : (i - isoweekday starting) mod 7 ∈ l).
  { apply list_elem_of_fmap. exists i. split; [done|]. by apply elem_of_elements. }
  pose proof (merge_sort_Permutation Z.le l) as Hp.
  pose proof (StronglySorted_merge_sort Z.le l) as Hs.
  rewrite <- Hp in Hin.
  destruct (merge_sort Z.le l) as [|d ds]; [by apply elem_of_nil in Hin|].
  cbn [hd]. apply StronglySorted_inv in Hs as [_ Hall].
  apply elem_of_cons in Hin as [->|Hin]; [done|].
  by apply (proj1 (Forall_forall _ _) Hall).
Qed.

Lemma closest_delta_nonneg (days : gset Z) (starting : datetime) :
  0 <= Job.closest_delta days starting.
Proof.
  destruct (decide (days = ∅)) as [->|Hne].
  - unfold Job.closest_delta. by rewrite bool_decide_eq_true_2.
  - destruct (closest_delta_pick days starting Hne) as (i & _ & ->).
    apply Z.mod_pos_bound. lia.
Qed.

Lemma filter_keeps_all {A} (P : A -> Prop) `{!forall x, Decision (P x)} (l : list A) :
  (forall x, x ∈ l -> P x) -> filter P l = l.
Proof.
  induction l as [|x l IH]; intros Hall; [reflexivity|].
  rewrite filter_cons_True by (apply Hall; left).
  f_equal. apply IH. intros y Hy. apply Hall. by right.
Qed.

(** X18. After a run on a Sunday no group is removed from the working copy:
    [isoweekday()] is 7 and the groups hold 0 for Sunday. For a job with unit
    days, no window and a group that is Sunday alone, the recomputation then
    puts [next_run] seven days after the run, whatever the other groups. *)
Theorem sunday_run_keeps_groups (w : World) (self : loc) (j : Job) (lr : datetime)
    (per : timedelta) (base : datetime) :
  weekday_id lr = 0 ->
  groups_valid (run_days j) ->
  Job.remove_ran (isoweekday lr) (run_days j) (run_days j) = Ok (run_days j)
  /\ (heap w !! self = Some j ->
      unit_ j = Some Days ->
      last_run j = Some lr ->
      {[0]} ∈ run_days j ->
      between_times j = None ->
      Job.timedelta_unit Days (interval j) = Ok per ->
      dt_add (default (clock w (ticks w)) (start_run j)) per = Ok base ->
      datetime_wf lr ->
      toordinal lr + 7 <= MAXORDINAL ->
      exists w' j' nr,
        Job._schedule_next_run self w = (Ok (), w')
        /\ heap w' !! self = Some j'
        /\ next_run j' = Some nr
        /\ toordinal nr = toordinal lr + 7).
Proof.
  intros Hsun Hv.
  assert (Hiso : isoweekday lr = 7).
  { unfold isoweekday, weekday_id in *. cbv zeta. by rewrite Hsun. }
  assert (Hfilter : filter (fun g => isoweekday lr ∉ g) (run_days j) = run_days j).
  { rewrite Hiso. apply filter_keeps_all. (* no valid group holds 7 *)
    intros g Hg H7. destruct (Hv g Hg) as [_ Hr]. specialize (Hr 7 H7). lia. }
  split; [by rewrite remove_ran_filter, Hfilter|].
  intros Hj Hu Hl Hsunday Hb Hp Hbase Hwf Hmax.
  assert (Hd : run_days j ≠ []) by (intros E; rewrite E in Hsunday; by apply elem_of_nil in Hsunday).
  destruct (schedule_run_days w self j Days per base Hj Hu Hd Hb Hp Hbase)
    as (days & _ & Hcover & _ & _ & Hrun).
  { rewrite Hl, Hfilter. intros g Hg. by apply Hv. }
  rewrite Hl in Hcover, Hrun. rewrite Hfilter in Hcover.
  destruct (Hcover {[0]} Hsunday) as (i & ->%elem_of_singleton & H0).
  assert (Edelta : Job.closest_delta days lr = 0).
  { pose proof (closest_delta_least days lr 0 H0) as Hle.
    pose proof (closest_delta_nonneg days lr) as Hge.
    rewrite Hiso in Hle. change ((0 - 7) mod 7) with 0 in Hle. lia. }
  assert (Eno : Job.no_second_run_today j Days lr (Job.closest_delta days lr) = 7).
  { unfold Job.no_second_run_today. by rewrite Edelta, Hl, !Z.eqb_refl. }
  destruct (timedelta_days_ok 7) as (td & Etd & Hus); [lia|].
  destruct (Hrun (Datetime (toordinal lr + 7) (timeof lr))) as (w' & E & Hh & _).
  { rewrite Eno, Etd. cbn [rbind]. apply dt_add_days; [done|done|].
    destruct Hwf as [[? ?] _]. lia. }
  eexists w', _, _. split; [exact E|]. split; [exact Hh|]. split; [reflexivity|].
  by destruct (at_time j).
Qed.

Lemma sunday_run_keeps_groups_witness :
  exists w' j' nr,
    Job._schedule_next_run 0
      (after (j ← Scheduler.on ["sun"; "wed"]%string; j ← Job.do j "job"; Job.run j)
         (world0 (steady (mkdt 2024 6 9 8 0 0)) zeros no_raise))
    = (Ok (), w')
    /\ heap w' !! 0%nat = Some j'
    /\ next_run j' = Some nr
    /\ toordinal nr = toordinal (mkdt 2024 6 9 8 0 0) + 7.
Proof.
  refine (proj2 (sunday_run_keeps_groups
            (after (j ← Scheduler.on ["sun"; "wed"]%string; j ← Job.do j "job"; Job.run j)
               (world0 (steady (mkdt 2024 6 9 8 0 0)) zeros no_raise)) 0
            (job_at (after (j ← Scheduler.on ["sun"; "wed"]%string; j ← Job.do j "job";
                            Job.run j)
                       (world0 (steady (mkdt 2024 6 9 8 0 0)) zeros no_raise)) 0)
            (mkdt 2024 6 9 8 0 0) (Timedelta 1 0 0) (mkdt 2024 6 10 8 0 0) _ _)
            _ _ _ _ _ _ _ _ _);
    try (vm_compute; reflexivity).
  - change (groups_valid (Job.weeknums_of ["sun"; "wed"]%string)).
    apply weeknums_of_valid.
  - change ({[0]} ∈ Job.weeknums_of ["sun"; "wed"]%string).
    vm_compute. left.
  - vm_compute. repeat split; discriminate.
  - vm_compute. discriminate.
Defined.

Lemma filter_drops_all {A} (P : A -> Prop) `{!forall x, Decision (P x)} (l : list A) :
  (forall x, x ∈ l -> ~ P x) -> filter P l = [].
Proof.
  induction l as [|x l IH]; intros Hall; [reflexivity|].
  rewrite filter_cons_False by (apply Hall; left).
  apply IH. intros y Hy. apply Hall. by right.
Qed.

(** X19. The guard against a second run on the same day only acts on the
    units days and weeks. For a job with run days whose unit is seconds,
    minutes or hours, with no window and no time of day, recomputed after a
    run on a weekday that all its groups contain, [next_run] is the instant of
    that run again: no group is left and nothing is added. *)
Theorem run_days_small_unit_stays_due (w : World) (self : loc) (j : Job) (u : Unit)
    (lr : datetime) (per : timedelta) (base : datetime) :
  heap w !! self = Some j ->
  unit_ j = Some u ->
  u ≠ Days -> u ≠ Weeks ->
  last_run j = Some lr ->
  run_days j ≠ [] ->
  (forall g, g ∈ run_days j -> isoweekday lr ∈ g) ->
  between_times j = None ->
  at_time j = None ->
  Job.timedelta_unit u (interval j) = Ok per ->
  dt_add (default (clock w (ticks w)) (start_run j)) per = Ok base ->
  datetime_wf lr ->
  exists w' j',
    Job._schedule_next_run self w = (Ok (), w')
    /\ heap w' !! self = Some j'
    /\ last_run j' = Some lr
    /\ next_run j' = Some lr.
Proof.
  intros Hj Hu Hnd Hnw Hl Hd Hall Hb Ha Hp Hbase Hwf.
  assert (Hfilter : filter (fun g => isoweekday lr ∉ g) (run_days j) = []).
  { apply filter_drops_all. intros g Hg Hnot. by apply Hnot, Hall. }
  destruct (schedule_run_days w self j u per base Hj Hu Hd Hb Hp Hbase)
    as (days & _ & _ & _ & Hempty & Hrun).
  { rewrite Hl, Hfilter. by intros g ?%elem_of_nil. }
  rewrite Hl in Hempty, Hrun. rewrite (Hempty Hfilter) in Hrun.
  assert (Eno : Job.no_second_run_today j u lr (Job.closest_delta ∅ lr) = 0).
  { unfold Job.no_second_run_today, Job.closest_delta.
    rewrite bool_decide_eq_true_2 by done. rewrite Hl, !Z.eqb_refl.
    by destruct u. }
  destruct (Hrun lr) as (w' & E & Hh & _).
  { rewrite Eno. change (timedelta_days 0) with (Ok (Timedelta 0 0 0)). cbn [rbind].
    rewrite (dt_add_days lr 0 (Timedelta 0 0 0) Hwf eq_refl).
    - destruct lr as [o t]. cbn [toordinal timeof]. by rewrite Z.add_0_r.
    - destruct Hwf as [? _]. lia. }
  rewrite Ha in Hh.
  eexists w', _. split; [exact E|]. split; [exact Hh|]. split; [exact Hl|reflexivity].
Qed.

Lemma run_days_small_unit_stays_due_witness :
  exists w' j',
    Job._schedule_next_run 0
      (after (j ← Scheduler.on ["mon"]%string; j ← Job.hours j; j ← Job.do j "job";
              Job.run j) w_monday)
    = (Ok (), w')
    /\ heap w' !! 0%nat = Some j'
    /\ last_run j' = Some monday_8
    /\ next_run j' = Some monday_8.
Proof.
  refine (run_days_small_unit_stays_due
            (after (j ← Scheduler.on ["mon"]%string; j ← Job.hours j; j ← Job.do j "job";
                    Job.run j) w_monday) 0
            (job_at (after (j ← Scheduler.on ["mon"]%string; j ← Job.hours j;
                            j ← Job.do j "job"; Job.run j) w_monday) 0)
            Hours monday_8 (Timedelta 0 3600 0) (mkdt 2024 6 3 9 0 0)
            _ _ _ _ _ _ _ _ _ _ _ _).
  - vm_compute; reflexivity.
  - vm_compute; reflexivity.
  - discriminate.
  - discriminate.
  - vm_compute; reflexivity.
  - vm_compute. discriminate.
  - change (forall g, g ∈ Job.weeknums_of ["mon"]%string -> isoweekday monday_8 ∈ g).
    intros g Hg. vm_compute in Hg.
    apply list_elem_of_singleton in Hg as ->. vm_compute. reflexivity.
  - vm_compute; reflexivity.
  - vm_compute; reflexivity.
  - vm_compute; reflexivity.
  - vm_compute; reflexivity.
  - vm_compute. repeat split; discriminate.
Defined.
